(** * Stream1: ingest-to-playback pipeline, checked against its specification

    A shallow embedding of the storage backends, the storage facade, the
    upload endpoint, the manifest generator, the DASH segment scan of the
    transcoder and the cleanup worker, followed by the properties the
    specification states about them.

    Conventions of the embedding:
    - Python [int] is [Z]; [str] is [string]; [bytes] is [list byte];
      [None]-or-value is [option].
    - A Python [float] is represented by the rational number it equals
      ([Q]); the float operations round to the nearest float
      ([Float64]); NaN and the infinities are not represented.
    - The local backend works on a file system: regular files, and the
      directories that may hold none.  Paths are compared as texts, which
      is the file system's view for paths in their normal spelling.
    - Code that raises is a state-and-exception computation [M S A]: it
      returns the state it left behind together with a value or the
      exception, so that what was written before a [raise] stays written.
    - The clock ([datetime.utcnow()]) is an explicit argument [now]. *)

From Stdlib Require Import ZArith QArith Qround Qabs Qpower Lqa String Ascii List
  Sorted Lia.
From Stdlib.Init Require Import Byte.
From stdpp Require Import base gmap strings list pretty.

Open Scope Z_scope.

(* ================================================================== *)
(** * Python values and exceptions *)
(* ================================================================== *)

Module Py.

(** [bool(x)] for an [Optional[str]]: [None] and [""] are falsy. *)
Definition truthy (x : option string) : bool :=
  match x with
  | Some (String _ _) => true
  | _ => false
  end.

(** [str(n)] for an [int]. *)
Definition str_int (n : Z) : string := pretty n.

(** [range(n)]: empty when [n <= 0]. *)
Definition range (n : Z) : list Z := Z.of_nat <$> seq 0 (Z.to_nat n).

(** [sep.join(lines)]. *)
Fixpoint join (sep : string) (lines : list string) : string :=
  match lines with
  | [] => ""
  | [l] => l
  | l :: rest => l +:+ sep +:+ join sep rest
  end.

(** [needle in s] for strings. *)
Definition contains (needle s : string) : bool :=
  match String.index 0 needle s with
  | Some _ => true
  | None => false
  end.

(** [os.path.basename(p)]: what follows the last ['/'].  [cur] is the
    candidate (the text after the last separator seen so far). *)
Fixpoint basename_from (cur p : string) : string :=
  match p with
  | EmptyString => cur
  | String c r =>
      if Ascii.eqb c "/" then basename_from r r else basename_from cur r
  end.

Definition basename (p : string) : string := basename_from p p.

(** ['/' in s] *)
Fixpoint has_slash (s : string) : bool :=
  match s with
  | EmptyString => false
  | String c r => Ascii.eqb c "/" || has_slash r
  end.

(** [os.path.dirname(p)] for a path in its normal spelling: what
    precedes the last ['/']. *)
Fixpoint dirname (p : string) : string :=
  match p with
  | EmptyString => ""
  | String c r => if has_slash r then String c (dirname r) else ""
  end.

(** The exceptions of [app/core/exceptions.py] and the built-in ones the
    modelled code can meet. *)
Inductive exn : Type :=
| VideoNotFoundError (video_id : string)
| VideoProcessingError (video_id detail : string)
| UploadError (detail : string)
| StorageError (operation detail : string)
| ZeroDivisionError
| ValueError (message : string)
| HTTPException (status_code : Z) (detail : string)
| Exception (message : string).

(** [str(e)]. *)
Definition str (e : exn) : string :=
  match e with
  | VideoNotFoundError video_id => "Video with ID " +:+ video_id +:+ " not found"
  | VideoProcessingError video_id detail =>
      "Video processing error for video " +:+ video_id +:+ ": " +:+ detail
  | UploadError detail => "Upload error: " +:+ detail
  | StorageError operation detail =>
      "Storage error during " +:+ operation +:+ ": " +:+ detail
  | ZeroDivisionError => "division by zero"
  | ValueError message => message
  | HTTPException _ detail => detail
  | Exception message => message
  end.

Inductive result (A : Type) : Type :=
| Ok (a : A)
| Raise (e : exn).
Arguments Ok {A} a.
Arguments Raise {A} e.

(** A computation over a store [S] that may raise. *)
Definition M (S A : Type) : Type := S → S * result A.

Definition ret {S A} (a : A) : M S A := λ s, (s, Ok a).

Definition raise {S A} (e : exn) : M S A := λ s, (s, Raise e).

Definition bind {S A B} (c : M S A) (k : A → M S B) : M S B :=
  λ s, match c s with
       | (s', Ok a) => k a s'
       | (s', Raise e) => (s', Raise e)
       end.

(** [try: body  except Exception as e: handler(e)]. *)
Definition try_except {S A} (body : M S A) (handler : exn → M S A) : M S A :=
  λ s, match body s with
       | (s', Ok a) => (s', Ok a)
       | (s', Raise e) => handler e s'
       end.

(** [if cond: raise e]. *)
Definition raise_if {S} (cond : bool) (e : exn) : M S unit :=
  if cond then raise e else ret tt.

End Py.

Export Py.

Notation "'let*' x ':=' c 'in' k" := (Py.bind c (λ x, k))
  (at level 10, x binder, c at level 100, k at level 200).
Notation "c ';;' k" := (Py.bind c (λ _, k))
  (at level 100, k at level 200, right associativity).

(* ================================================================== *)
(** * Floats *)
(* ================================================================== *)

(** Rounding to the nearest integer, ties to the even one: the rounding
    of the float operations, and of [format(x, ".Nf")] on the exact value
    of [x]. *)
Definition round_half_even (q : Q) : Z :=
  let f := Qfloor q in
  match (q - inject_Z f ?= 1 # 2)%Q with
  | Lt => f
  | Gt => f + 1
  | Eq => if Z.even f then f else f + 1
  end.

(** A [float] is kept as the rational it equals, and an operation rounds
    its exact result to the nearest float: binary64 with 53 significant
    bits, ties to the even significand, and the spacing [2^-1074] of the
    subnormal numbers at the bottom.  Infinities, NaN and overflow are not
    represented. *)
Module Float64.

(** The binade of a positive rational: the [e] with
    [2^e <= q < 2^(e+1)]. *)
Definition binade (q : Q) : Z :=
  if Qle_bool 1 q then Z.log2 (Qfloor q) else - Z.log2_up (Qceiling (/ q)).

(** The spacing of the floats around [q]. *)
Definition ulp (q : Q) : Q := (2 ^ Z.max (binade (Qabs q) - 52) (-1074))%Q.

(** The float nearest to [q]. *)
Definition round (q : Q) : Q :=
  if Qeq_bool q 0 then 0%Q
  else (inject_Z (round_half_even (q / ulp q)) * ulp q)%Q.

(** [float(text)], for a text that is the decimal number [q]. *)
Definition of_decimal (q : Q) : Q := round q.

(** [a / b] on two [int]s, [b] not zero. *)
Definition div (a b : Z) : Q := round (inject_Z a / inject_Z b).

(** [x * y] *)
Definition mul (x y : Q) : Q := round (x * y).

(** The largest float. *)
Definition max_value : Q := (inject_Z (2 ^ 53 - 1) * 2 ^ 971)%Q.

(** [q] is the value of a float. *)
Definition is_float (q : Q) : bool :=
  Qeq_bool (round q) q && Qle_bool (Qabs q) max_value.

End Float64.

(* ================================================================== *)
(** * The stored state *)
(* ================================================================== *)

(** The metadata document [metadata/{id}.json], restricted to the keys the
    modelled operations read or write.  Keys a document may lack are
    options; [allow_cleanup] and [cleanup_performed] are read with
    [.get(key, False)]. *)
Record Metadata : Type := mkMetadata {
  md_id : string;
  md_filename : string;
  md_owner_id : option string;
  md_company_id : option string;
  md_status : string;
  md_created_at : string;
  md_updated_at : string;
  md_upload_progress : Q;
  md_chunks_received : Z;
  md_total_chunks : Z;
  md_output_path : option string;
  md_error : option string;
  md_stalled_at : option string;
  md_allow_cleanup : bool;
  md_cleanup_performed : bool;
  md_cleaned_at : option string
}.

(** [metadata[key] = value] for the keys that are assigned. *)
Definition with_status (v : string) (m : Metadata) : Metadata :=
  mkMetadata (md_id m) (md_filename m) (md_owner_id m) (md_company_id m) v
    (md_created_at m) (md_updated_at m) (md_upload_progress m)
    (md_chunks_received m) (md_total_chunks m) (md_output_path m) (md_error m)
    (md_stalled_at m) (md_allow_cleanup m) (md_cleanup_performed m) (md_cleaned_at m).

Definition with_updated_at (v : string) (m : Metadata) : Metadata :=
  mkMetadata (md_id m) (md_filename m) (md_owner_id m) (md_company_id m) (md_status m)
    (md_created_at m) v (md_upload_progress m)
    (md_chunks_received m) (md_total_chunks m) (md_output_path m) (md_error m)
    (md_stalled_at m) (md_allow_cleanup m) (md_cleanup_performed m) (md_cleaned_at m).

Definition with_upload_progress (v : Q) (m : Metadata) : Metadata :=
  mkMetadata (md_id m) (md_filename m) (md_owner_id m) (md_company_id m) (md_status m)
    (md_created_at m) (md_updated_at m) v
    (md_chunks_received m) (md_total_chunks m) (md_output_path m) (md_error m)
    (md_stalled_at m) (md_allow_cleanup m) (md_cleanup_performed m) (md_cleaned_at m).

Definition with_chunks_received (v : Z) (m : Metadata) : Metadata :=
  mkMetadata (md_id m) (md_filename m) (md_owner_id m) (md_company_id m) (md_status m)
    (md_created_at m) (md_updated_at m) (md_upload_progress m)
    v (md_total_chunks m) (md_output_path m) (md_error m)
    (md_stalled_at m) (md_allow_cleanup m) (md_cleanup_performed m) (md_cleaned_at m).

Definition with_total_chunks (v : Z) (m : Metadata) : Metadata :=
  mkMetadata (md_id m) (md_filename m) (md_owner_id m) (md_company_id m) (md_status m)
    (md_created_at m) (md_updated_at m) (md_upload_progress m)
    (md_chunks_received m) v (md_output_path m) (md_error m)
    (md_stalled_at m) (md_allow_cleanup m) (md_cleanup_performed m) (md_cleaned_at m).

Definition with_output_path (v : string) (m : Metadata) : Metadata :=
  mkMetadata (md_id m) (md_filename m) (md_owner_id m) (md_company_id m) (md_status m)
    (md_created_at m) (md_updated_at m) (md_upload_progress m)
    (md_chunks_received m) (md_total_chunks m) (Some v) (md_error m)
    (md_stalled_at m) (md_allow_cleanup m) (md_cleanup_performed m) (md_cleaned_at m).

Definition with_error (v : string) (m : Metadata) : Metadata :=
  mkMetadata (md_id m) (md_filename m) (md_owner_id m) (md_company_id m) (md_status m)
    (md_created_at m) (md_updated_at m) (md_upload_progress m)
    (md_chunks_received m) (md_total_chunks m) (md_output_path m) (Some v)
    (md_stalled_at m) (md_allow_cleanup m) (md_cleanup_performed m) (md_cleaned_at m).

Definition with_stalled_at (v : string) (m : Metadata) : Metadata :=
  mkMetadata (md_id m) (md_filename m) (md_owner_id m) (md_company_id m) (md_status m)
    (md_created_at m) (md_updated_at m) (md_upload_progress m)
    (md_chunks_received m) (md_total_chunks m) (md_output_path m) (md_error m)
    (Some v) (md_allow_cleanup m) (md_cleanup_performed m) (md_cleaned_at m).

Definition with_cleanup_performed (v : bool) (m : Metadata) : Metadata :=
  mkMetadata (md_id m) (md_filename m) (md_owner_id m) (md_company_id m) (md_status m)
    (md_created_at m) (md_updated_at m) (md_upload_progress m)
    (md_chunks_received m) (md_total_chunks m) (md_output_path m) (md_error m)
    (md_stalled_at m) (md_allow_cleanup m) v (md_cleaned_at m).

Definition with_cleaned_at (v : string) (m : Metadata) : Metadata :=
  mkMetadata (md_id m) (md_filename m) (md_owner_id m) (md_company_id m) (md_status m)
    (md_created_at m) (md_updated_at m) (md_upload_progress m)
    (md_chunks_received m) (md_total_chunks m) (md_output_path m) (md_error m)
    (md_stalled_at m) (md_allow_cleanup m) (md_cleanup_performed m) (Some v).

(** The two file trees (buckets) and the metadata documents: a path is
    mapped to the bytes of the file.  [directories] belongs to the local
    backend: the directories it made or left behind that may hold no
    file, written from the storage base ([raw/videos/v/chunks]).  A
    directory that holds a file shows through the file. *)
Record World : Type := mkWorld {
  raw_files : gmap string (list byte);
  processed_files : gmap string (list byte);
  metadata_docs : gmap string Metadata;
  directories : gset string
}.

Definition set_raw (f : gmap string (list byte) → gmap string (list byte))
    (w : World) : World :=
  mkWorld (f (raw_files w)) (processed_files w) (metadata_docs w) (directories w).

Definition set_processed (f : gmap string (list byte) → gmap string (list byte))
    (w : World) : World :=
  mkWorld (raw_files w) (f (processed_files w)) (metadata_docs w) (directories w).

Definition set_metadata (f : gmap string Metadata → gmap string Metadata)
    (w : World) : World :=
  mkWorld (raw_files w) (processed_files w) (f (metadata_docs w)) (directories w).

Definition set_directories (f : gset string → gset string) (w : World) : World :=
  mkWorld (raw_files w) (processed_files w) (metadata_docs w) (f (directories w)).

(** [videos/{video_id}/chunks/chunk_{chunk_index}] *)
Definition chunk_path (video_id : string) (chunk_index : Z) : string :=
  "videos/" +:+ video_id +:+ "/chunks/chunk_" +:+ str_int chunk_index.

(** The bytes of chunk [i] in the raw tree ([b""] when there is none). *)
Definition chunk_bytes (w : World) (video_id : string) (i : Z) : list byte :=
  default [] (raw_files w !! chunk_path video_id i).

(* ================================================================== *)
(** * Storage backends: [local_service.py] and [gcs_service.py] *)
(* ================================================================== *)

Inductive Backend : Type := LocalBackend | GCSBackend.

(** Operations both backends implement the same way on this state.  Faults
    of the host (a full disk, a lost connection), which the source turns
    into [StorageError], are not represented: on this state a read or a
    write of a file goes through. *)
Module BackendCommon.

(** [path.startswith("videos/") and "/processed/" in path] *)
Definition routes_to_processed (path : string) : bool :=
  String.prefix "videos/" path && contains "/processed/" path.

Definition save_metadata (video_id : string) (metadata : Metadata) : M World unit :=
  λ w, (set_metadata (insert video_id metadata) w, Ok tt).

Definition get_metadata (video_id : string) : M World (option Metadata) :=
  λ w, (w, Ok (metadata_docs w !! video_id)).

(** The file is written at [path] as it is given: a path where no file
    can be written (a directory, or a place below a regular file) is a
    fault like the host's. *)
Definition save_file (path : string) (content : list byte) : M World unit :=
  λ w, if routes_to_processed path
       then (set_processed (insert path content) w, Ok tt)
       else (set_raw (insert path content) w, Ok tt).

End BackendCommon.

(** ** Paths and directories of the local backend

    The local backend resolves a path on the host's file system, below
    [storage/raw] or [storage/processed]; the cloud backend takes a path
    as the name of an object, as it is written. *)

(** [k] lies inside the directory [dir]. *)
Definition under (dir k : string) : bool := String.prefix (dir +:+ "/") k.

(** The tree a path is routed to. *)
Definition tree_of (path : string) (w : World) : gmap string (list byte) :=
  if BackendCommon.routes_to_processed path then processed_files w else raw_files w.

Definition set_tree_of (path : string)
    (f : gmap string (list byte) → gmap string (list byte)) (w : World) : World :=
  if BackendCommon.routes_to_processed path then set_processed f w else set_raw f w.

(** The directory of that tree, [raw] or [processed], below the storage
    base. *)
Definition base_of (path : string) : string :=
  if BackendCommon.routes_to_processed path then "processed" else "raw".

(** Some file of the tree lies inside [dir]: this is how a directory with
    content shows.  Paths are taken as they are written: two spellings of
    one file are two keys. *)
Definition has_entries (dir : string) (files : gmap string (list byte)) : bool :=
  bool_decide (filter (λ kv, under dir kv.1 = true) files ≠ ∅).

(** [os.path.isdir] below [base]: a file lies inside [path], or [path] is
    one of the directories of the state, or lies above one. *)
Definition is_directory (base : string) (files : gmap string (list byte))
    (path : string) (w : World) : bool :=
  has_entries path files
  || bool_decide
       (filter (λ d, bool_decide (d = base +:+ "/" +:+ path)
                     || under (base +:+ "/" +:+ path) d = true)
          (directories w) ≠ ∅).

(** A regular file stands where a directory above [path] would be. *)
Definition file_above (files : gmap string (list byte)) (path : string) : bool :=
  bool_decide (filter (λ kv, under kv.1 path = true) files ≠ ∅).

(** The components of a path: the texts between its ['/']s. *)
Fixpoint components_from (cur path : string) : list string :=
  match path with
  | EmptyString => [cur]
  | String c r =>
      if Ascii.eqb c "/" then cur :: components_from "" r
      else components_from (cur +:+ String c "") r
  end.

Definition components (path : string) : list string := components_from "" path.

(** A component the file system takes as a name: not empty, not [.] or
    [..], without a NUL character. *)
Definition plain_component (c : string) : bool :=
  negb (bool_decide (c = "")) && negb (bool_decide (c = "."))
  && negb (bool_decide (c = "..")) && negb (contains (String Ascii.zero "") c).

(** A path in its normal spelling: relative, every component a name, no
    ['/'] at the end.  [pathlib] and the operating system resolve other
    spellings ([videos//v], [videos/v/], [a/../b], an absolute path) to a
    file that a differently written path names too; on normal paths, on
    a file system that tells upper from lower case and has no links,
    different texts are different files. *)
Definition normal_path (path : string) : bool :=
  forallb plain_component (components path).

(** The directory a path lies in, when it is not the tree itself. *)
Definition parent (path : string) : option string :=
  if has_slash path then Some (dirname path) else None.

(** Every path of the state is in its normal spelling. *)
Definition normal_world (w : World) : Prop :=
  map_Forall (λ k _, normal_path k = true) (raw_files w)
  ∧ map_Forall (λ k _, normal_path k = true) (processed_files w)
  ∧ set_Forall (λ d, normal_path d = true) (directories w).

(** The directory [path] was in stays when [path] goes. *)
Definition keep_parent (base path : string) (dirs : gset string) : gset string :=
  match parent path with
  | Some dir => {[ base +:+ "/" +:+ dir ]} ∪ dirs
  | None => dirs
  end.

Module LocalService.

Export BackendCommon.

(** [os.makedirs(os.path.dirname(full_output_path), exist_ok=True)]: it
    raises when a regular file stands in the place of a directory above
    the output.  The directories it makes are not written down: the
    output is opened next, and either that creates a file inside them or
    the output is a directory, and they were there before. *)
Definition makedirs_above (output_path : string) : M World unit :=
  λ w, if file_above (raw_files w) output_path
       then raise (Exception "Not a directory") w
       else (w, Ok tt).

(** [open(full_output_path, "wb")]: the file is created, or truncated; on
    a directory [open] raises.  The text of the operating system's
    message is not reproduced. *)
Definition open_wb (output_path : string) : M World unit :=
  λ w, if is_directory "raw" (raw_files w) output_path w
       then raise (Exception "Is a directory") w
       else (set_raw (insert output_path []) w, Ok tt).

(** [output_file.write(data)]: append to the open output file.  Python
    buffers what is written until the file is closed, at the end of the
    [with] block or when an exception leaves it; here a write lands at
    once.  The two agree as long as the output is not read back while it
    is open, that is, as long as it is not one of the chunk files. *)
Definition write (output_path : string) (data : list byte) : M World unit :=
  λ w, (set_raw (insert output_path (default [] (raw_files w !! output_path) ++ data)) w,
        Ok tt).

(** The body of [for i in range(total_chunks)].  A directory in the place
    of a chunk passes the [os.path.exists] test and fails in [open]. *)
Fixpoint combine_loop (video_id output_path : string) (indices : list Z)
    : M World unit :=
  match indices with
  | [] => ret tt
  | i :: rest =>
      λ w, match raw_files w !! chunk_path video_id i with
           | None =>
               if is_directory "raw" (raw_files w) (chunk_path video_id i) w
               then raise (Exception "Is a directory") w
               else raise (StorageError "combine_chunks"
                             ("Chunk " +:+ str_int i +:+ " not found")) w
           | Some data =>
               (write output_path data ;;
                combine_loop video_id output_path rest) w
           end
  end.

Definition combine_chunks (video_id : string) (total_chunks : Z)
    (output_path : string) : M World unit :=
  try_except
    (makedirs_above output_path ;;
     open_wb output_path ;;
     combine_loop video_id output_path (range total_chunks))
    (λ e, raise (StorageError "combine_chunks"
                   ("Failed to combine chunks: " +:+ str e))).

(** [os.makedirs(full_path, exist_ok=True)]: it raises when [path], or a
    directory above it, is a regular file. *)
Definition create_directory (path : string) : M World unit :=
  try_except
    (λ w, if bool_decide (is_Some (tree_of path w !! path))
             || file_above (tree_of path w) path
          then raise (Exception "File exists") w
          else (set_directories (λ dirs, {[ base_of path +:+ "/" +:+ path ]} ∪ dirs) w,
                Ok tt))
    (λ e, raise (StorageError "create_directory"
                   ("Failed to create directory: " +:+ str e))).

End LocalService.

Module GCSService.

Export BackendCommon.

(** The loop that checks each chunk blob and collects it. *)
Fixpoint collect_chunk_blobs (video_id : string) (indices : list Z)
    (chunk_blobs : list string) : M World (list string) :=
  match indices with
  | [] => ret chunk_blobs
  | i :: rest =>
      λ w, match raw_files w !! chunk_path video_id i with
           | None =>
               raise (StorageError "combine_chunks"
                        ("Chunk " +:+ str_int i +:+ " not found")) w
           | Some _ =>
               collect_chunk_blobs video_id rest
                 (chunk_blobs ++ [chunk_path video_id i]) w
           end
  end.

(** [composer.compose(chunk_blobs, output_blob)]: the object store's
    compose operation, the concatenation of the source objects. *)
Definition compose (chunk_blobs : list string) (output_path : string)
    : M World unit :=
  λ w, (set_raw (insert output_path
                   (concat ((λ p, default [] (raw_files w !! p)) <$> chunk_blobs))) w,
        Ok tt).

(** [storage.Composer(self.client)], with [storage] the module
    [google.cloud.storage]: the module has no [Composer] (composing is the
    method [Blob.compose]), so the attribute lookup raises
    [AttributeError]. *)
Definition Composer : M World unit :=
  raise (Exception "module 'google.cloud.storage' has no attribute 'Composer'").

Definition combine_chunks (video_id : string) (total_chunks : Z)
    (output_path : string) : M World unit :=
  try_except
    (Composer ;;
     let* chunk_blobs := collect_chunk_blobs video_id (range total_chunks) [] in
     compose chunk_blobs output_path)
    (λ e, raise (StorageError "combine_chunks"
                   ("Failed to combine chunks in GCS: " +:+ str e))).

(** The object store has no directories: [pass]. *)
Definition create_directory (path : string) : M World unit := ret tt.

End GCSService.

(** [self.storage], chosen once by [settings.DEV_MODE]. *)
Definition backend_combine_chunks (b : Backend) :=
  match b with
  | LocalBackend => LocalService.combine_chunks
  | GCSBackend => GCSService.combine_chunks
  end.

Definition backend_create_directory (b : Backend) : string → M World unit :=
  match b with
  | LocalBackend => LocalService.create_directory
  | GCSBackend => GCSService.create_directory
  end.

(* ================================================================== *)
(** * The storage facade: [storage_service.py] *)
(* ================================================================== *)

Record UploadTicket : Type := mkUploadTicket {
  ticket_video_id : string;
  ticket_upload_url : string;
  ticket_expiration : string
}.

Record ChunkResult : Type := mkChunkResult {
  res_video_id : string;
  res_chunk_index : Z;
  res_total_chunks : Z;
  res_progress : Q;
  res_status : option string
}.

Record FinalizeResult : Type := mkFinalizeResult {
  fin_video_id : string;
  fin_status : string;
  fin_output_path : string
}.

Module StorageService.

(** [a / b] on two [int]s. *)
Definition true_div {S} (a b : Z) : M S Q :=
  if bool_decide (b = 0) then raise ZeroDivisionError
  else ret (Float64.div a b).

Section WithBackend.

(** [self.storage] *)
Variable storage : Backend.

Definition get_video_metadata (video_id : string) : M World Metadata :=
  try_except
    (let* metadata := BackendCommon.get_metadata video_id in
     match metadata with
     | None => raise (VideoNotFoundError video_id)
     | Some metadata => ret metadata
     end)
    (λ e, match e with
          | VideoNotFoundError _ => raise e
          | _ => raise (VideoNotFoundError video_id)
          end).

Definition create_directory (path : string) : M World unit :=
  try_except
    (backend_create_directory storage path)
    (λ e, raise (StorageError "create_directory"
                   ("Failed to create directory: " +:+ str e))).

(** [video_id] stands for the fresh [uuid.uuid4()]. *)
Definition initialize_upload (now video_id : string) (filename : string)
    (user_id company_id : option string) : M World UploadTicket :=
  try_except
    (let metadata :=
       mkMetadata video_id filename user_id company_id "pending" now now
         0%Q 0 0 None None None false false None in
     BackendCommon.save_metadata video_id metadata ;;
     let video_path := "videos/" +:+ video_id in
     let chunks_path := video_path +:+ "/chunks" in
     create_directory video_path ;;
     create_directory chunks_path ;;
     ret (mkUploadTicket video_id "/api/v1/upload/chunk" now))
    (λ e, raise (StorageError "initialize_upload"
                   ("Failed to initialize upload: " +:+ str e))).

Definition upload_chunk (now : string) (video_id : string)
    (chunk_index total_chunks : Z) (chunk_data : list byte)
    (user_id : option string) : M World ChunkResult :=
  try_except
    (let* metadata := get_video_metadata video_id in
     raise_if (truthy user_id
               && negb (bool_decide (md_owner_id metadata = user_id)))
       (UploadError "User does not have permission to upload to this video") ;;
     let metadata :=
       if bool_decide (md_total_chunks metadata = 0)
       then with_total_chunks total_chunks metadata
       else metadata in
     raise_if (bool_decide (total_chunks ≤ chunk_index))
       (UploadError ("Chunk index " +:+ str_int chunk_index
                     +:+ " exceeds total chunks " +:+ str_int total_chunks)) ;;
     raise_if (negb (bool_decide (md_total_chunks metadata = total_chunks)))
       (UploadError ("Total chunks mismatch: expected "
                     +:+ str_int (md_total_chunks metadata)
                     +:+ ", got " +:+ str_int total_chunks)) ;;
     BackendCommon.save_file (chunk_path video_id chunk_index) chunk_data ;;
     let metadata :=
       with_chunks_received (md_chunks_received metadata + 1) metadata in
     let* fraction := true_div (md_chunks_received metadata) total_chunks in
     let metadata := with_upload_progress (Float64.mul fraction 100) metadata in
     let metadata := with_updated_at now metadata in
     BackendCommon.save_metadata video_id metadata ;;
     ret (mkChunkResult video_id chunk_index total_chunks
            (md_upload_progress metadata) None))
    (λ e, match e with
          | VideoNotFoundError _ => raise e
          | _ => raise (UploadError ("Failed to upload chunk: " +:+ str e))
          end).

Definition finalize_upload (now : string) (video_id : string)
    (user_id : option string) : M World FinalizeResult :=
  try_except
    (let* metadata := get_video_metadata video_id in
     raise_if (truthy user_id
               && negb (bool_decide (md_owner_id metadata = user_id)))
       (UploadError "User does not have permission to finalize this upload") ;;
     raise_if (negb (bool_decide
                       (md_chunks_received metadata = md_total_chunks metadata)))
       (let missing := md_total_chunks metadata - md_chunks_received metadata in
        UploadError ("Cannot finalize upload: " +:+ str_int missing
                     +:+ " chunks are missing")) ;;
     let output_path :=
       "videos/" +:+ video_id +:+ "/" +:+ basename (md_filename metadata) in
     backend_combine_chunks storage video_id (md_total_chunks metadata)
       output_path ;;
     let metadata := with_status "uploaded" metadata in
     let metadata := with_output_path output_path metadata in
     let metadata := with_updated_at now metadata in
     BackendCommon.save_metadata video_id metadata ;;
     ret (mkFinalizeResult video_id "uploaded" output_path))
    (λ e, match e with
          | VideoNotFoundError _ => raise e
          | _ => raise (UploadError ("Failed to finalize upload: " +:+ str e))
          end).

End WithBackend.

End StorageService.

(* ================================================================== *)
(** * The chunk endpoint: [api/endpoints/upload.py] *)
(* ================================================================== *)

(** [background_tasks.add_task(video_processor.process_video, ...)] *)
Record BackgroundTask : Type := mkProcessVideo {
  task_video_id : string;
  task_user_id : option string;
  task_company_id : option string
}.

(** What [check_upload_permission] hands over: [company_user["user"]["id"]]
    and [company_user["company"]["id"]]. *)
Record CompanyUser : Type := mkCompanyUser {
  cu_user_id : option string;
  cu_company_id : option string
}.

Module UploadEndpoint.

(** The response, and the tasks added to [background_tasks]. *)
Definition upload_chunk (now : string) (file : list byte) (video_id : string)
    (chunk_index total_chunks : Z) (company_user : CompanyUser)
    : M World (ChunkResult * list BackgroundTask) :=
  try_except
    (let chunk_data := file in
     let* result :=
       StorageService.upload_chunk now video_id chunk_index total_chunks
         chunk_data (cu_user_id company_user) in
     if bool_decide (chunk_index = total_chunks - 1)
     then ret (mkChunkResult (res_video_id result) (res_chunk_index result)
                 (res_total_chunks result) (res_progress result)
                 (Some "processing_started"),
               [mkProcessVideo video_id (cu_user_id company_user)
                  (cu_company_id company_user)])
     else ret (result, []))
    (λ e, match e with
          | HTTPException _ _ => raise e
          | _ => raise (HTTPException 500 "Error uploading chunk")
          end).

End UploadEndpoint.

(** A client's sequence of chunk uploads for one video: each call is made
    on the state the previous one left, whatever its outcome. *)
Record ChunkCall : Type := mkChunkCall {
  call_now : string;
  call_chunk_index : Z;
  call_total_chunks : Z;
  call_chunk_data : list byte;
  call_user_id : option string
}.

Definition run_call (video_id : string) (c : ChunkCall) : M World ChunkResult :=
  StorageService.upload_chunk (call_now c) video_id (call_chunk_index c)
    (call_total_chunks c) (call_chunk_data c) (call_user_id c).

Definition accepted (video_id : string) (c : ChunkCall) (w : World) : bool :=
  match run_call video_id c w with
  | (_, Ok _) => true
  | (_, Raise _) => false
  end.

Fixpoint run_uploads (video_id : string) (calls : list ChunkCall) (w : World)
    : World :=
  match calls with
  | [] => w
  | c :: rest => run_uploads video_id rest (run_call video_id c w).1
  end.

(** The indices of the calls of a sequence that were accepted, in order. *)
Fixpoint accepted_indices (video_id : string) (calls : list ChunkCall) (w : World)
    : list Z :=
  match calls with
  | [] => []
  | c :: rest =>
      (if accepted video_id c w then [call_chunk_index c] else [])
      ++ accepted_indices video_id rest (run_call video_id c w).1
  end.

(** [chunks_received] of a stored record ([0] when there is none). *)
Definition stored_chunks_received (video_id : string) (w : World) : Z :=
  match metadata_docs w !! video_id with
  | Some metadata => md_chunks_received metadata
  | None => 0
  end.

Definition stored_total_chunks (video_id : string) (w : World) : Z :=
  match metadata_docs w !! video_id with
  | Some metadata => md_total_chunks metadata
  | None => 0
  end.

(** The file kept under [path], looked up in the tree [save_file] routes
    the path to. *)
Definition stored_file (path : string) (w : World) : option (list byte) :=
  if BackendCommon.routes_to_processed path
  then processed_files w !! path
  else raw_files w !! path.

(** The path [finalize_upload] composes into. *)
Definition composed_path (video_id filename : string) : string :=
  "videos/" +:+ video_id +:+ "/" +:+ basename filename.

(** Concrete states used in the examples below. *)
Module Scenario.

Definition empty_world : World := mkWorld ∅ ∅ ∅ ∅.

(** A record as [initialize_upload] creates it: video ["v"], file
    ["foo.mp4"], owner ["alice"]. *)
Definition alice_video : World :=
  (StorageService.initialize_upload LocalBackend "2024-05-01T10:00:00" "v"
     "foo.mp4" (Some "alice") (Some "acme") empty_world).1.

(** Chunk [i] of [n], one byte long, sent by [user_id]. *)
Definition chunk_call (i n : Z) (b : byte) (user_id : option string)
    : ChunkCall :=
  mkChunkCall "2024-05-01T10:00:05" i n [b] user_id.

Definition alice : option string := Some "alice".

(** Only [chunk_0] of two chunks has arrived. *)
Definition one_of_two : World :=
  run_uploads "v" [chunk_call 0 2 x01 alice] alice_video.

(** Both chunks of two have arrived. *)
Definition two_of_two : World :=
  run_uploads "v" [chunk_call 1 2 x02 alice; chunk_call 0 2 x01 alice]
    alice_video.

End Scenario.

(** The tasks an endpoint call scheduled (none when it failed). *)
Definition scheduled_tasks
    (out : World * result (ChunkResult * list BackgroundTask))
    : list BackgroundTask :=
  match out.2 with
  | Ok (_, tasks) => tasks
  | Raise _ => []
  end.

(* ================================================================== *)
(** * Number formatting and text lines *)
(* ================================================================== *)

Module Fmt.

(** ["\n"] *)
Definition newline : string := String "010" EmptyString.

(** [s.rjust(width, "0")] *)
Definition zero_pad (width : nat) (s : string) : string :=
  String.concat "" (replicate (width - String.length s) "0") +:+ s.

(** [f"{q:.{digits}f}"] *)
Definition format_fixed (digits : nat) (q : Q) : string :=
  let unit := 10 ^ Z.of_nat digits in
  let scaled := round_half_even (Qabs q * inject_Z unit) in
  (if Qlt_le_dec q 0 then "-" else "")
  +:+ str_int (scaled / unit) +:+ "."
  +:+ zero_pad digits (str_int (scaled mod unit)).

(** [math.ceil(x)] *)
Definition ceil (q : Q) : Z := Qceiling q.

(** [max(xs)]: the first largest element; raises on the empty sequence. *)
Fixpoint max_from (best : Q) (rest : list Q) : Q :=
  match rest with
  | [] => best
  | x :: rest' =>
      if Qlt_le_dec best x then max_from x rest' else max_from best rest'
  end.

Definition py_max (xs : list Q) : result Q :=
  match xs with
  | [] => Raise (ValueError "max() arg is an empty sequence")
  | x :: rest => Ok (max_from x rest)
  end.

(** [text.split("\n")] *)
Fixpoint split_lines (text : string) : list string :=
  match text with
  | EmptyString => [EmptyString]
  | String c rest =>
      if Ascii.eqb c "010"
      then EmptyString :: split_lines rest
      else match split_lines rest with
           | [] => [String c EmptyString]
           | l :: ls => String c l :: ls
           end
  end.

Fixpoint has_newline (s : string) : bool :=
  match s with
  | EmptyString => false
  | String c r => Ascii.eqb c "010" || has_newline r
  end.

(** Reading a run of decimal digits: the number read so far and the rest. *)
Definition digit_value (c : ascii) : option N :=
  let code := N_of_ascii c in
  if (48 <=? code)%N && (code <=? 57)%N then Some (code - 48)%N else None.

Fixpoint read_digits (acc : N) (s : string) : N :=
  match s with
  | EmptyString => acc
  | String c r =>
      match digit_value c with
      | Some d => read_digits (acc * 10 + d) r
      | None => acc
      end
  end.

(** The text does not start with a digit: a number printed before it
    ends there. *)
Definition stops_digits (s : string) : Prop :=
  match s with
  | EmptyString => True
  | String c _ => digit_value c = None
  end.

(** The integer a text starts with (an optional [-], then digits). *)
Definition read_int (s : string) : Z :=
  match s with
  | String "-" r => - Z.of_N (read_digits 0 r)
  | _ => Z.of_N (read_digits 0 s)
  end.

(** [s] without the leading [p], when it starts with [p]. *)
Fixpoint strip_prefix (p s : string) : option string :=
  match p, s with
  | EmptyString, _ => Some s
  | String a p', String b s' =>
      if Ascii.eqb a b then strip_prefix p' s' else None
  | String _ _, EmptyString => None
  end.

End Fmt.

Export Fmt.

(* ================================================================== *)
(** * The manifest generator: [manifest_generator.py] *)
(* ================================================================== *)

(** One entry of [variant_playlists]. *)
Record Variant : Type := mkVariant {
  var_bandwidth : Z;
  var_resolution : string;
  var_name : string
}.

(** One HLS segment descriptor. *)
Record HlsSegment : Type := mkHlsSegment {
  seg_filename : string;
  seg_duration : Q;
  seg_index : Z
}.

(** One DASH segment descriptor; [start] and [duration] in milliseconds. *)
Record DashSegment : Type := mkDashSegment {
  dseg_index : Z;
  dseg_start : Z;
  dseg_duration : Z
}.

(** One entry of [adaptation_sets]; [segment_timeline] may be absent and
    [start_number] is read with [.get("start_number", 1)]. *)
Record Adaptation : Type := mkAdaptation {
  ad_id : string;
  ad_mime_type : string;
  ad_codecs : string;
  ad_width : Z;
  ad_height : Z;
  ad_bandwidth : Z;
  ad_segment_timeline : option (list DashSegment);
  ad_start_number : option Z
}.

(** An [xml.etree.ElementTree] element: tag, attributes in insertion
    order, children in insertion order. *)
#[warnings="-register-all"]
Inductive Element : Type :=
| Elem (tag : string) (attrib : list (string * string)) (children : list Element).

Definition elem_tag (e : Element) : string := let 'Elem t _ _ := e in t.
Definition elem_attrib (e : Element) : list (string * string) :=
  let 'Elem _ a _ := e in a.
Definition elem_children (e : Element) : list Element := let 'Elem _ _ c := e in c.

(** [e.get(key)] *)
Fixpoint attrib_get (key : string) (attrib : list (string * string))
    : option string :=
  match attrib with
  | [] => None
  | (k, v) :: rest => if String.eqb k key then Some v else attrib_get key rest
  end.

Definition elem_get (key : string) (e : Element) : option string :=
  attrib_get key (elem_attrib e).

(** [e.findall(tag)]: the children with this tag, in document order. *)
Definition elem_findall (tag : string) (e : Element) : list Element :=
  filter (λ c, elem_tag c = tag) (elem_children e).

Module ManifestGenerator.

(** [settings.DASH_SEGMENT_DURATION] *)
Definition DASH_SEGMENT_DURATION : Z := 4.

Definition stream_inf (variant : Variant) : string :=
  "#EXT-X-STREAM-INF:BANDWIDTH=" +:+ str_int (var_bandwidth variant)
  +:+ ",RESOLUTION=" +:+ var_resolution variant.

Definition generate_hls_master_playlist (variant_playlists : list Variant)
    : string :=
  let lines := ["#EXTM3U"; "#EXT-X-VERSION:3"] in
  let lines :=
    foldl (λ lines variant,
             (lines ++ [stream_inf variant]) ++ [var_name variant +:+ ".m3u8"])
      lines variant_playlists in
  join newline lines.

Definition extinf (segment : HlsSegment) : string :=
  "#EXTINF:" +:+ format_fixed 6 (seg_duration segment) +:+ ",".

(** The loop [for segment in segments] of both HLS playlist generators. *)
Definition add_segments (lines : list string) (segments : list HlsSegment)
    : list string :=
  foldl (λ lines segment, (lines ++ [extinf segment]) ++ [seg_filename segment])
    lines segments.

Definition generate_hls_variant_playlist (segments : list HlsSegment)
    : result string :=
  match py_max (seg_duration <$> segments) with
  | Raise e => Raise e
  | Ok max_duration =>
      let target_duration := ceil max_duration in
      let lines := ["#EXTM3U"; "#EXT-X-VERSION:3";
                    "#EXT-X-TARGETDURATION:" +:+ str_int target_duration;
                    "#EXT-X-MEDIA-SEQUENCE:0"] in
      let lines := add_segments lines segments in
      let lines := lines ++ ["#EXT-X-ENDLIST"] in
      Ok (join newline lines)
  end.

Definition generate_hls_live_playlist (segments : list HlsSegment)
    (sequence_no : Z) : result string :=
  match py_max (seg_duration <$> segments) with
  | Raise e => Raise e
  | Ok max_duration =>
      let target_duration := ceil max_duration in
      let lines := ["#EXTM3U"; "#EXT-X-VERSION:3";
                    "#EXT-X-TARGETDURATION:" +:+ str_int target_duration;
                    "#EXT-X-MEDIA-SEQUENCE:" +:+ str_int sequence_no] in
      let lines := add_segments lines segments in
      Ok (join newline lines)
  end.

(** The [S] element of one timeline entry. *)
Definition timeline_S (segment : DashSegment) : Element :=
  Elem "S" [("t", str_int (dseg_start segment));
            ("d", str_int (dseg_duration segment))] [].

(** The [AdaptationSet] element built in the body of
    [for adaptation in adaptation_sets]. *)
Definition adaptation_set (adaptation : Adaptation) : Element :=
  let template_attrib :=
    [("initialization", ad_id adaptation +:+ "/init.mp4");
     ("media", ad_id adaptation +:+ "/segment-$Number$.m4s");
     ("timescale", "1000");
     ("startNumber", "1")] in
  let segment_template :=
    match ad_segment_timeline adaptation with
    | Some timeline =>
        Elem "SegmentTemplate" template_attrib
          [Elem "SegmentTimeline" [] (timeline_S <$> timeline)]
    | None =>
        Elem "SegmentTemplate"
          (template_attrib
           ++ [("duration", str_int (DASH_SEGMENT_DURATION * 1000))]) []
    end in
  let representation :=
    Elem "Representation"
      [("id", ad_id adaptation);
       ("width", str_int (ad_width adaptation));
       ("height", str_int (ad_height adaptation));
       ("bandwidth", str_int (ad_bandwidth adaptation))]
      [segment_template] in
  Elem "AdaptationSet"
    [("id", ad_id adaptation);
     ("mimeType", ad_mime_type adaptation);
     ("codecs", ad_codecs adaptation);
     ("startWithSAP", "1")]
    [representation].

(** The element tree [generate_dash_mpd] builds; the function then hands
    it to [ET.tostring] and [minidom] for printing. *)
Definition generate_dash_mpd (adaptation_sets : list Adaptation) (duration : Q)
    : Element :=
  let period_children :=
    foldl (λ children adaptation, children ++ [adaptation_set adaptation])
      [] adaptation_sets in
  Elem "MPD"
    [("xmlns", "urn:mpeg:dash:schema:mpd:2011");
     ("profiles", "urn:mpeg:dash:profile:isoff-live:2011");
     ("type", "static");
     ("minBufferTime", "PT2S");
     ("mediaPresentationDuration", "PT" +:+ format_fixed 3 duration +:+ "S")]
    [Elem "Period" [("id", "1"); ("start", "PT0S")] period_children].

End ManifestGenerator.

(** ** Reading a manifest back *)

(** The [BANDWIDTH] value of an [#EXT-X-STREAM-INF] line. *)
Definition stream_inf_bandwidth (line : string) : option Z :=
  read_int <$> strip_prefix "#EXT-X-STREAM-INF:BANDWIDTH=" line.

(** The [BANDWIDTH] values a master playlist lists, in the order of its
    lines. *)
Definition listed_bandwidths (playlist : string) : list Z :=
  omap stream_inf_bandwidth (split_lines playlist).

(** [e.findall("a/b/c")]: the descendants reached through children with
    these tags, in document order. *)
Definition elem_findall_path (tags : list string) (e : Element) : list Element :=
  foldl (λ found tag, concat (elem_findall tag <$> found)) [e] tags.

(** The [AdaptationSet] elements of an MPD and the [bandwidth] each one's
    [Representation] carries, in document order. *)
Definition mpd_adaptation_sets (mpd : Element) : list Element :=
  elem_findall_path ["Period"; "AdaptationSet"] mpd.

Definition mpd_bandwidths (mpd : Element) : list (list (option string)) :=
  (λ a, elem_get "bandwidth" <$> elem_findall "Representation" a)
  <$> mpd_adaptation_sets mpd.

(** The [(t, d)] attributes of the [S] elements of one [AdaptationSet]. *)
Definition adaptation_timeline (a : Element)
    : list (option string * option string) :=
  (λ s, (elem_get "t" s, elem_get "d" s))
  <$> elem_findall_path
        ["Representation"; "SegmentTemplate"; "SegmentTimeline"; "S"] a.

(* ================================================================== *)
(** * Building the manifest inputs: [adaptive_streaming.py] *)
(* ================================================================== *)

(** One entry of [settings.VIDEO_QUALITY_PROFILES]. *)
Record Profile : Type := mkProfile {
  prof_resolution : string;
  prof_bitrate : string;
  prof_audio_bitrate : string
}.

(** [segments_info]: both dictionaries, keyed by quality. *)
Record SegmentsInfo : Type := mkSegmentsInfo {
  hls_segments : list (string * list HlsSegment);
  dash_segments : list (string * list DashSegment)
}.

Module AdaptiveStreamingService.

(** The default ladder of [config.py], in the order it is written. *)
Definition VIDEO_QUALITY_PROFILES : list (string * Profile) :=
  [("240p", mkProfile "426x240" "300k" "64k");
   ("360p", mkProfile "640x360" "800k" "96k");
   ("480p", mkProfile "854x480" "1400k" "128k");
   ("720p", mkProfile "1280x720" "2800k" "128k");
   ("1080p", mkProfile "1920x1080" "5000k" "192k")].

(** [s.replace("k", "000")] *)
Fixpoint replace_k (s : string) : string :=
  match s with
  | EmptyString => EmptyString
  | String c r =>
      if Ascii.eqb c "k" then "000" +:+ replace_k r else String c (replace_k r)
  end.

Fixpoint all_digits (s : string) : bool :=
  match s with
  | EmptyString => true
  | String c r => bool_decide (is_Some (digit_value c)) && all_digits r
  end.

(** [int(s)] for a decimal literal with an optional sign; any other text
    is a [ValueError]. *)
Definition py_int (s : string) : result Z :=
  let digits := match s with
                | String "-" r => r
                | String "+" r => r
                | _ => s
                end in
  match digits with
  | EmptyString =>
      Raise (ValueError ("invalid literal for int() with base 10: " +:+ s))
  | _ =>
      if all_digits digits
      then Ok (match s with
               | String "+" r => read_int r
               | _ => read_int s
               end)
      else Raise (ValueError ("invalid literal for int() with base 10: " +:+ s))
  end.

(** [s.split("x")] *)
Fixpoint split_x (s : string) : list string :=
  match s with
  | EmptyString => [EmptyString]
  | String c rest =>
      if Ascii.eqb c "x"
      then EmptyString :: split_x rest
      else match split_x rest with
           | [] => [String c EmptyString]
           | l :: ls => String c l :: ls
           end
  end.

(** [width, height = resolution.split("x")] *)
Definition unpack_resolution (resolution : string) : result (string * string) :=
  match split_x resolution with
  | [width; height] => Ok (width, height)
  | _ => Raise (ValueError "wrong number of values to unpack")
  end.

(** The first loop of [generate_manifests]: the list handed to
    [generate_master_playlist]. *)
Fixpoint hls_variants_loop (profiles : list (string * Profile))
    (segments_info : SegmentsInfo) (hls_variants : list Variant)
    : result (list Variant) :=
  match profiles with
  | [] => Ok hls_variants
  | (quality, profile) :: rest =>
      if bool_decide (quality ∈ (hls_segments segments_info).*1)
      then
        match unpack_resolution (prof_resolution profile) with
        | Raise e => Raise e
        | Ok _ =>
            match py_int (replace_k (prof_bitrate profile)) with
            | Raise e => Raise e
            | Ok bandwidth =>
                hls_variants_loop rest segments_info
                  (hls_variants
                   ++ [mkVariant bandwidth (prof_resolution profile) quality])
            end
        end
      else hls_variants_loop rest segments_info hls_variants
  end.

Definition hls_variants (profiles : list (string * Profile))
    (segments_info : SegmentsInfo) : result (list Variant) :=
  hls_variants_loop profiles segments_info [].

(** [segments_info["dash_segments"][quality]] *)
Fixpoint dict_get {A} (key : string) (d : list (string * A)) : option A :=
  match d with
  | [] => None
  | (k, v) :: rest => if String.eqb k key then Some v else dict_get key rest
  end.

(** The third loop of [generate_manifests]: the list handed to
    [generate_mpd]. *)
Fixpoint dash_adaptation_sets_loop (profiles : list (string * Profile))
    (segments_info : SegmentsInfo) (dash_adaptation_sets : list Adaptation)
    : result (list Adaptation) :=
  match profiles with
  | [] => Ok dash_adaptation_sets
  | (quality, profile) :: rest =>
      if bool_decide (quality ∈ (dash_segments segments_info).*1)
      then
        match unpack_resolution (prof_resolution profile) with
        | Raise e => Raise e
        | Ok (width, height) =>
            match py_int width with
            | Raise e => Raise e
            | Ok width =>
                match py_int height with
                | Raise e => Raise e
                | Ok height =>
                    match py_int (replace_k (prof_bitrate profile)) with
                    | Raise e => Raise e
                    | Ok bandwidth =>
                        dash_adaptation_sets_loop rest segments_info
                          (dash_adaptation_sets
                           ++ [mkAdaptation ("video_" +:+ quality) "video/mp4"
                                 "avc1.64001f" width height bandwidth
                                 (dict_get quality (dash_segments segments_info))
                                 None])
                    end
                end
            end
        end
      else dash_adaptation_sets_loop rest segments_info dash_adaptation_sets
  end.

Definition dash_adaptation_sets (profiles : list (string * Profile))
    (segments_info : SegmentsInfo) : result (list Adaptation) :=
  dash_adaptation_sets_loop profiles segments_info [].

End AdaptiveStreamingService.

(* ================================================================== *)
(** * The DASH segment scan of the transcoder: [transcoder.py] *)
(* ================================================================== *)

(** What [ffprobe] answered for one segment file. *)
Inductive Probe : Type :=
| ProbeFailed                  (* non-zero return code *)
| ProbeNotANumber              (* [float(...)] raised [ValueError] *)
| ProbeSeconds (seconds : Q).  (* the decimal number it printed *)

(** What the [ffmpeg] run left behind: its return code and error text, the
    numbers [N] for which [segment-N.m4s] exists in the output directory,
    and the probe of each. *)
Record DashRun : Type := mkDashRun {
  run_returncode : Z;
  run_stderr : string;
  run_segment_files : gset Z;
  run_probe : Z → Probe
}.

Module Transcoder.

(** [int(x)] on a float: truncation toward zero. *)
Definition int_of_float (q : Q) : Z :=
  if Qlt_le_dec q 0 then Qceiling q else Qfloor q.

Definition probed_duration (run : DashRun) (segment_duration segment_index : Z)
    : Z :=
  match run_probe run segment_index with
  | ProbeFailed => segment_duration * 1000
  | ProbeNotANumber => segment_duration * 1000
  | ProbeSeconds seconds =>
      let duration_seconds := Float64.of_decimal seconds in
      int_of_float (Float64.mul duration_seconds 1000)
  end.

(** The [while True] loop; [fuel] bounds the number of iterations. *)
Fixpoint scan_segments (fuel : nat) (run : DashRun) (segment_duration : Z)
    (segment_index start_time : Z) (segments : list DashSegment)
    : option (list DashSegment) :=
  match fuel with
  | O => None
  | S fuel' =>
      if bool_decide (segment_index ∈ run_segment_files run)
      then
        let duration := probed_duration run segment_duration segment_index in
        scan_segments fuel' run segment_duration
          (segment_index + 1) (start_time + duration)
          (segments ++ [mkDashSegment segment_index start_time duration])
      else Some segments
  end.

(** [_transcode_for_dash], after the [ffmpeg] process has ended. *)
Definition _transcode_for_dash (fuel : nat) (run : DashRun)
    (segment_duration : Z) : option (result (list DashSegment)) :=
  if bool_decide (run_returncode run = 0)
  then Ok <$> scan_segments fuel run segment_duration 1 0 []
  else Some (Raise (VideoProcessingError "transcode_dash"
               ("Failed to transcode for DASH: "
                +:+ str (VideoProcessingError "transcode_dash"
                           ("FFmpeg error: " +:+ run_stderr run))))).

End Transcoder.

(** A timeline that starts at segment number [i] and time [t] and in which
    every segment starts where the previous one ended. *)
Fixpoint contiguous_from (i t : Z) (segments : list DashSegment) : Prop :=
  match segments with
  | [] => True
  | s :: rest =>
      dseg_index s = i ∧ dseg_start s = t
      ∧ contiguous_from (i + 1) (t + dseg_duration s) rest
  end.

(** The two lines the master playlist holds for one variant. *)
Definition master_entry (variant : Variant) : list string :=
  [ManifestGenerator.stream_inf variant; var_name variant +:+ ".m3u8"].

(** A variant whose texts fit on their playlist lines: no line break in its
    resolution or name, and a playlist file name that is not itself a
    stream line. *)
Definition plain_variant (variant : Variant) : Prop :=
  has_newline (var_resolution variant) = false
  ∧ has_newline (var_name variant) = false
  ∧ stream_inf_bandwidth (var_name variant +:+ ".m3u8") = None.

(** Concrete manifest inputs used in the examples below. *)
Module ManifestScenario.

Definition v240 : Variant := mkVariant 300000 "426x240" "240p".
Definition v360 : Variant := mkVariant 800000 "640x360" "360p".

Definition a240 : Adaptation :=
  mkAdaptation "video_240p" "video/mp4" "avc1.64001f" 426 240 300000 None None.
Definition a360 : Adaptation :=
  mkAdaptation "video_360p" "video/mp4" "avc1.64001f" 640 360 800000 None None.

(** A ladder configured from the highest quality down. *)
Definition descending_ladder : list (string * Profile) :=
  [("360p", mkProfile "640x360" "800k" "96k");
   ("240p", mkProfile "426x240" "300k" "64k")].

(** Both qualities were transcoded, for both formats. *)
Definition two_qualities : SegmentsInfo :=
  mkSegmentsInfo
    [("240p", [mkHlsSegment "segment_000.ts" 6 0]);
     ("360p", [mkHlsSegment "segment_000.ts" 6 0])]
    [("240p", [mkDashSegment 1 0 4000]); ("360p", [mkDashSegment 1 0 4000])].

(** Segment durations 6.0, 6.0 and 5.42 seconds. *)
Definition three_segments : list HlsSegment :=
  [mkHlsSegment "segment_000.ts" 6 0;
   mkHlsSegment "segment_001.ts" 6 1;
   mkHlsSegment "segment_002.ts" (Float64.of_decimal (542 # 100)) 2].

End ManifestScenario.

(** The two lines a variant playlist holds for one segment. *)
Definition segment_entry (segment : HlsSegment) : list string :=
  [ManifestGenerator.extinf segment; seg_filename segment].

(** Concrete transcoder runs used in the examples below. *)
Module TranscoderScenario.

(** Three segment files; the probe reports 4 s, 4 s and 2.5 s. *)
Definition three_files : DashRun :=
  mkDashRun 0 "" {[1; 2; 3]}
    (λ n, if bool_decide (n = 3) then ProbeSeconds (25 # 10)
          else ProbeSeconds 4).

(** Two segment files; the probe reports a duration below one
    millisecond for the first one and fails on the second. *)
Definition empty_first_segment : DashRun :=
  mkDashRun 0 "" {[1; 2]}
    (λ n, if bool_decide (n = 1) then ProbeSeconds (4 # 10000)
          else ProbeFailed).

End TranscoderScenario.

(* ================================================================== *)
(** * The cleanup worker: [workers/cleanup_worker.py] *)
(* ================================================================== *)

(** What the worker reaches through [self.storage_service] and
    [self.django_client], over a store [S].  A storage operation may raise;
    [update_video_metadata] of the Django client catches every exception
    itself and answers with a boolean. *)
Record Services (S : Type) : Type := mkServices {
  svc_list_videos : list (string * string) → Z → Z → M S (list Metadata);
  svc_get_video_metadata : string → M S Metadata;
  svc_save_metadata : string → Metadata → M S unit;
  svc_delete_directory : string → M S unit;
  svc_delete_metadata : string → M S unit;
  svc_update_video_metadata : string → list (string * string) → S → S * bool
}.
Arguments svc_list_videos {S} _ _ _ _.
Arguments svc_get_video_metadata {S} _ _.
Arguments svc_save_metadata {S} _ _ _.
Arguments svc_delete_directory {S} _ _.
Arguments svc_delete_metadata {S} _ _.
Arguments svc_update_video_metadata {S} _ _ _.

Module CleanupWorker.

Section WithServices.

Context {S : Type} (svc : Services S).

Definition cleanup_failed_processing (now video_id : string) : M S unit :=
  try_except
    (let* metadata := svc_get_video_metadata svc video_id in
     if negb (String.eqb (md_status metadata) "error")
     then ret tt
     else
       let hls_path := "videos/" +:+ video_id +:+ "/hls" in
       let dash_path := "videos/" +:+ video_id +:+ "/dash" in
       svc_delete_directory svc hls_path ;;
       svc_delete_directory svc dash_path ;;
       let metadata := with_cleanup_performed true metadata in
       let metadata := with_cleaned_at now metadata in
       svc_save_metadata svc video_id metadata)
    (λ e, ret tt).

Definition cleanup_video (video_id : string) : M S unit :=
  try_except
    (let video_path := "videos/" +:+ video_id in
     svc_delete_directory svc video_path ;;
     svc_delete_metadata svc video_id)
    (λ e, raise (StorageError "cleanup_video"
                   ("Failed to clean up video: " +:+ str e))).

(** The loop [for video in videos] of [cleanup_expired_content];
    [a > b] on strings is [String.ltb b a]. *)
Fixpoint expired_loop (expiration_str : string) (videos : list Metadata)
    (cleaned_videos : list string) : M S (list string) :=
  match videos with
  | [] => ret cleaned_videos
  | video :: rest =>
      if String.ltb expiration_str (md_created_at video)
      then expired_loop expiration_str rest cleaned_videos
      else if negb (md_allow_cleanup video)
      then expired_loop expiration_str rest cleaned_videos
      else
        let video_id := md_id video in
        cleanup_video video_id ;;
        expired_loop expiration_str rest (cleaned_videos ++ [video_id])
  end.

(** [expiration_str] is [(utcnow() - timedelta(days=expiration_days))]
    in ISO format. *)
Definition cleanup_expired_content (expiration_str : string)
    : M S (list string) :=
  try_except
    (let* videos := svc_list_videos svc [] 0 1000 in
     expired_loop expiration_str videos [])
    (λ e, raise (StorageError "cleanup_expired"
                   ("Failed to clean up expired content: " +:+ str e))).

Definition stalled_message (stall_hours : Z) : string :=
  "Processing stalled for over " +:+ str_int stall_hours +:+ " hours".

(** The loop [for video in videos] of [recover_stalled_processing]. *)
Fixpoint stalled_loop (now stall_str : string) (stall_hours : Z)
    (videos : list Metadata) (recovered_videos : list string)
    : M S (list string) :=
  match videos with
  | [] => ret recovered_videos
  | video :: rest =>
      if String.ltb stall_str (md_updated_at video)
      then stalled_loop now stall_str stall_hours rest recovered_videos
      else
        let video_id := md_id video in
        let* metadata := svc_get_video_metadata svc video_id in
        let metadata := with_status "error" metadata in
        let metadata := with_error (stalled_message stall_hours) metadata in
        let metadata := with_stalled_at now metadata in
        svc_save_metadata svc video_id metadata ;;
        cleanup_failed_processing now video_id ;;
        (λ s, let '(s', _) :=
                svc_update_video_metadata svc video_id
                  [("status", "error");
                   ("error", stalled_message stall_hours)] s in
              (s', Ok tt)) ;;
        stalled_loop now stall_str stall_hours rest
          (recovered_videos ++ [video_id])
  end.

(** [stall_str] is [(utcnow() - timedelta(hours=stall_hours))] in ISO
    format. *)
Definition recover_stalled_processing (now stall_str : string)
    (stall_hours : Z) : M S (list string) :=
  try_except
    (let* videos := svc_list_videos svc [("status", "processing")] 0 100 in
     stalled_loop now stall_str stall_hours videos [])
    (λ e, raise (StorageError "recover_stalled"
                   ("Failed to recover stalled processing: " +:+ str e))).

End WithServices.

End CleanupWorker.

(** An in-memory stand-in for the services, for the examples below: the
    documents in listing order, the directories that cannot be removed and
    the ids whose document cannot be written. *)
Module TestServices.

Record State : Type := mkState {
  st_docs : list Metadata;
  st_locked_dirs : list string;
  st_readonly_ids : list string
}.

Definition find_doc (video_id : string) (docs : list Metadata)
    : option Metadata :=
  snd <$> list_find (λ m, md_id m = video_id) docs.

Definition services : Services State :=
  mkServices State
    (λ _ _ _ s, (s, Ok (st_docs s)))
    (λ video_id s,
       match find_doc video_id (st_docs s) with
       | Some metadata => (s, Ok metadata)
       | None => (s, Raise (VideoNotFoundError video_id))
       end)
    (λ video_id metadata s,
       if bool_decide (video_id ∈ st_readonly_ids s)
       then (s, Raise (StorageError "save_metadata"
                         "Failed to save metadata: Permission denied"))
       else (mkState
               ((λ m, if bool_decide (md_id m = video_id) then metadata else m)
                <$> st_docs s)
               (st_locked_dirs s) (st_readonly_ids s),
             Ok tt))
    (λ path s,
       if bool_decide (path ∈ st_locked_dirs s)
       then (s, Raise (StorageError "delete_directory"
                         "Failed to delete directory: Permission denied"))
       else (s, Ok tt))
    (λ video_id s,
       (mkState (filter (λ m, md_id m ≠ video_id) (st_docs s))
          (st_locked_dirs s) (st_readonly_ids s),
        Ok tt))
    (λ _ _ s, (s, true)).

(** A record created on [created], last updated on [updated]. *)
Definition doc (video_id status created updated : string) (allow_cleanup : bool)
    : Metadata :=
  mkMetadata video_id "foo.mp4" (Some "alice") (Some "acme") status created
    updated 100 2 2 (Some ("videos/" +:+ video_id +:+ "/foo.mp4")) None None
    allow_cleanup false None.

(** Two expired records that may be cleaned up, listed newest first as
    [list_videos] does; the directory of the first cannot be removed. *)
Definition two_expired : State :=
  mkState [doc "a" "ready" "2024-01-02T00:00:00" "2024-01-02T01:00:00" true;
           doc "b" "ready" "2024-01-01T00:00:00" "2024-01-01T01:00:00" true]
    ["videos/a"] [].

(** Two records stuck in processing, listed newest first; the document of
    the first cannot be written. *)
Definition two_stalled : State :=
  mkState [doc "a" "processing" "2024-05-01T00:30:00" "2024-05-01T01:00:00" false;
           doc "b" "processing" "2024-05-01T00:00:00" "2024-05-01T02:00:00" false]
    [] ["a"].

End TestServices.

(* ================================================================== *)
(** * More of the backends: reading, deleting, addressing files *)
(* ================================================================== *)

Module LocalFiles.

(** A directory passes the [os.path.exists] test and fails in [open]; the
    text of the operating system's message is not reproduced. *)
Definition get_file (path : string) : M World (list byte) :=
  try_except
    (λ w, match tree_of path w !! path with
          | None =>
              if is_directory (base_of path) (tree_of path w) path w
              then raise (Exception "Is a directory") w
              else raise (StorageError "get_file" ("File not found: " +:+ path)) w
          | Some content => (w, Ok content)
          end)
    (λ e, raise (StorageError "get_file" ("Failed to get file: " +:+ str e))).

(** [os.path.exists(full_path) and os.path.isfile(full_path)] *)
Definition file_exists (path : string) : M World bool :=
  λ w, (w, Ok (bool_decide (is_Some (tree_of path w !! path)))).

(** [os.remove] on a directory raises, and the function turns that into a
    [StorageError]; the text of the operating system's message is not
    reproduced.  The directory the file was in stays. *)
Definition delete_file (path : string) : M World unit :=
  try_except
    (λ w, match tree_of path w !! path with
          | Some _ =>
              (set_directories (keep_parent (base_of path) path)
                 (set_tree_of path (delete path) w),
               Ok tt)
          | None =>
              if has_entries path (tree_of path w)
              then raise (Exception "Is a directory") w
              else (w, Ok tt)
          end)
    (λ e, raise (StorageError "delete_file" ("Failed to delete file: " +:+ str e))).

(** The directories of the state that are not [path] and do not lie
    inside it. *)
Definition directories_outside (base path : string) (dirs : gset string)
    : gset string :=
  filter (λ d, bool_decide (d = base +:+ "/" +:+ path)
               || under (base +:+ "/" +:+ path) d = false) dirs.

(** [shutil.rmtree] on a regular file raises, and the function turns that
    into a [StorageError].  On a directory it removes what lies inside
    and the directory; the directory above it stays. *)
Definition delete_directory (path : string) : M World unit :=
  try_except
    (λ w, match tree_of path w !! path with
          | Some _ => raise (Exception "Not a directory") w
          | None =>
              if is_directory (base_of path) (tree_of path w) path w
              then (set_directories
                      (λ dirs, keep_parent (base_of path) path
                                 (directories_outside (base_of path) path dirs))
                      (set_tree_of path (filter (λ kv, under path kv.1 = false)) w),
                    Ok tt)
              else (w, Ok tt)
          end)
    (λ e, raise (StorageError "delete_directory"
                   ("Failed to delete directory: " +:+ str e))).

Definition delete_metadata (video_id : string) : M World unit :=
  λ w, (set_metadata (delete video_id) w, Ok tt).


End LocalFiles.

Module GCSFiles.

(** The object name of a metadata document, in the raw bucket. *)
Definition metadata_blob (video_id : string) : string :=
  "metadata/" +:+ video_id +:+ ".json".

(** [bucket.list_blobs(prefix=path)] and [blob.delete()] on each: every
    object whose name starts with [path] goes; in the raw bucket the
    metadata documents are objects too. *)
Definition delete_directory (path : string) : M World unit :=
  λ w, if BackendCommon.routes_to_processed path
       then (set_processed (filter (λ kv, String.prefix path kv.1 = false)) w,
             Ok tt)
       else (mkWorld
               (filter (λ kv, String.prefix path kv.1 = false) (raw_files w))
               (processed_files w)
               (filter (λ kv, String.prefix path (metadata_blob kv.1) = false)
                  (metadata_docs w))
               (directories w),
             Ok tt).

Definition delete_metadata (video_id : string) : M World unit :=
  λ w, (set_metadata (delete video_id) w, Ok tt).

End GCSFiles.

Definition backend_delete_directory (b : Backend) : string → M World unit :=
  match b with
  | LocalBackend => LocalFiles.delete_directory
  | GCSBackend => GCSFiles.delete_directory
  end.

Definition backend_delete_metadata (b : Backend) : string → M World unit :=
  match b with
  | LocalBackend => LocalFiles.delete_metadata
  | GCSBackend => GCSFiles.delete_metadata
  end.

(* ================================================================== *)
(** * More of the facade: status, cancelling, manifest addresses *)
(* ================================================================== *)

Record UploadStatus : Type := mkUploadStatus {
  us_video_id : string;
  us_status : string;
  us_progress : Q;
  us_chunks_received : Z;
  us_total_chunks : Z
}.

Module StorageFacade.

(** [if user_id and metadata["owner_id"] != user_id] *)
Definition other_user (user_id : option string) (metadata : Metadata) : bool :=
  truthy user_id && negb (bool_decide (md_owner_id metadata = user_id)).

Definition get_upload_status (video_id : string) (user_id : option string)
    : M World UploadStatus :=
  try_except
    (let* metadata := StorageService.get_video_metadata video_id in
     raise_if (other_user user_id metadata) (VideoNotFoundError video_id) ;;
     ret (mkUploadStatus video_id (md_status metadata)
            (md_upload_progress metadata) (md_chunks_received metadata)
            (md_total_chunks metadata)))
    (λ e, match e with
          | VideoNotFoundError _ => raise e
          | _ => raise (VideoNotFoundError video_id)
          end).

Section WithBackend.

(** [self.storage] *)
Variable storage : Backend.

(** The result is the dictionary [{"video_id": ..., "status": "deleted"}]. *)
Definition cancel_upload (video_id : string) (user_id : option string)
    : M World (string * string) :=
  try_except
    (let* metadata := StorageService.get_video_metadata video_id in
     raise_if (other_user user_id metadata) (VideoNotFoundError video_id) ;;
     let video_path := "videos/" +:+ video_id in
     backend_delete_directory storage video_path ;;
     backend_delete_metadata storage video_id ;;
     ret (video_id, "deleted"))
    (λ e, match e with
          | VideoNotFoundError _ => raise e
          | _ => raise (StorageError "cancel_upload"
                          ("Failed to cancel upload: " +:+ str e))
          end).

End WithBackend.




End StorageFacade.
(* ================================================================== *)
(** * More of the facade and of the upload routes *)
(* ================================================================== *)

Module StorageFacadeDelete.

Section WithBackend.

(** [self.storage] *)
Variable storage : Backend.

Definition delete_video (video_id : string) (user_id : option string)
    : M World unit :=
  try_except
    (let* metadata := StorageService.get_video_metadata video_id in
     raise_if (StorageFacade.other_user user_id metadata)
       (VideoNotFoundError video_id) ;;
     let video_path := "videos/" +:+ video_id in
     backend_delete_directory storage video_path ;;
     backend_delete_metadata storage video_id)
    (λ e, match e with
          | VideoNotFoundError _ => raise e
          | _ => raise (StorageError "delete_video"
                          ("Failed to delete video: " +:+ str e))
          end).

End WithBackend.

End StorageFacadeDelete.

(** How a route handler ends: it returns, it raises an exception of the
    service or of the framework, or its own handler fails on a local name
    that has no value yet. *)
Inductive outcome (A : Type) : Type :=
  | Returned (a : A)
  | Raised (e : exn)
  | RaisedUnboundLocalError (name : string).

Arguments Returned {A} a.
Arguments Raised {A} e.
Arguments RaisedUnboundLocalError {A} name.

Module UploadRoutes.

(** The handler assigns the facade's answer to a local [status], so the
    name is local in the whole body and hides the imported module
    [status]; the [except Exception] branch reads
    [status.HTTP_500_INTERNAL_SERVER_ERROR], which is reached only when
    the assignment did not happen. *)
Definition get_upload_status (video_id : string) (company_user : CompanyUser)
    : World → World * outcome UploadStatus :=
  λ w, match StorageFacade.get_upload_status video_id
               (cu_user_id company_user) w with
       | (w', Ok status) => (w', Returned status)
       | (w', Raise (HTTPException code detail)) =>
           (w', Raised (HTTPException code detail))
       | (w', Raise _) => (w', RaisedUnboundLocalError "status")
       end.

Section WithBackend.

(** [storage_service.storage] *)
Variable storage : Backend.

(** The answer is built from the request, not from the facade's result. *)
Definition cancel_upload (video_id : string) (company_user : CompanyUser)
    : M World (string * string) :=
  try_except
    (StorageFacade.cancel_upload storage video_id (cu_user_id company_user) ;;
     ret ("deleted", video_id))
    (λ e, match e with
          | HTTPException _ _ => raise e
          | _ => raise (HTTPException 500 "Error canceling upload")
          end).

End WithBackend.

End UploadRoutes.

(* ================================================================== *)
(** * Listing videos: [list_videos] and [_matches_filters] *)
(* ================================================================== *)

(** The Python values that reach a filter: [None], a string, or a
    dictionary of strings. *)
Inductive value : Type :=
| VNone
| VStr (s : string)
| VDict (items : list (string * string)).

#[global] Instance value_eq_dec : EqDecision value.
Proof. solve_decision. Defined.

(** [bool(v)] *)
Definition value_truthy (v : value) : bool :=
  match v with
  | VNone => false
  | VStr EmptyString => false
  | VStr _ => true
  | VDict [] => false
  | VDict _ => true
  end.

(** The keys of a record that hold a string or [None]; filters are taken
    over these.  Every record written by [initialize_upload] has them. *)
Inductive FilterKey : Type :=
| KId | KFilename | KStatus | KCreatedAt | KUpdatedAt | KOwnerId | KCompanyId.

#[global] Instance FilterKey_eq_dec : EqDecision FilterKey.
Proof. solve_decision. Defined.

Definition key_name (k : FilterKey) : string :=
  match k with
  | KId => "id"
  | KFilename => "filename"
  | KStatus => "status"
  | KCreatedAt => "created_at"
  | KUpdatedAt => "updated_at"
  | KOwnerId => "owner_id"
  | KCompanyId => "company_id"
  end.

Definition of_optional (x : option string) : value :=
  match x with
  | Some s => VStr s
  | None => VNone
  end.

(** [metadata[key]] *)
Definition md_get (k : FilterKey) (metadata : Metadata) : value :=
  match k with
  | KId => VStr (md_id metadata)
  | KFilename => VStr (md_filename metadata)
  | KStatus => VStr (md_status metadata)
  | KCreatedAt => VStr (md_created_at metadata)
  | KUpdatedAt => VStr (md_updated_at metadata)
  | KOwnerId => of_optional (md_owner_id metadata)
  | KCompanyId => of_optional (md_company_id metadata)
  end.

(** A filter dictionary, in the order of its keys. *)
Definition Filters : Type := list (FilterKey * value).

(** [d[k] = v] *)
Fixpoint dict_set (k : FilterKey) (v : value) (d : Filters) : Filters :=
  match d with
  | [] => [(k, v)]
  | (k', v') :: rest =>
      if bool_decide (k' = k) then (k, v) :: rest
      else (k', v') :: dict_set k v rest
  end.

(** [videos[lo:hi]] *)
Definition slice_index (i len : Z) : Z :=
  if bool_decide (i < 0) then Z.max (i + len) 0 else Z.min i len.

Definition py_slice {A} (lo hi : Z) (l : list A) : list A :=
  let len := Z.of_nat (length l) in
  let lo' := slice_index lo len in
  let hi' := slice_index hi len in
  take (Z.to_nat (hi' - lo')) (drop (Z.to_nat lo') l).

(** [videos.sort(key=lambda v: v.get("created_at", ""), reverse=True)]:
    the sort is stable, so records with the same [created_at] keep the
    order they had.  Strings are compared character by character. *)
Fixpoint insert_newest_first (video : Metadata) (sorted : list Metadata)
    : list Metadata :=
  match sorted with
  | [] => [video]
  | other :: rest =>
      if String.ltb (md_created_at video) (md_created_at other)
      then other :: insert_newest_first video rest
      else video :: other :: rest
  end.

Definition sort_newest_first (videos : list Metadata) : list Metadata :=
  foldr insert_newest_first [] videos.

Module BackendListing.

Definition _matches_filters (metadata : Metadata) (filters : Filters) : bool :=
  forallb (λ kv, bool_decide (md_get kv.1 metadata = kv.2)) filters.

(** [listing] is what [os.listdir(self.metadata_dir)] (or [list_blobs])
    gives: the ids of the metadata files, in the order the directory
    lists them.  A file that cannot be read is skipped. *)
Definition list_videos (listing : list string) (filters : Filters)
    (skip limit : Z) : M World (list Metadata) :=
  try_except
    (λ w,
       let videos :=
         omap (λ video_id,
                 match metadata_docs w !! video_id with
                 | Some metadata =>
                     if _matches_filters metadata filters
                     then Some metadata else None
                 | None => None
                 end) listing in
       let videos := sort_newest_first videos in
       (w, Ok (py_slice skip (skip + limit) videos)))
    (λ e, raise (StorageError "list_videos"
                   ("Failed to list videos: " +:+ str e))).

End BackendListing.

(** [a] is at least as new as [b]. *)
Definition not_older (a b : Metadata) : Prop :=
  String.ltb (md_created_at a) (md_created_at b) = false.

(** The listed records that match, in listing order. *)
Definition matching (listing : list string) (filters : Filters) (w : World)
    : list Metadata :=
  omap (λ video_id,
          match metadata_docs w !! video_id with
          | Some metadata =>
              if BackendListing._matches_filters metadata filters
              then Some metadata else None
          | None => None
          end) listing.

Module FacadeListing.

(** [filters or {}] *)
Definition or_empty (filters : option Filters) : Filters :=
  match filters with
  | Some (entry :: rest) => entry :: rest
  | _ => []
  end.

(** [user_id] is whatever the caller passes first. *)
Definition list_videos (listing : list string) (user_id : value)
    (skip limit : Z) (filters : option Filters) : M World (list Metadata) :=
  try_except
    (let filter_dict := or_empty filters in
     let filter_dict :=
       if value_truthy user_id then dict_set KOwnerId user_id filter_dict
       else filter_dict in
     BackendListing.list_videos listing filter_dict skip limit)
    (λ e, raise (StorageError "list_videos"
                   ("Failed to list videos: " +:+ str e))).

End FacadeListing.

(** The cleanup worker's [self.storage_service] is the facade
    [StorageService]: its calls [list_videos(d, 0, n)] hand the dictionary
    [d] over as [user_id], and the facade has no [save_metadata],
    [delete_directory] or [delete_metadata], so these attribute look-ups
    raise [AttributeError]. *)
Module WorkerServices.

Definition no_attribute (name : string) : exn :=
  Exception ("'StorageService' object has no attribute '" +:+ name +:+ "'").

Section WithEnvironment.

(** The directory listing, and the call to the Django backend. *)
Variable listing : list string.
Variable update_video_metadata :
  string → list (string * string) → World → World * bool.

Definition services : Services World :=
  mkServices World
    (λ d skip limit,
       FacadeListing.list_videos listing (VDict d) skip limit None)
    StorageService.get_video_metadata
    (λ _ _, raise (no_attribute "save_metadata"))
    (λ _, raise (no_attribute "delete_directory"))
    (λ _, raise (no_attribute "delete_metadata"))
    update_video_metadata.

End WithEnvironment.

End WorkerServices.

(** States and services for the examples of the sweeps. *)
Module SweepScenario.

(** Two expired records that may be cleaned up, and their ids as the
    metadata directory lists them. *)
Definition expired_world : World :=
  mkWorld ∅ ∅
    {[ "a" := TestServices.doc "a" "ready" "2024-01-02T00:00:00"
                "2024-01-02T01:00:00" true;
       "b" := TestServices.doc "b" "ready" "2024-01-01T00:00:00"
                "2024-01-01T01:00:00" true ]}
    ∅.

(** Two records stuck in processing since the morning. *)
Definition stalled_world : World :=
  mkWorld ∅ ∅
    {[ "a" := TestServices.doc "a" "processing" "2024-05-01T00:30:00"
                "2024-05-01T01:00:00" false;
       "b" := TestServices.doc "b" "processing" "2024-05-01T00:00:00"
                "2024-05-01T02:00:00" false ]}
    ∅.

(** The worker as it is wired: on the facade, with the metadata directory
    listing both ids and a Django backend that answers. *)
Definition worker_services : Services World :=
  WorkerServices.services ["a"; "b"] (λ _ _ w, (w, true)).

End SweepScenario.

(* ================================================================== *)
(** * The HLS segment scan of the transcoder, and reading a playlist *)
(* ================================================================== *)

(** What the [ffmpeg] run for HLS left behind: its return code and error
    text, the names of the files in the output directory, and the probe of
    each. *)
Record HlsRun : Type := mkHlsRun {
  hrun_returncode : Z;
  hrun_stderr : string;
  hrun_files : gset string;
  hrun_probe : string → Probe
}.

Module TranscoderHls.

(** [f"segment_{segment_index:03d}.ts"], for an index that is not
    negative. *)
Definition segment_name (segment_index : Z) : string :=
  "segment_" +:+ zero_pad 3 (str_int segment_index) +:+ ".ts".

(** The duration in seconds: what the probe printed, or the target
    duration when the probe failed. *)
Definition probed_seconds (run : HlsRun) (segment_duration : Z)
    (filename : string) : Q :=
  match hrun_probe run filename with
  | ProbeFailed => inject_Z segment_duration
  | ProbeNotANumber => inject_Z segment_duration
  | ProbeSeconds seconds => Float64.of_decimal seconds
  end.

(** The [while True] loop; [fuel] bounds the number of iterations. *)
Fixpoint scan_segments (fuel : nat) (run : HlsRun) (segment_duration : Z)
    (segment_index : Z) (segments : list HlsSegment)
    : option (list HlsSegment) :=
  match fuel with
  | O => None
  | S fuel' =>
      let filename := segment_name segment_index in
      if bool_decide (filename ∈ hrun_files run)
      then
        let duration := probed_seconds run segment_duration filename in
        scan_segments fuel' run segment_duration (segment_index + 1)
          (segments ++ [mkHlsSegment filename duration segment_index])
      else Some segments
  end.

(** [_transcode_for_hls], after the [ffmpeg] process has ended. *)
Definition _transcode_for_hls (fuel : nat) (run : HlsRun)
    (segment_duration : Z) : option (result (list HlsSegment)) :=
  if bool_decide (hrun_returncode run = 0)
  then Ok <$> scan_segments fuel run segment_duration 0 []
  else Some (Raise (VideoProcessingError "transcode_hls"
               ("Failed to transcode for HLS: "
                +:+ str (VideoProcessingError "transcode_hls"
                           ("FFmpeg error: " +:+ hrun_stderr run))))).

End TranscoderHls.

(** An ASCII letter. *)
Definition is_ascii_letter (c : ascii) : bool :=
  let code := N_of_ascii c in
  ((65 <=? code)%N && (code <=? 90)%N) || ((97 <=? code)%N && (code <=? 122)%N).

(** A playlist line that is a tag or a comment. *)
Definition is_tag (line : string) : bool := String.prefix "#" line.

(** The lines of a playlist a player fetches: those that are neither
    empty nor tags. *)
Definition uri_lines (text : string) : list string :=
  filter (λ line, line ≠ "" ∧ is_tag line = false) (split_lines text).

(** A segment whose file name fits on a playlist line of its own. *)
Definition plain_segment (segment : HlsSegment) : Prop :=
  has_newline (seg_filename segment) = false
  ∧ seg_filename segment ≠ ""
  ∧ is_tag (seg_filename segment) = false.

(** The numbers [first], [first + 1], ..., [count] of them. *)
Definition numbers_from (first : Z) (count : nat) : list Z :=
  (λ k, first + Z.of_nat k) <$> seq 0 count.

Module HlsScenario.

(** Two segment files and a stray third one after a gap. *)
Definition two_and_a_stray : HlsRun :=
  mkHlsRun 0 ""
    {["segment_000.ts"; "segment_001.ts"; "segment_003.ts"; "playlist.m3u8"]}
    (λ name, if String.eqb name "segment_001.ts" then ProbeSeconds (25 # 10)
             else ProbeFailed).

End HlsScenario.


(* ================================================================== *)
(** * Properties *)
(* ================================================================== *)

Ltac run_M :=
  unfold try_except, Py.bind, raise_if, Py.raise, Py.ret in *; simpl in *.

(** ** Strings and paths *)

Section Paths.

Lemma string_app_cons a (s t : string) : String a s +:+ t = String a (s +:+ t).
Proof. reflexivity. Qed.

Lemma string_app_nil (t : string) : "" +:+ t = t.
Proof. reflexivity. Qed.

Lemma string_app_assoc (s t u : string) : (s +:+ t) +:+ u = s +:+ t +:+ u.
Proof.
  induction s as [|c s IH]; [by rewrite !string_app_nil|].
  by rewrite !string_app_cons, IH.
Qed.

Lemma string_app_empty_r (s : string) : s +:+ "" = s.
Proof.
  induction s as [|c s IH]; [done|]. by rewrite string_app_cons, IH.
Qed.

Lemma has_slash_app (s t : string) :
  has_slash (s +:+ t) = has_slash s || has_slash t.
Proof.
  induction s as [|a s IH]; [done|].
  rewrite string_app_cons. simpl. rewrite IH. by rewrite orb_assoc.
Qed.

Lemma string_app_snoc (pre : string) c (r : string) :
  pre +:+ String c r = (pre +:+ String c "") +:+ r.
Proof.
  induction pre as [|a pre IH]; [done|].
  rewrite !string_app_cons. by rewrite IH.
Qed.

Lemma basename_from_no_slash cur p :
  (∃ pre, cur = pre +:+ p ∧ has_slash pre = false) →
  has_slash (basename_from cur p) = false.
Proof.
  revert cur.
  induction p as [|c r IH]; intros cur (pre & -> & Hpre); simpl.
  - rewrite has_slash_app, Hpre. done.
  - destruct (Ascii.eqb c "/") eqn:Hc.
    + apply IH. by exists "".
    + apply IH. exists (pre +:+ String c "").
      split; [apply string_app_snoc|].
      rewrite has_slash_app, Hpre. simpl. by rewrite Hc.
Qed.

Lemma basename_no_slash p : has_slash (basename p) = false.
Proof. apply basename_from_no_slash. by exists "". Qed.

(** The composed file never lands on a chunk of the same video. *)
Lemma output_path_not_chunk video_id filename i :
  "videos/" +:+ video_id +:+ "/" +:+ basename filename ≠ chunk_path video_id i.
Proof.
  unfold chunk_path. intros H.
  apply (inj (String.app "videos/")) in H.
  apply (inj (String.app video_id)) in H.
  change ("/chunks/chunk_" +:+ str_int i)
    with ("/" +:+ ("chunks/chunk_" +:+ str_int i)) in H.
  apply (inj (String.app "/")) in H.
  pose proof (basename_no_slash filename) as Hb.
  rewrite H in Hb. discriminate.
Qed.

End Paths.

(** ** The backends' compose step *)

Section Compose.

Implicit Types (w : World) (video_id output_path : string).

Lemma world_eq w1 w2 :
  raw_files w1 = raw_files w2 →
  processed_files w1 = processed_files w2 →
  metadata_docs w1 = metadata_docs w2 →
  directories w1 = directories w2 →
  w1 = w2.
Proof. destruct w1, w2; simpl; congruence. Qed.

Lemma range_elem (n i : Z) : i ∈ range n ↔ 0 ≤ i < n.
Proof.
  unfold range. rewrite list_elem_of_fmap. split.
  - intros (k & -> & Hk). apply elem_of_seq in Hk. lia.
  - intros ?. exists (Z.to_nat i). split; [lia|]. apply elem_of_seq. lia.
Qed.

(** [range n] is [0, 1, ..., n-1], in this order. *)
Lemma range_lookup (n : Z) (k : nat) :
  (k < Z.to_nat n)%nat → range n !! k = Some (Z.of_nat k).
Proof.
  intros Hk. unfold range. rewrite list_lookup_fmap.
  rewrite lookup_seq_lt by done. done.
Qed.

Lemma local_combine_loop_ok video_id output_path indices w cur :
  raw_files w !! output_path = Some cur →
  (∀ i, i ∈ indices → is_Some (raw_files w !! chunk_path video_id i)) →
  (∀ i, i ∈ indices → output_path ≠ chunk_path video_id i) →
  LocalService.combine_loop video_id output_path indices w =
    (set_raw (insert output_path
                (cur ++ concat (chunk_bytes w video_id <$> indices))) w,
     Ok tt).
Proof.
  revert w cur.
  induction indices as [|i rest IH]; intros w cur Hcur Hex Hne; simpl.
  - unfold Py.ret. f_equal. apply world_eq; simpl; try done.
    rewrite app_nil_r. by rewrite insert_id.
  - destruct (Hex i) as [d Hd]; [set_solver|].
    rewrite Hd. unfold Py.bind, LocalService.write. simpl. rewrite Hcur. simpl.
    erewrite IH; cycle 1.
    + simpl. apply lookup_insert_eq.
    + intros j Hj. simpl. rewrite lookup_insert_ne by (apply Hne; set_solver).
      apply Hex. set_solver.
    + intros j Hj. apply Hne. set_solver.
    + f_equal. apply world_eq; simpl; try done.
      rewrite insert_insert_eq. f_equal.
      rewrite <- app_assoc. f_equal.
      unfold chunk_bytes at 2. rewrite Hd. simpl. f_equal. f_equal.
      apply list_fmap_ext. intros k j Hj. unfold chunk_bytes. simpl.
      rewrite lookup_insert_ne; [done|].
      apply Hne. apply list_elem_of_lookup_2 in Hj. set_solver.
Qed.

Lemma local_combine_chunks_ok video_id total_chunks output_path w :
  (∀ i, 0 ≤ i < total_chunks →
        is_Some (raw_files w !! chunk_path video_id i)) →
  (∀ i, 0 ≤ i < total_chunks → output_path ≠ chunk_path video_id i) →
  file_above (raw_files w) output_path = false →
  is_directory "raw" (raw_files w) output_path w = false →
  LocalService.combine_chunks video_id total_chunks output_path w =
    (set_raw (insert output_path
                (concat (chunk_bytes w video_id <$> range total_chunks))) w,
     Ok tt).
Proof.
  intros Hex Hne Habove Hdir.
  unfold LocalService.combine_chunks, try_except, Py.bind,
    LocalService.makedirs_above, LocalService.open_wb.
  rewrite Habove, Hdir.
  erewrite local_combine_loop_ok; cycle 1.
  - simpl. apply lookup_insert_eq.
  - intros i Hi%range_elem. simpl. rewrite lookup_insert_ne by auto. auto.
  - intros i Hi%range_elem. auto.
  - f_equal. apply world_eq; simpl; try done.
    rewrite insert_insert_eq. f_equal. f_equal.
    apply list_fmap_ext. intros k j Hj. unfold chunk_bytes. simpl.
    rewrite lookup_insert_ne; [done|].
    apply Hne, range_elem. by apply list_elem_of_lookup_2 in Hj.
Qed.

(** The local backend opens the output before it looks at any chunk, so
    once the output could be opened the file exists after the call
    whatever the outcome. *)
Lemma local_combine_loop_keeps_output video_id output_path indices w :
  is_Some (raw_files w !! output_path) →
  is_Some (raw_files (LocalService.combine_loop video_id output_path indices w).1
           !! output_path).
Proof.
  revert w. induction indices as [|i rest IH]; intros w Hw; simpl; [done|].
  destruct (raw_files w !! chunk_path video_id i);
    [|by destruct (is_directory _ _ _ _)].
  unfold Py.bind, LocalService.write. simpl.
  match goal with
  | |- context [LocalService.combine_loop ?v ?o ?r ?w1] =>
      specialize (IH w1); destruct (LocalService.combine_loop v o r w1) as [w2 [[]|e]]
  end; simpl in *; apply IH; rewrite lookup_insert_eq; eauto.
Qed.

Lemma local_combine_chunks_creates_output video_id total_chunks output_path w :
  file_above (raw_files w) output_path = false →
  is_directory "raw" (raw_files w) output_path w = false →
  is_Some (raw_files (LocalService.combine_chunks video_id total_chunks
                        output_path w).1 !! output_path).
Proof.
  intros Habove Hdir.
  unfold LocalService.combine_chunks, try_except, Py.bind,
    LocalService.makedirs_above, LocalService.open_wb.
  rewrite Habove, Hdir.
  match goal with
  | |- context [LocalService.combine_loop ?v ?o ?r ?w1] =>
      pose proof (local_combine_loop_keeps_output v o r w1) as H;
      destruct (LocalService.combine_loop v o r w1) as [w2 [[]|e]]
  end; simpl in *; apply H; rewrite lookup_insert_eq; eauto.
Qed.

Lemma gcs_collect_keeps_world video_id indices blobs w :
  (GCSService.collect_chunk_blobs video_id indices blobs w).1 = w.
Proof.
  revert blobs. induction indices as [|i rest IH]; intros blobs; simpl; [done|].
  destruct (raw_files w !! chunk_path video_id i); [apply IH|done].
Qed.

Lemma gcs_collect_ok video_id indices blobs w :
  (∀ i, i ∈ indices → is_Some (raw_files w !! chunk_path video_id i)) →
  GCSService.collect_chunk_blobs video_id indices blobs w =
    (w, Ok (blobs ++ (chunk_path video_id <$> indices))).
Proof.
  revert blobs. induction indices as [|i rest IH]; intros blobs Hex; simpl.
  - by rewrite app_nil_r.
  - destruct (Hex i) as [d Hd]; [set_solver|]. rewrite Hd.
    rewrite IH by (intros; apply Hex; set_solver).
    by rewrite <- app_assoc.
Qed.

Lemma gcs_collect_missing video_id indices blobs w i :
  i ∈ indices →
  raw_files w !! chunk_path video_id i = None →
  ∃ e, GCSService.collect_chunk_blobs video_id indices blobs w = (w, Raise e).
Proof.
  revert blobs. induction indices as [|j rest IH]; intros blobs Hi Hnone.
  - set_solver.
  - simpl. destruct (raw_files w !! chunk_path video_id j) eqn:Hj.
    + apply IH; [|done]. apply elem_of_cons in Hi as [->|]; [congruence|done].
    + eexists. reflexivity.
Qed.

(** The cloud backend is written to check every chunk before it
    composes, but it does not get there: the call fails on every input,
    when it asks the client library for a composer, and nothing was
    written. *)
Lemma gcs_combine_chunks_fails video_id total_chunks output_path w :
  GCSService.combine_chunks video_id total_chunks output_path w =
    (w, Raise (StorageError "combine_chunks"
                 ("Failed to combine chunks in GCS: "
                  +:+ "module 'google.cloud.storage' has no attribute 'Composer'"))).
Proof. reflexivity. Qed.

Lemma local_combine_chunks_missing video_id total_chunks output_path w i :
  0 ≤ i < total_chunks →
  raw_files w !! chunk_path video_id i = None →
  output_path ≠ chunk_path video_id i →
  ∃ w' detail,
    LocalService.combine_chunks video_id total_chunks output_path w =
      (w', Raise (StorageError "combine_chunks" detail)).
Proof.
  intros Hi Hnone Hne.
  unfold LocalService.combine_chunks, try_except, Py.bind,
    LocalService.makedirs_above, LocalService.open_wb.
  destruct (file_above _ _); [unfold Py.raise; eauto|].
  destruct (is_directory _ _ output_path _); [unfold Py.raise; eauto|].
  simpl.
  assert (∀ indices w1,
    i ∈ indices → raw_files w1 !! chunk_path video_id i = None →
    ∃ w2 e, LocalService.combine_loop video_id output_path indices w1
            = (w2, Raise e)) as Hloop.
  { clear -Hne. induction indices as [|j rest IH]; intros w1 Hin Hn; [set_solver|].
    simpl. destruct (raw_files w1 !! chunk_path video_id j) eqn:Hj.
    - unfold Py.bind, LocalService.write. simpl.
      assert (j ≠ i) by congruence.
      edestruct (IH (set_raw (insert output_path
                       (default [] (raw_files w1 !! output_path) ++ l)) w1))
        as (w2 & e & He);
        [by apply elem_of_cons in Hin as [->|]| |].
      + simpl. by rewrite lookup_insert_ne.
      + rewrite He. eauto.
    - destruct (is_directory _ _ _ _); unfold Py.raise; eauto. }
  edestruct (Hloop (range total_chunks)
               (set_raw (insert output_path []) w)) as (w2 & e & He).
  - by apply range_elem.
  - simpl. by rewrite lookup_insert_ne.
  - rewrite He. unfold Py.raise. eauto.
Qed.

End Compose.

(** ** The facade's chunk upload *)

Section ChunkUpload.

Implicit Types (w : World) (video_id now : string) (user_id : option string).

Lemma get_video_metadata_eq video_id w :
  StorageService.get_video_metadata video_id w =
    match metadata_docs w !! video_id with
    | Some metadata => (w, Ok metadata)
    | None => (w, Raise (VideoNotFoundError video_id))
    end.
Proof.
  unfold StorageService.get_video_metadata, BackendCommon.get_metadata.
  run_M. by destruct (metadata_docs w !! video_id).
Qed.

Lemma upload_chunk_no_record now video_id i n data user_id w :
  metadata_docs w !! video_id = None →
  StorageService.upload_chunk now video_id i n data user_id w =
    (w, Raise (VideoNotFoundError video_id)).
Proof.
  intros Hmd. unfold StorageService.upload_chunk, try_except, Py.bind.
  rewrite get_video_metadata_eq, Hmd. done.
Qed.

(** The outcome of [upload_chunk] on a stored record, branch by branch. *)
Lemma upload_chunk_cases now video_id i n data user_id w metadata :
  metadata_docs w !! video_id = Some metadata →
  StorageService.upload_chunk now video_id i n data user_id w =
    if truthy user_id && negb (bool_decide (md_owner_id metadata = user_id))
    then (w, Raise (UploadError
           "Failed to upload chunk: Upload error: User does not have permission to upload to this video"))
    else
      let metadata1 :=
        if bool_decide (md_total_chunks metadata = 0)
        then with_total_chunks n metadata else metadata in
      if bool_decide (n ≤ i)
      then (w, Raise (UploadError ("Failed to upload chunk: " +:+ str
             (UploadError ("Chunk index " +:+ str_int i
                           +:+ " exceeds total chunks " +:+ str_int n)))))
      else if negb (bool_decide (md_total_chunks metadata1 = n))
      then (w, Raise (UploadError ("Failed to upload chunk: " +:+ str
             (UploadError ("Total chunks mismatch: expected "
                           +:+ str_int (md_total_chunks metadata1)
                           +:+ ", got " +:+ str_int n)))))
      else
        let w1 := (BackendCommon.save_file (chunk_path video_id i) data w).1 in
        if bool_decide (n = 0)
        then (w1, Raise (UploadError "Failed to upload chunk: division by zero"))
        else
          let received := md_chunks_received metadata1 + 1 in
          let progress := Float64.mul (Float64.div received n) 100 in
          let metadata2 :=
            with_updated_at now
              (with_upload_progress progress
                 (with_chunks_received received metadata1)) in
          (set_metadata (insert video_id metadata2) w1,
           Ok (mkChunkResult video_id i n progress None)).
Proof.
  intros Hmd. unfold StorageService.upload_chunk, try_except, Py.bind.
  rewrite get_video_metadata_eq, Hmd.
  destruct (truthy user_id && negb (bool_decide (md_owner_id metadata = user_id)));
    [done|].
  cbv zeta. unfold raise_if at 1. unfold Py.ret at 1.
  destruct (bool_decide (n ≤ i)); [done|].
  unfold raise_if at 1. unfold Py.ret at 1.
  destruct (negb (bool_decide (md_total_chunks _ = n))); [done|].
  unfold raise_if, Py.ret, Py.raise.
  unfold BackendCommon.save_file, StorageService.true_div.
  destruct (BackendCommon.routes_to_processed (chunk_path video_id i));
    destruct (bool_decide (n = 0)); done.
Qed.

End ChunkUpload.

Section ChunkUploadEffects.

Implicit Types (w : World) (video_id now : string) (user_id : option string).

Lemma with_total_chunks_same n metadata :
  md_total_chunks metadata = n → with_total_chunks n metadata = metadata.
Proof. intros <-. by destruct metadata. Qed.

(** What an accepted call needed and what it left behind. *)
Lemma upload_chunk_ok_inv now video_id i n data user_id w w' r :
  StorageService.upload_chunk now video_id i n data user_id w = (w', Ok r) →
  ∃ metadata,
    metadata_docs w !! video_id = Some metadata
    ∧ (truthy user_id = false ∨ md_owner_id metadata = user_id)
    ∧ i < n ∧ n ≠ 0
    ∧ (md_total_chunks metadata = 0 ∨ md_total_chunks metadata = n)
    ∧ w' = set_metadata
             (insert video_id
                (with_updated_at now
                   (with_upload_progress (res_progress r)
                      (with_chunks_received (md_chunks_received metadata + 1)
                         (with_total_chunks n metadata)))))
             (BackendCommon.save_file (chunk_path video_id i) data w).1.
Proof.
  intros H.
  destruct (metadata_docs w !! video_id) as [metadata|] eqn:Hmd;
    [|by rewrite upload_chunk_no_record in H].
  rewrite (upload_chunk_cases _ _ _ _ _ _ _ metadata Hmd) in H.
  exists metadata. split; [done|].
  destruct (truthy user_id) eqn:Hu; simpl in H.
  - case_bool_decide as Ho; simpl in H; [|done].
    revert H. cbv zeta. repeat case_bool_decide; simpl; try done.
    + intros [= <- <-]. simpl. repeat split; auto; lia.
    + intros [= <- <-]. simpl.
      rewrite (with_total_chunks_same n metadata) by done.
      repeat split; auto; lia.
  - revert H. cbv zeta. repeat case_bool_decide; simpl; try done.
    + intros [= <- <-]. simpl. repeat split; auto; lia.
    + intros [= <- <-]. simpl.
      rewrite (with_total_chunks_same n metadata) by done.
      repeat split; auto; lia.
Qed.

(** A rejected call leaves every metadata document as it was. *)
Lemma upload_chunk_raise_metadata now video_id i n data user_id w w' e :
  StorageService.upload_chunk now video_id i n data user_id w = (w', Raise e) →
  metadata_docs w' = metadata_docs w.
Proof.
  intros H.
  destruct (metadata_docs w !! video_id) as [metadata|] eqn:Hmd;
    [|rewrite upload_chunk_no_record in H by done; by injection H as <- _].
  rewrite (upload_chunk_cases _ _ _ _ _ _ _ metadata Hmd) in H.
  revert H. cbv zeta. unfold BackendCommon.save_file.
  repeat (case_bool_decide || case_match); simpl;
    intros [= <- ?]; done.
Qed.

Lemma save_file_stored path data w :
  stored_file path (BackendCommon.save_file path data w).1 = Some data.
Proof.
  unfold stored_file, BackendCommon.save_file.
  destruct (BackendCommon.routes_to_processed path); simpl;
    apply lookup_insert_eq.
Qed.

Lemma save_file_frame path data w p :
  p ≠ path →
  raw_files (BackendCommon.save_file path data w).1 !! p = raw_files w !! p
  ∧ processed_files (BackendCommon.save_file path data w).1 !! p
    = processed_files w !! p.
Proof.
  intros Hne. unfold BackendCommon.save_file.
  destruct (BackendCommon.routes_to_processed path); simpl;
    rewrite ?lookup_insert_ne by done; done.
Qed.

(** A call writes at most the chunk's own path. *)
Lemma upload_chunk_frame now video_id i n data user_id w p :
  p ≠ chunk_path video_id i →
  let w' := (StorageService.upload_chunk now video_id i n data user_id w).1 in
  raw_files w' !! p = raw_files w !! p
  ∧ processed_files w' !! p = processed_files w !! p.
Proof.
  intros Hne.
  destruct (metadata_docs w !! video_id) as [metadata|] eqn:Hmd;
    [|by rewrite upload_chunk_no_record].
  rewrite (upload_chunk_cases _ _ _ _ _ _ _ metadata Hmd).
  cbv zeta.
  repeat (case_bool_decide || case_match); simpl; try done;
    by apply save_file_frame.
Qed.

(** A call never touches [status] or [output_path], and no other record. *)
Lemma upload_chunk_keeps_status now video_id i n data user_id w :
  let w' := (StorageService.upload_chunk now video_id i n data user_id w).1 in
  md_status <$> metadata_docs w' !! video_id
    = md_status <$> metadata_docs w !! video_id
  ∧ md_output_path <$> metadata_docs w' !! video_id
    = md_output_path <$> metadata_docs w !! video_id
  ∧ md_filename <$> metadata_docs w' !! video_id
    = md_filename <$> metadata_docs w !! video_id.
Proof.
  destruct (StorageService.upload_chunk now video_id i n data user_id w)
    as [w' [r|e]] eqn:H; simpl.
  - apply upload_chunk_ok_inv in H as (metadata & Hmd & _ & _ & _ & _ & ->).
    simpl. rewrite lookup_insert_eq, Hmd. done.
  - apply upload_chunk_raise_metadata in H. by rewrite H.
Qed.

Lemma upload_chunk_ok_effect now video_id i n data user_id w w' r :
  StorageService.upload_chunk now video_id i n data user_id w = (w', Ok r) →
  stored_chunks_received video_id w' = stored_chunks_received video_id w + 1
  ∧ stored_file (chunk_path video_id i) w' = Some data
  ∧ i < n ∧ n ≠ 0
  ∧ stored_total_chunks video_id w' = n
  ∧ (stored_total_chunks video_id w ≠ 0 → stored_total_chunks video_id w = n).
Proof.
  intros (metadata & Hmd & _ & Hi & Hn & Ht & ->)%upload_chunk_ok_inv.
  unfold stored_chunks_received, stored_total_chunks. simpl.
  rewrite lookup_insert_eq. simpl.
  assert (metadata_docs (BackendCommon.save_file (chunk_path video_id i) data w).1
          = metadata_docs w) as Hsame.
  { unfold BackendCommon.save_file. by case_match. }
  rewrite Hmd.
  repeat split; try done.
  - unfold stored_file. simpl. apply save_file_stored.
  - intros ?. by destruct Ht.
Qed.

Lemma run_uploads_count video_id calls w :
  stored_chunks_received video_id (run_uploads video_id calls w) =
    stored_chunks_received video_id w
    + Z.of_nat (length (accepted_indices video_id calls w)).
Proof.
  revert w. induction calls as [|c rest IH]; intros w; simpl; [lia|].
  rewrite IH. unfold accepted, run_call.
  destruct (StorageService.upload_chunk _ _ _ _ _ _ w) as [w1 [r|e]] eqn:H; simpl.
  - apply upload_chunk_ok_effect in H as (-> & _). lia.
  - apply upload_chunk_raise_metadata in H.
    unfold stored_chunks_received. rewrite H. lia.
Qed.

(** Once a total is recorded it stays, and every accepted index is below it. *)
Lemma run_uploads_total video_id calls w :
  (stored_total_chunks video_id w ≠ 0 →
     stored_total_chunks video_id (run_uploads video_id calls w)
     = stored_total_chunks video_id w)
  ∧ (∀ i, i ∈ accepted_indices video_id calls w →
          i < stored_total_chunks video_id (run_uploads video_id calls w))
  ∧ (accepted_indices video_id calls w = [] →
     stored_total_chunks video_id (run_uploads video_id calls w)
     = stored_total_chunks video_id w).
Proof.
  revert w. induction calls as [|c rest IH]; intros w; simpl.
  { split; [done|]. split; [|done]. intros i Hi. by apply elem_of_nil in Hi. }
  unfold accepted, run_call.
  destruct (StorageService.upload_chunk _ _ _ _ _ _ w) as [w1 [r|e]] eqn:H; simpl.
  - apply upload_chunk_ok_effect in H as (_ & _ & Hi & Hn & Ht & Hkeep).
    destruct (IH w1) as (IH1 & IH2 & _).
    rewrite Ht in IH1. specialize (IH1 Hn).
    split; [|split; [|done]].
    + intros Hw. rewrite IH1. symmetry. auto.
    + intros i [->|Hin]%elem_of_cons; [lia|auto].
  - apply upload_chunk_raise_metadata in H.
    destruct (IH w1) as (IH1 & IH2 & IH3).
    unfold stored_total_chunks in *. rewrite H in *. done.
Qed.

Lemma NoDup_bounded_length (l : list Z) (n : Z) :
  0 ≤ n → NoDup l → (∀ i, i ∈ l → 0 ≤ i < n) → Z.of_nat (length l) ≤ n.
Proof.
  intros Hn Hnd Hb.
  assert (length (Z.to_nat <$> l) ≤ length (seq 0 (Z.to_nat n)))%nat as Hle.
  { apply NoDup_incl_length.
    - apply NoDup_ListNoDup, NoDup_fmap_2_strong; [|done].
      intros x y Hx%Hb Hy%Hb ?. lia.
    - intros k Hk%list_elem_of_In.
      apply list_elem_of_fmap in Hk as (i & -> & Hi%Hb).
      apply in_seq. lia. }
  rewrite length_fmap, length_seq in Hle. lia.
Qed.

Lemma length_remove_dups_le (l : list Z) :
  (length (remove_dups l) ≤ length l)%nat.
Proof.
  induction l as [|x l IH]; simpl; [done|]. case_decide; simpl; lia.
Qed.

Lemma length_remove_dups_NoDup (l : list Z) :
  length (remove_dups l) = length l ↔ NoDup l.
Proof.
  induction l as [|x l IH]; simpl.
  - split; [constructor|done].
  - pose proof (length_remove_dups_le l). case_decide as Hx; simpl.
    + split; [lia|]. intros Hnd%NoDup_cons. tauto.
    + rewrite NoDup_cons. split.
      * intros [= Hl]. split; [done|]. by apply IH.
      * intros [_ Hnd]. f_equal. by apply IH.
Qed.

(** The number of distinct values of a list is its length exactly when no
    value repeats. *)
Lemma size_list_to_set_NoDup (l : list Z) :
  size (list_to_set l : gset Z) = length l ↔ NoDup l.
Proof.
  rewrite <- length_remove_dups_NoDup.
  assert (size (list_to_set l : gset Z) = length (remove_dups l)) as ->; [|done].
  rewrite <- (size_list_to_set (C := gset Z)) by apply NoDup_remove_dups.
  f_equal. apply set_eq. intros x.
  rewrite !elem_of_list_to_set. by rewrite elem_of_remove_dups.
Qed.

End ChunkUploadEffects.

(** ** C1, C5: what [upload_chunk] counts and whom it lets in *)

Section UploadClaims.

Import Scenario.

(** C1, as the specification states it, fails: chunk 0 of 2 uploaded three
    times is counted three times, although one distinct index arrived and
    the recorded total is 2; the blob holds the last upload. *)
Lemma reupload_is_counted_again :
  let calls := [chunk_call 0 2 x01 alice; chunk_call 0 2 x02 alice;
                chunk_call 0 2 x03 alice] in
  let w' := run_uploads "v" calls alice_video in
  stored_chunks_received "v" w' = 3
  ∧ size (list_to_set (accepted_indices "v" calls alice_video) : gset Z) = 1%nat
  ∧ stored_total_chunks "v" w' = 2
  ∧ stored_file (chunk_path "v" 0) w' = Some [x03].
Proof. vm_compute. done. Qed.

(** C1 (amended).  [upload_chunk] counts calls, not indices: after any
    sequence of calls [chunks_received] has grown by the number of accepted
    calls; starting from zero it equals the number of distinct accepted
    indices exactly when no index was accepted twice, and then (indices
    not negative, fresh record) it does not exceed [total_chunks]; every
    further accepted call, a re-upload included, stores its bytes as the
    chunk's blob and adds one. *)
Theorem upload_chunk_counts_accepted_calls video_id calls w :
  let w' := run_uploads video_id calls w in
  let received := accepted_indices video_id calls w in
  stored_chunks_received video_id w'
    = stored_chunks_received video_id w + Z.of_nat (length received)
  ∧ (stored_chunks_received video_id w = 0 →
       (stored_chunks_received video_id w'
          = Z.of_nat (size (list_to_set received : gset Z))
        ↔ NoDup received))
  ∧ (stored_chunks_received video_id w = 0 →
     stored_total_chunks video_id w = 0 →
     NoDup received →
     (∀ i, i ∈ received → 0 ≤ i) →
     stored_chunks_received video_id w' ≤ stored_total_chunks video_id w')
  ∧ (∀ c w'' r,
       run_call video_id c w' = (w'', Ok r) →
       stored_file (chunk_path video_id (call_chunk_index c)) w''
         = Some (call_chunk_data c)
       ∧ stored_chunks_received video_id w''
         = stored_chunks_received video_id w' + 1).
Proof.
  intros w' received.
  pose proof (run_uploads_count video_id calls w) as Hcount.
  fold w' received in Hcount.
  split; [done|]. split; [|split].
  - intros H0. rewrite Hcount, H0, Z.add_0_l.
    rewrite <- size_list_to_set_NoDup. split; [intros ?%Nat2Z.inj|intros ->]; done.
  - intros H0 Ht Hnd Hpos. rewrite Hcount, H0, Z.add_0_l.
    destruct (run_uploads_total video_id calls w) as (_ & Hlt & Hnone).
    fold w' received in Hlt, Hnone.
    destruct received as [|i0 rest] eqn:Hr.
    + rewrite Hnone by done. simpl. lia.
    + rewrite <- Hr in *. apply NoDup_bounded_length; [|done|].
      * assert (i0 ∈ received) as Hi0 by (rewrite Hr; set_solver).
        specialize (Hlt _ Hi0). specialize (Hpos _ Hi0). lia.
      * intros i Hi. split; auto.
  - intros c w'' r H. unfold run_call in H.
    apply upload_chunk_ok_effect in H as (? & ? & _). done.
Qed.

Lemma upload_chunk_counts_accepted_calls_witness :
  stored_chunks_received "v" two_of_two ≤ stored_total_chunks "v" two_of_two.
Proof.
  pose proof (upload_chunk_counts_accepted_calls "v"
                [chunk_call 1 2 x02 alice; chunk_call 0 2 x01 alice]
                alice_video) as (_ & _ & H & _).
  apply H.
  - reflexivity.
  - reflexivity.
  - apply (bool_decide_unpack _). vm_compute. exact I.
  - intros i Hi. vm_compute in Hi.
    apply elem_of_cons in Hi as [->|Hi]; [lia|].
    apply elem_of_cons in Hi as [->|Hi]; [lia|].
    by apply elem_of_nil in Hi.
Defined.

(** C5, as the specification states it, fails: a caller without an id (or
    with the empty id) uploads to alice's record. *)
Lemma upload_without_caller_id_is_accepted :
  md_owner_id <$> metadata_docs alice_video !! "v" = Some (Some "alice")
  ∧ accepted "v" (chunk_call 0 2 x07 None) alice_video = true
  ∧ stored_file (chunk_path "v" 0)
      (run_call "v" (chunk_call 0 2 x07 None) alice_video).1 = Some [x07]
  ∧ stored_chunks_received "v"
      (run_call "v" (chunk_call 0 2 x07 None) alice_video).1 = 1
  ∧ accepted "v" (chunk_call 0 2 x07 (Some "")) alice_video = true.
Proof. vm_compute. done. Qed.

(** C5 (amended).  The owner check of [upload_chunk] is conditional: a
    caller whose id is given (not [None], not empty) and differs from the
    record's [owner_id] is rejected with an [UploadError] and the state is
    left untouched; a caller without an id is treated as the owner. *)
Theorem upload_chunk_owner_check now video_id i n data user_id w metadata :
  metadata_docs w !! video_id = Some metadata →
  (truthy user_id = true → md_owner_id metadata ≠ user_id →
     StorageService.upload_chunk now video_id i n data user_id w =
       (w, Raise (UploadError
          "Failed to upload chunk: Upload error: User does not have permission to upload to this video")))
  ∧ (truthy user_id = false →
     StorageService.upload_chunk now video_id i n data user_id w =
       StorageService.upload_chunk now video_id i n data (md_owner_id metadata) w).
Proof.
  intros Hmd. split.
  - intros Hu Ho. rewrite (upload_chunk_cases _ _ _ _ _ _ _ _ Hmd), Hu.
    by rewrite bool_decide_eq_false_2.
  - intros Hu. rewrite !(upload_chunk_cases _ _ _ _ _ _ _ _ Hmd), Hu.
    rewrite (bool_decide_eq_true_2 (md_owner_id metadata = md_owner_id metadata))
      by done.
    by rewrite andb_false_r.
Qed.

Lemma upload_chunk_owner_check_witness :
  StorageService.upload_chunk "2024-05-01T10:00:05" "v" 0 2 [x07] (Some "bob")
    alice_video =
    (alice_video, Raise (UploadError
       "Failed to upload chunk: Upload error: User does not have permission to upload to this video")).
Proof.
  refine (proj1 (upload_chunk_owner_check _ "v" 0 2 [x07] (Some "bob")
                   alice_video _ _) _ _).
  - vm_compute. reflexivity.
  - reflexivity.
  - vm_compute. discriminate.
Defined.

End UploadClaims.

(** ** C3, C4: composing the chunks *)

Section ComposeClaims.

Import Scenario.

(** C3 at a failing input.  Two chunks are expected and only [chunk_0] is
    stored.  The local backend fails with a not-found error, but it has
    already created the output and copied [chunk_0] into it.  The cloud
    backend leaves the state untouched on the same input, though not for
    the chunk that is missing: it fails when it asks for a composer,
    before it looks at a chunk, and so it fails as well when both chunks
    are stored. *)
Theorem local_combine_chunks_leaves_partial_output :
  let out := LocalService.combine_chunks "v" 2 "videos/v/foo.mp4" one_of_two in
  raw_files one_of_two !! chunk_path "v" 1 = None
  ∧ raw_files one_of_two !! "videos/v/foo.mp4" = None
  ∧ out.2 = Raise (StorageError "combine_chunks"
        "Failed to combine chunks: Storage error during combine_chunks: Chunk 1 not found")
  ∧ raw_files out.1 !! "videos/v/foo.mp4" = Some [x01]
  ∧ GCSService.combine_chunks "v" 2 "videos/v/foo.mp4" one_of_two =
      (one_of_two, Raise (StorageError "combine_chunks"
        "Failed to combine chunks in GCS: module 'google.cloud.storage' has no attribute 'Composer'"))
  ∧ GCSService.combine_chunks "v" 2 "videos/v/foo.mp4" two_of_two =
      (two_of_two, Raise (StorageError "combine_chunks"
        "Failed to combine chunks in GCS: module 'google.cloud.storage' has no attribute 'Composer'")).
Proof. vm_compute. done. Qed.




(** Where the output cannot be opened the call fails and changes nothing:
    [videos/v/chunks] is the directory the chunks lie in, and
    [videos/v/chunks/chunk_0/out] has a chunk file above it. *)
Example combine_into_a_directory :
  LocalService.combine_chunks "v" 2 "videos/v/chunks" two_of_two
    = (two_of_two,
       Raise (StorageError "combine_chunks"
                "Failed to combine chunks: Is a directory"))
  ∧ LocalService.combine_chunks "v" 0 "videos/v/chunks" alice_video
    = (alice_video,
       Raise (StorageError "combine_chunks"
                "Failed to combine chunks: Is a directory"))
  ∧ LocalService.combine_chunks "v" 2 "videos/v/chunks/chunk_0/out" two_of_two
    = (two_of_two,
       Raise (StorageError "combine_chunks"
                "Failed to combine chunks: Not a directory")).
Proof. vm_compute. done. Qed.

(** Eleven chunks: [chunk_10] comes last, after [chunk_9], not between
    [chunk_1] and [chunk_2] where a listing sorted by name would put it. *)
Example combine_eleven_chunks :
  let bytes := [x00; x01; x02; x03; x04; x05; x06; x07; x08; x09; x0a] in
  let w := foldr (λ '(i, b) w, (BackendCommon.save_file (chunk_path "v" i) [b] w).1)
             empty_world (zip (range 11) bytes) in
  raw_files (LocalService.combine_chunks "v" 11 "videos/v/foo.mp4" w).1
    !! "videos/v/foo.mp4" = Some bytes.
Proof. vm_compute. done. Qed.

End ComposeClaims.

(** ** C2: finalizing an upload *)

Section Finalize.

Import Scenario.

Implicit Types (w : World) (video_id now : string) (user_id : option string).

Lemma finalize_upload_ok now video_id user_id w metadata :
  metadata_docs w !! video_id = Some metadata →
  truthy user_id = false ∨ md_owner_id metadata = user_id →
  md_chunks_received metadata = md_total_chunks metadata →
  (∀ i, 0 ≤ i < md_total_chunks metadata →
        is_Some (raw_files w !! chunk_path video_id i)) →
  let output_path := composed_path video_id (md_filename metadata) in
  file_above (raw_files w) output_path = false →
  is_directory "raw" (raw_files w) output_path w = false →
  StorageService.finalize_upload LocalBackend now video_id user_id w =
    (set_metadata
       (insert video_id
          (with_updated_at now
             (with_output_path output_path (with_status "uploaded" metadata))))
       (set_raw (insert output_path
                   (concat (chunk_bytes w video_id
                            <$> range (md_total_chunks metadata)))) w),
     Ok (mkFinalizeResult video_id "uploaded" output_path)).
Proof.
  intros Hmd Hown Hall Hex output_path Habove Hdir.
  unfold StorageService.finalize_upload, try_except, Py.bind.
  rewrite get_video_metadata_eq, Hmd.
  assert (truthy user_id && negb (bool_decide (md_owner_id metadata = user_id))
          = false) as ->.
  { destruct Hown as [-> | ->]; [done|].
    rewrite bool_decide_eq_true_2 by done. apply andb_false_r. }
  rewrite bool_decide_eq_true_2 by done. simpl.
  fold (composed_path video_id (md_filename metadata)). fold output_path.
  rewrite local_combine_chunks_ok; [done|done| |done|done].
  intros i _. apply output_path_not_chunk.
Qed.

(** With the cloud backend [finalize_upload] never succeeds: a call that
    gets as far as composing fails there, and changes nothing. *)
Lemma finalize_upload_gcs now video_id user_id w :
  ∃ e, StorageService.finalize_upload GCSBackend now video_id user_id w
       = (w, Raise e).
Proof.
  unfold StorageService.finalize_upload, try_except, Py.bind.
  rewrite get_video_metadata_eq.
  destruct (metadata_docs w !! video_id) as [metadata|];
    [|unfold Py.raise; eauto].
  destruct (truthy user_id && negb (bool_decide (md_owner_id metadata = user_id)));
    simpl; [unfold Py.raise; eauto|].
  case_bool_decide; simpl; unfold Py.raise; eauto.
Qed.

Lemma finalize_upload_missing storage now video_id user_id w metadata :
  metadata_docs w !! video_id = Some metadata →
  md_chunks_received metadata ≠ md_total_chunks metadata →
  ∃ detail,
    StorageService.finalize_upload storage now video_id user_id w =
      (w, Raise (UploadError detail)).
Proof.
  intros Hmd Hneq.
  unfold StorageService.finalize_upload, try_except, Py.bind.
  rewrite get_video_metadata_eq, Hmd.
  destruct (truthy user_id && negb (bool_decide (md_owner_id metadata = user_id)));
    simpl; [unfold Py.raise; eauto|].
  rewrite bool_decide_eq_false_2 by done. simpl. unfold Py.raise. eauto.
Qed.

Lemma run_uploads_keeps_status video_id calls w :
  let w' := run_uploads video_id calls w in
  md_status <$> metadata_docs w' !! video_id
    = md_status <$> metadata_docs w !! video_id
  ∧ md_output_path <$> metadata_docs w' !! video_id
    = md_output_path <$> metadata_docs w !! video_id
  ∧ (∀ filename,
       raw_files w' !! composed_path video_id filename
       = raw_files w !! composed_path video_id filename).
Proof.
  revert w. induction calls as [|c rest IH]; intros w; simpl; [done|].
  destruct (IH (run_call video_id c w).1) as (-> & -> & Hfile).
  unfold run_call.
  destruct (upload_chunk_keeps_status (call_now c) video_id (call_chunk_index c)
              (call_total_chunks c) (call_chunk_data c) (call_user_id c) w)
    as (-> & -> & _).
  split; [done|]. split; [done|].
  intros filename. rewrite Hfile.
  apply upload_chunk_frame, output_path_not_chunk.
Qed.

Lemma endpoint_upload_chunk_inv now file video_id i n company_user w w' out :
  UploadEndpoint.upload_chunk now file video_id i n company_user w
    = (w', Ok out) →
  ∃ result,
    StorageService.upload_chunk now video_id i n file
      (cu_user_id company_user) w = (w', Ok result)
    ∧ out = if bool_decide (i = n - 1)
            then (mkChunkResult (res_video_id result)
                    (res_chunk_index result) (res_total_chunks result)
                    (res_progress result) (Some "processing_started"),
                  [mkProcessVideo video_id (cu_user_id company_user)
                     (cu_company_id company_user)])
            else (result, []).
Proof.
  unfold UploadEndpoint.upload_chunk, try_except, Py.bind.
  destruct (StorageService.upload_chunk _ _ _ _ _ _ w) as [w1 [result|e]].
  - case_bool_decide; intros [= <- <-]; eauto.
  - destruct e; discriminate.
Qed.

(** C2 at a failing input.  Both chunks of a two-chunk upload have been
    accepted, so [chunks_received] equals [total_chunks]; the specification
    asks for a composed file and status uploaded, but the record is still
    pending, has no [output_path] and no composed file exists.  And the
    endpoint schedules processing on the chunk with the last index
    although [chunk_0] has not arrived. *)
Theorem all_chunks_uploaded_not_finalized :
  stored_chunks_received "v" two_of_two = 2
  ∧ stored_total_chunks "v" two_of_two = 2
  ∧ md_status <$> metadata_docs two_of_two !! "v" = Some "pending"
  ∧ md_output_path <$> metadata_docs two_of_two !! "v" = Some None
  ∧ raw_files two_of_two !! composed_path "v" "foo.mp4" = None
  ∧ let out := UploadEndpoint.upload_chunk "2024-05-01T10:00:05" [x02] "v" 1 2
                 (mkCompanyUser alice (Some "acme")) alice_video in
    scheduled_tasks out = [mkProcessVideo "v" alice (Some "acme")]
    ∧ raw_files out.1 !! chunk_path "v" 0 = None
    ∧ stored_chunks_received "v" out.1 = 1.
Proof. vm_compute. done. Qed.

(** What the upload path does in general.  [upload_chunk] never
    finalizes: whatever is uploaded,
    [status] and [output_path] stay as they were and no composed file
    appears.  Finalizing is the separate [finalize_upload]: with the
    local backend, on a record whose [chunks_received] equals
    [total_chunks], with every chunk stored and an output path
    [videos/{id}/{basename}] that can be opened, it composes the chunks
    into that file, sets [status] to uploaded and [output_path]; on a
    record whose counters differ it fails and changes nothing, and with
    the cloud backend it fails and changes nothing on every record.  The
    endpoint schedules processing exactly for an accepted chunk whose
    index is [total_chunks - 1]. *)
Theorem finalize_is_a_separate_step storage video_id w :
  (∀ calls,
     let w' := run_uploads video_id calls w in
     md_status <$> metadata_docs w' !! video_id
       = md_status <$> metadata_docs w !! video_id
     ∧ md_output_path <$> metadata_docs w' !! video_id
       = md_output_path <$> metadata_docs w !! video_id
     ∧ (∀ filename,
          raw_files w' !! composed_path video_id filename
          = raw_files w !! composed_path video_id filename))
  ∧ (∀ now user_id metadata,
       metadata_docs w !! video_id = Some metadata →
       truthy user_id = false ∨ md_owner_id metadata = user_id →
       let output_path := composed_path video_id (md_filename metadata) in
       (md_chunks_received metadata = md_total_chunks metadata →
        (∀ i, 0 ≤ i < md_total_chunks metadata →
              is_Some (raw_files w !! chunk_path video_id i)) →
        storage = LocalBackend →
        normal_world w →
        normal_path output_path = true →
        file_above (raw_files w) output_path = false →
        is_directory "raw" (raw_files w) output_path w = false →
        ∃ w' metadata',
          StorageService.finalize_upload storage now video_id user_id w =
            (w', Ok (mkFinalizeResult video_id "uploaded" output_path))
          ∧ metadata_docs w' !! video_id = Some metadata'
          ∧ md_status metadata' = "uploaded"
          ∧ md_output_path metadata' = Some output_path
          ∧ raw_files w' !! output_path =
              Some (concat ((λ k : nat, chunk_bytes w video_id (Z.of_nat k))
                            <$> seq 0 (Z.to_nat (md_total_chunks metadata)))))
       ∧ (md_chunks_received metadata ≠ md_total_chunks metadata →
          ∃ detail,
            StorageService.finalize_upload storage now video_id user_id w =
              (w, Raise (UploadError detail)))
       ∧ (storage = GCSBackend →
          ∃ e,
            StorageService.finalize_upload storage now video_id user_id w =
              (w, Raise e)))
  ∧ (∀ now file i n company_user w' result tasks,
       UploadEndpoint.upload_chunk now file video_id i n company_user w
         = (w', Ok (result, tasks)) →
       (tasks = [mkProcessVideo video_id (cu_user_id company_user)
                   (cu_company_id company_user)] ∧ i = n - 1
        ∨ tasks = [] ∧ i ≠ n - 1)
       ∧ md_status <$> metadata_docs w' !! video_id
         = md_status <$> metadata_docs w !! video_id).
Proof.
  split; [|split].
  - intros calls. apply run_uploads_keeps_status.
  - intros now user_id metadata Hmd Hown output_path. split.
    + intros Hall Hex -> _ _ Habove Hdir. eexists _, _.
      rewrite (finalize_upload_ok now video_id user_id w metadata)
        by done.
      fold output_path.
      split; [reflexivity|]. simpl.
      rewrite lookup_insert_eq. split; [reflexivity|].
      split; [done|]. split; [done|].
      rewrite lookup_insert_eq. unfold range.
      by rewrite <- list_fmap_compose.
    + split.
      * intros Hneq. by apply (finalize_upload_missing _ _ _ _ _ metadata).
      * intros ->. apply finalize_upload_gcs.
  - intros now file i n company_user w' result tasks H.
    apply endpoint_upload_chunk_inv in H as (r & Hup & Hout).
    split.
    + case_bool_decide; injection Hout as -> ->; auto.
    + pose proof (upload_chunk_keeps_status now video_id i n file
                    (cu_user_id company_user) w) as (Hs & _).
      by rewrite Hup in Hs.
Qed.

Lemma finalize_is_a_separate_step_witness :
  ∃ w' metadata',
    StorageService.finalize_upload LocalBackend "2024-05-01T10:01:00" "v" alice
      two_of_two =
      (w', Ok (mkFinalizeResult "v" "uploaded" "videos/v/foo.mp4"))
    ∧ metadata_docs w' !! "v" = Some metadata'
    ∧ md_status metadata' = "uploaded"
    ∧ md_output_path metadata' = Some "videos/v/foo.mp4"
    ∧ raw_files w' !! "videos/v/foo.mp4" = Some [x01; x02].
Proof.
  pose proof (finalize_is_a_separate_step LocalBackend "v" two_of_two)
    as (_ & H & _).
  edestruct (H "2024-05-01T10:01:00" alice) as [Hok _].
  - vm_compute. reflexivity.
  - right. reflexivity.
  - apply Hok.
    + reflexivity.
    + intros i Hi.
      assert (i = 0 ∨ i = 1) as [-> | ->] by (simpl in Hi; lia);
        vm_compute; eauto.
    + reflexivity.
    + repeat split; apply (bool_decide_unpack _); vm_compute; exact I.
    + reflexivity.
    + vm_compute. reflexivity.
    + vm_compute. reflexivity.
Defined.

End Finalize.

(** ** Text lines and decimal numbers *)

Section Text.

Lemma omap_cons_Some {A B} (f : A → option B) x y l :
  f x = Some y → omap f (x :: l) = y :: omap f l.
Proof. intros H. cbn. by rewrite H. Qed.

Lemma omap_cons_None {A B} (f : A → option B) x l :
  f x = None → omap f (x :: l) = omap f l.
Proof. intros H. cbn. by rewrite H. Qed.

Lemma foldl_append_pairs {A} (f g : A → string) (init : list string)
    (xs : list A) :
  foldl (λ lines x, (lines ++ [f x]) ++ [g x]) init xs
  = init ++ flat_map (λ x, [f x; g x]) xs.
Proof.
  revert init. induction xs as [|x xs IH]; intros init; simpl.
  - by rewrite app_nil_r.
  - rewrite IH. by rewrite <- !app_assoc.
Qed.

Lemma has_newline_app (s t : string) :
  has_newline (s +:+ t) = has_newline s || has_newline t.
Proof.
  induction s as [|a s IH]; [done|].
  rewrite string_app_cons. simpl. rewrite IH. by rewrite orb_assoc.
Qed.

Lemma split_lines_nonempty text : split_lines text ≠ [].
Proof.
  destruct text as [|c r]; simpl; [done|].
  destruct (Ascii.eqb c "010"); [done|]. by destruct (split_lines r).
Qed.

Lemma split_lines_plain l : has_newline l = false → split_lines l = [l].
Proof.
  induction l as [|c l IH]; simpl; [done|].
  intros [Hc Hl]%orb_false_iff. rewrite Hc, IH by done. done.
Qed.

Lemma split_lines_app_newline l rest :
  has_newline l = false →
  split_lines (l +:+ newline +:+ rest) = l :: split_lines rest.
Proof.
  induction l as [|c l IH]; [intros _; reflexivity|].
  rewrite string_app_cons. simpl.
  intros [Hc Hl]%orb_false_iff. rewrite Hc, IH by done. done.
Qed.

(** Splitting the joined text gives the lines back. *)
Lemma split_lines_join lines :
  lines ≠ [] → Forall (λ l, has_newline l = false) lines →
  split_lines (join newline lines) = lines.
Proof.
  induction lines as [|l [|l' lines] IH]; intros Hne Hplain; [done|..].
  - simpl. apply split_lines_plain. by inversion Hplain.
  - change (join newline (l :: l' :: lines))
      with (l +:+ newline +:+ join newline (l' :: lines)).
    inversion Hplain; subst.
    rewrite split_lines_app_newline by done. f_equal. by apply IH.
Qed.

Lemma strip_prefix_app p s : strip_prefix p (p +:+ s) = Some s.
Proof.
  induction p as [|a p IH]; [done|].
  rewrite string_app_cons. simpl. by rewrite Ascii.eqb_refl.
Qed.

Lemma digit_value_pretty (d : N) :
  (d < 10)%N → digit_value (pretty_N_char d) = Some d.
Proof.
  intros Hd.
  assert (d = 0 ∨ d = 1 ∨ d = 2 ∨ d = 3 ∨ d = 4 ∨ d = 5 ∨ d = 6 ∨ d = 7
          ∨ d = 8 ∨ d = 9)%N as Hcases by lia.
  repeat (destruct Hcases as [-> | Hcases]; [done|]). by subst.
Qed.

Lemma pretty_N_go_app (x : N) (s t : string) :
  pretty_N_go x s +:+ t = pretty_N_go x (s +:+ t).
Proof.
  revert s. induction (N.lt_wf_0 x) as [x _ IH]; intros s.
  destruct (decide (x = 0)%N) as [->|Hx]; [by rewrite !pretty_N_go_0|].
  rewrite (pretty_N_go_step x s), (pretty_N_go_step x (s +:+ t)) by lia.
  rewrite IH by (apply N.div_lt; lia). reflexivity.
Qed.

Lemma read_digits_pretty_go (x acc : N) (s : string) :
  ∃ k : N, read_digits acc (pretty_N_go x s)
           = read_digits (acc * 10 ^ k + x) s.
Proof.
  revert acc s. induction (N.lt_wf_0 x) as [x _ IH]; intros acc s.
  destruct (decide (x = 0)%N) as [->|Hx].
  - exists 0%N. rewrite pretty_N_go_0. f_equal. lia.
  - rewrite pretty_N_go_step by lia.
    destruct (IH (x `div` 10)%N ltac:(apply N.div_lt; lia) acc
                (String (pretty_N_char (x `mod` 10)) s)) as [k ->].
    exists (k + 1)%N. simpl.
    rewrite digit_value_pretty by (apply N.mod_lt; lia).
    f_equal. rewrite N.pow_add_r, N.pow_1_r.
    pose proof (N.div_mod x 10 ltac:(lia)). lia.
Qed.

Lemma read_digits_stop acc s : stops_digits s → read_digits acc s = acc.
Proof. destruct s as [|c r]; simpl; [done|]. by intros ->. Qed.

Lemma read_digits_pretty_N (x : N) (t : string) :
  stops_digits t → read_digits 0 (pretty x +:+ t) = x.
Proof.
  intros Ht. unfold pretty, pretty_N. case_decide as Hx.
  - subst. rewrite string_app_cons, string_app_nil. simpl.
    by apply read_digits_stop.
  - rewrite pretty_N_go_app, string_app_nil.
    destruct (read_digits_pretty_go x 0 t) as [k ->].
    rewrite read_digits_stop by done. lia.
Qed.

Lemma read_int_no_dash (s : string) :
  (∀ r, s ≠ String "-" r) → read_int s = Z.of_N (read_digits 0 s).
Proof.
  intros Hs. destruct s as [|c r]; [done|].
  destruct (decide (c = "-"%char)) as [->|Hc]; [by destruct (Hs r)|].
  unfold read_int.
  destruct c as [[] [] [] [] [] [] [] []]; try done.
Qed.

Lemma pretty_N_not_dash (x : N) (t r : string) :
  stops_digits t → pretty x +:+ t ≠ String "-" r.
Proof.
  intros Ht. unfold pretty, pretty_N. case_decide as Hx; [done|].
  rewrite pretty_N_go_app, string_app_nil.
  destruct (decide (0 < x)%N) as [Hpos|]; [|lia].
  rewrite pretty_N_go_step by done.
  apply (pretty_N_go_ne_dash _ _ r).
  unfold pretty_N_char. by repeat case_match.
Qed.

(** Reading back a printed integer. *)
Lemma read_int_str_int (z : Z) (t : string) :
  stops_digits t → read_int (str_int z +:+ t) = z.
Proof.
  intros Ht. unfold str_int, pretty, pretty_Z. destruct z as [|p|p].
  - rewrite string_app_cons, string_app_nil. simpl.
    by rewrite read_digits_stop.
  - change (pretty p) with (pretty (N.pos p)).
    rewrite read_int_no_dash by (intros r; by apply pretty_N_not_dash).
    by rewrite read_digits_pretty_N.
  - change (("-" +:+ pretty p) +:+ t)
      with (String "-" (pretty (N.pos p) +:+ t)).
    simpl. by rewrite read_digits_pretty_N.
Qed.

End Text.

(** ** C6: the order of the variants in the manifests *)

Section ManifestOrder.

Import ManifestGenerator AdaptiveStreamingService ManifestScenario.

Lemma has_newline_pretty_N_go (x : N) (s : string) :
  has_newline (pretty_N_go x s) = has_newline s.
Proof.
  revert s. induction (N.lt_wf_0 x) as [x _ IH]; intros s.
  destruct (decide (x = 0)%N) as [->|Hx]; [by rewrite pretty_N_go_0|].
  rewrite pretty_N_go_step by lia.
  rewrite IH by (apply N.div_lt; lia). simpl.
  unfold pretty_N_char. by repeat case_match.
Qed.

Lemma has_newline_str_int (z : Z) : has_newline (str_int z) = false.
Proof.
  assert (∀ x : N, has_newline (pretty x) = false) as HN.
  { intros x. unfold pretty, pretty_N. case_decide; [done|].
    by rewrite has_newline_pretty_N_go. }
  unfold str_int, pretty, pretty_Z. destruct z as [|p|p]; [done|apply HN|].
  rewrite has_newline_app. simpl. apply HN.
Qed.

Lemma stream_inf_read variant :
  stream_inf_bandwidth (stream_inf variant) = Some (var_bandwidth variant).
Proof.
  unfold stream_inf_bandwidth, stream_inf.
  rewrite strip_prefix_app. simpl. f_equal.
  by apply read_int_str_int.
Qed.

Lemma stream_inf_plain variant :
  has_newline (var_resolution variant) = false →
  has_newline (stream_inf variant) = false.
Proof.
  intros Hres. unfold stream_inf.
  rewrite !has_newline_app, has_newline_str_int, Hres. done.
Qed.

Lemma generate_hls_master_playlist_lines variant_playlists :
  generate_hls_master_playlist variant_playlists
  = join newline (["#EXTM3U"; "#EXT-X-VERSION:3"]
                  ++ flat_map master_entry variant_playlists).
Proof.
  unfold generate_hls_master_playlist.
  by rewrite (foldl_append_pairs stream_inf (λ v, var_name v +:+ ".m3u8")).
Qed.

Lemma listed_bandwidths_master variant_playlists :
  Forall plain_variant variant_playlists →
  listed_bandwidths (generate_hls_master_playlist variant_playlists)
  = var_bandwidth <$> variant_playlists.
Proof.
  intros Hplain. unfold listed_bandwidths.
  rewrite generate_hls_master_playlist_lines.
  rewrite split_lines_join; [|done|].
  - rewrite omap_app.
    change (omap stream_inf_bandwidth ["#EXTM3U"; "#EXT-X-VERSION:3"])
      with (@nil Z).
    rewrite app_nil_l.
    induction Hplain as [|v vs (Hres & Hname & Hfile) _ IH]; [done|].
    change (flat_map master_entry (v :: vs))
      with (stream_inf v :: (var_name v +:+ ".m3u8")
            :: flat_map master_entry vs).
    rewrite (omap_cons_Some _ _ _ _ (stream_inf_read v)).
    rewrite (omap_cons_None _ _ _ Hfile). by rewrite IH.
  - apply Forall_app. split; [by repeat constructor|].
    induction Hplain as [|v vs (Hres & Hname & Hfile) _ IH]; [constructor|].
    simpl. constructor; [by apply stream_inf_plain|].
    constructor; [|done].
    rewrite has_newline_app, Hname. done.
Qed.

Lemma foldl_snoc {A B} (f : A → B) (init : list B) (xs : list A) :
  foldl (λ acc x, acc ++ [f x]) init xs = init ++ (f <$> xs).
Proof.
  revert init. induction xs as [|x xs IH]; intros init; simpl.
  - by rewrite app_nil_r.
  - rewrite IH. by rewrite <- app_assoc.
Qed.

Lemma mpd_adaptation_sets_generated adaptation_sets duration :
  mpd_adaptation_sets (generate_dash_mpd adaptation_sets duration)
  = adaptation_set <$> adaptation_sets.
Proof.
  unfold mpd_adaptation_sets, generate_dash_mpd, elem_findall_path.
  rewrite foldl_snoc. simpl. rewrite app_nil_r.
  unfold elem_findall. simpl.
  induction adaptation_sets as [|a rest IH]; [done|].
  rewrite fmap_cons, filter_cons_True by done. by rewrite IH.
Qed.

Lemma mpd_bandwidths_generated adaptation_sets duration :
  mpd_bandwidths (generate_dash_mpd adaptation_sets duration)
  = (λ a, [Some (str_int (ad_bandwidth a))]) <$> adaptation_sets.
Proof.
  unfold mpd_bandwidths. rewrite mpd_adaptation_sets_generated.
  rewrite <- list_fmap_compose. apply list_fmap_ext. intros _ a _. done.
Qed.

Lemma hls_variants_loop_names profiles segments_info acc variants :
  hls_variants_loop profiles segments_info acc = Ok variants →
  var_name <$> variants
  = (var_name <$> acc)
    ++ filter (λ q, q ∈ (hls_segments segments_info).*1) profiles.*1.
Proof.
  revert acc. induction profiles as [|[quality profile] rest IH];
    intros acc; simpl.
  - intros [= <-]. by rewrite app_nil_r.
  - case_bool_decide as Hq.
    + rewrite filter_cons_True by done.
      destruct (unpack_resolution _); [|done].
      destruct (py_int _) as [bandwidth|]; [|done].
      intros ->%IH. rewrite fmap_app. simpl. by rewrite <- app_assoc.
    + rewrite filter_cons_False by done. apply IH.
Qed.

Lemma dash_adaptation_sets_loop_ids profiles segments_info acc sets :
  dash_adaptation_sets_loop profiles segments_info acc = Ok sets →
  ad_id <$> sets
  = (ad_id <$> acc)
    ++ ((λ q, "video_" +:+ q)
        <$> filter (λ q, q ∈ (dash_segments segments_info).*1) profiles.*1).
Proof.
  revert acc. induction profiles as [|[quality profile] rest IH];
    intros acc; simpl.
  - intros [= <-]. by rewrite app_nil_r.
  - case_bool_decide as Hq.
    + rewrite filter_cons_True by done.
      destruct (unpack_resolution _) as [[width height]|]; [|done].
      destruct (py_int width); [|done].
      destruct (py_int height); [|done].
      destruct (py_int _) as [bandwidth|]; [|done].
      intros ->%IH. rewrite fmap_app. simpl. by rewrite <- app_assoc.
    + rewrite filter_cons_False by done. apply IH.
Qed.

(** C6, as the specification states it, fails: variants given from the
    higher bandwidth down are listed in that order, in the master playlist
    and in the MPD; a ladder configured in descending order reaches the
    generators in descending order. *)
Lemma variants_keep_a_descending_order :
  listed_bandwidths (generate_hls_master_playlist [v360; v240])
    = [800000; 300000]
  ∧ ¬ Sorted Z.le (listed_bandwidths (generate_hls_master_playlist [v360; v240]))
  ∧ mpd_bandwidths (generate_dash_mpd [a360; a240] 30)
    = [[Some "800000"]; [Some "300000"]]
  ∧ hls_variants descending_ladder two_qualities = Ok [v360; v240].
Proof.
  split; [by vm_compute|]. split; [|by vm_compute].
  assert (listed_bandwidths (generate_hls_master_playlist [v360; v240])
          = [800000; 300000]) as -> by by vm_compute.
  intros H. inversion H as [|? ? _ Hhd]; subst.
  inversion Hhd; subst. lia.
Qed.

(** C6 (amended).  The generators keep the order they are given: the
    [BANDWIDTH] values the master playlist lists, read line by line, are
    those of the input variants in input order, and the MPD holds one
    [AdaptationSet] per input entry in input order; [generate_manifests]
    builds both inputs by walking the configured ladder, so the qualities
    come out in ladder order.  The manifests are therefore in ascending
    bandwidth order exactly when the input is. *)
Theorem manifests_keep_input_order :
  (∀ variant_playlists,
     Forall plain_variant variant_playlists →
     listed_bandwidths (generate_hls_master_playlist variant_playlists)
       = var_bandwidth <$> variant_playlists
     ∧ (Sorted Z.le
          (listed_bandwidths (generate_hls_master_playlist variant_playlists))
        ↔ Sorted Z.le (var_bandwidth <$> variant_playlists)))
  ∧ (∀ adaptation_sets duration,
       mpd_bandwidths (generate_dash_mpd adaptation_sets duration)
       = (λ a, [Some (str_int (ad_bandwidth a))]) <$> adaptation_sets)
  ∧ (∀ profiles segments_info variants,
       hls_variants profiles segments_info = Ok variants →
       var_name <$> variants
       = filter (λ q, q ∈ (hls_segments segments_info).*1) profiles.*1)
  ∧ (∀ profiles segments_info sets,
       dash_adaptation_sets profiles segments_info = Ok sets →
       ad_id <$> sets
       = (λ q, "video_" +:+ q)
         <$> filter (λ q, q ∈ (dash_segments segments_info).*1) profiles.*1).
Proof.
  split; [|split; [|split]].
  - intros vs Hplain. rewrite listed_bandwidths_master by done. done.
  - apply mpd_bandwidths_generated.
  - intros profiles info variants H.
    by apply hls_variants_loop_names in H.
  - intros profiles info sets H.
    by apply dash_adaptation_sets_loop_ids in H.
Qed.

Lemma manifests_keep_input_order_witness :
  listed_bandwidths (generate_hls_master_playlist [v240; v360])
    = [300000; 800000]
  ∧ var_name <$> [v240; v360] = ["240p"; "360p"].
Proof.
  destruct manifests_keep_input_order as (Hhls & _ & Hladder & _).
  split.
  - refine (proj1 (Hhls [v240; v360] _)).
    repeat constructor.
  - refine (Hladder (take 2 VIDEO_QUALITY_PROFILES) two_qualities
              [v240; v360] _).
    vm_compute. reflexivity.
Defined.

(** With the ladder of [config.py] the variants reach the generators in
    ascending bandwidth order. *)
Example default_ladder_is_ascending :
  let all := mkSegmentsInfo ((λ p, (p.1, [])) <$> VIDEO_QUALITY_PROFILES) [] in
  ∃ variants,
    hls_variants VIDEO_QUALITY_PROFILES all = Ok variants
    ∧ var_bandwidth <$> variants
      = [300000; 800000; 1400000; 2800000; 5000000].
Proof. eexists. split; [by vm_compute|]. done. Qed.

End ManifestOrder.

(** ** C7, C10: the HLS variant playlist *)

Section VariantPlaylist.

Import ManifestGenerator ManifestScenario.


Lemma max_from_spec (best : Q) (rest : list Q) :
  (best <= max_from best rest)%Q
  ∧ Forall (λ x, (x <= max_from best rest)%Q) rest
  ∧ max_from best rest ∈ best :: rest.
Proof.
  revert best. induction rest as [|x rest IH]; intros best; simpl.
  - split; [apply Qle_refl|]. split; [constructor|apply list_elem_of_here].
  - destruct (Qlt_le_dec best x) as [Hlt|Hle].
    + destruct (IH x) as (Hx & Hrest & Hin).
      split; [eapply Qle_trans; [apply Qlt_le_weak|]; eauto|].
      split; [by constructor|by apply list_elem_of_further].
    + destruct (IH best) as (Hb & Hrest & Hin).
      split; [done|].
      split; [constructor; [by eapply Qle_trans|done]|].
      apply elem_of_cons in Hin as [->|Hin];
        [apply list_elem_of_here|by do 2 apply list_elem_of_further].
Qed.

Lemma add_segments_lines lines segments :
  add_segments lines segments = lines ++ flat_map segment_entry segments.
Proof. apply (foldl_append_pairs extinf seg_filename). Qed.

Lemma join_cons (sep l : string) (rest : list string) :
  rest ≠ [] → join sep (l :: rest) = l +:+ sep +:+ join sep rest.
Proof. by destruct rest. Qed.

Lemma concat_cons (x : string) (xs : list string) :
  String.concat "" (x :: xs) = x +:+ String.concat "" xs.
Proof. destruct xs; simpl; [by rewrite string_app_empty_r|done]. Qed.

(** The lines of the segments and a last line, joined: each segment gives
    its [#EXTINF] line and its file name, each closed by a line break. *)
Lemma join_segment_entries segments (last : string) :
  join newline (flat_map segment_entry segments ++ [last])
  = String.concat ""
      ((λ segment,
          "#EXTINF:" +:+ format_fixed 6 (seg_duration segment) +:+ ","
          +:+ newline +:+ seg_filename segment +:+ newline) <$> segments)
    +:+ last.
Proof.
  induction segments as [|segment segments IH]; [done|].
  rewrite fmap_cons, concat_cons. cbn [flat_map segment_entry app].
  rewrite join_cons by done.
  rewrite join_cons by (by destruct (flat_map segment_entry segments)).
  rewrite IH. unfold extinf. by rewrite !string_app_assoc.
Qed.

(** C7.  For a non-empty list of segments whose durations are floats the
    VOD variant playlist is the text that begins with the lines
    [#EXTM3U], [#EXT-X-VERSION:3], [#EXT-X-TARGETDURATION:n] and
    [#EXT-X-MEDIA-SEQUENCE:0], goes on, for each segment in input order,
    with the line [#EXTINF:] with the duration to six decimals and a
    comma and the line with the file name, and ends with
    [#EXT-X-ENDLIST], without a line break after it; [n] is the ceiling
    of the largest segment duration: no duration exceeds it and some
    duration exceeds [n - 1].  Durations 6.0, 6.0 and 5.42 give
    [#EXT-X-TARGETDURATION:6]; a duration that lies halfway between two
    six-decimal numbers is printed as the one with the even last digit
    (0.0078125 as 0.007812, 0.0234375 as 0.023438). *)
Theorem hls_variant_playlist_layout :
  (∀ segments,
     segments ≠ [] →
     Forall (λ segment, Float64.is_float (seg_duration segment) = true)
       segments →
     ∃ target_duration : Z,
       generate_hls_variant_playlist segments =
         Ok ("#EXTM3U" +:+ newline
             +:+ "#EXT-X-VERSION:3" +:+ newline
             +:+ "#EXT-X-TARGETDURATION:" +:+ str_int target_duration
             +:+ newline
             +:+ "#EXT-X-MEDIA-SEQUENCE:0" +:+ newline
             +:+ String.concat ""
                   ((λ segment,
                       "#EXTINF:" +:+ format_fixed 6 (seg_duration segment)
                       +:+ "," +:+ newline
                       +:+ seg_filename segment +:+ newline) <$> segments)
             +:+ "#EXT-X-ENDLIST")
       ∧ (∀ segment, segment ∈ segments →
            (seg_duration segment <= inject_Z target_duration)%Q)
       ∧ (∃ segment, segment ∈ segments
            ∧ (inject_Z target_duration - 1 < seg_duration segment)%Q))
  ∧ generate_hls_variant_playlist three_segments =
      Ok "#EXTM3U
#EXT-X-VERSION:3
#EXT-X-TARGETDURATION:6
#EXT-X-MEDIA-SEQUENCE:0
#EXTINF:6.000000,
segment_000.ts
#EXTINF:6.000000,
segment_001.ts
#EXTINF:5.420000,
segment_002.ts
#EXT-X-ENDLIST"
  ∧ generate_hls_variant_playlist
      [mkHlsSegment "a.ts" (Float64.of_decimal (78125 # 10000000)) 0;
       mkHlsSegment "b.ts" (Float64.of_decimal (234375 # 10000000)) 1;
       mkHlsSegment "c.ts" (Float64.of_decimal (65 # 10)) 2] =
      Ok "#EXTM3U
#EXT-X-VERSION:3
#EXT-X-TARGETDURATION:7
#EXT-X-MEDIA-SEQUENCE:0
#EXTINF:0.007812,
a.ts
#EXTINF:0.023438,
b.ts
#EXTINF:6.500000,
c.ts
#EXT-X-ENDLIST".
Proof.
  split; [|by vm_compute].
  intros [|s0 rest] Hne _; [done|].
  unfold generate_hls_variant_playlist.
  rewrite fmap_cons. simpl py_max. cbv zeta.
  set (m := max_from (seg_duration s0) (seg_duration <$> rest)).
  exists (ceil m). split; [|split].
  - rewrite add_segments_lines. f_equal.
    rewrite <- !app_comm_cons. rewrite app_nil_l.
    rewrite !join_cons
      by (try done; by destruct (flat_map segment_entry (s0 :: rest))).
    rewrite join_segment_entries. by rewrite !string_app_assoc.
  - destruct (max_from_spec (seg_duration s0) (seg_duration <$> rest))
      as (H0 & Hrest & _). fold m in H0, Hrest.
    intros s [->|Hs]%elem_of_cons.
    + eapply Qle_trans; [exact H0|apply Qle_ceiling].
    + rewrite Forall_fmap in Hrest. rewrite Forall_forall in Hrest.
      eapply Qle_trans; [exact (Hrest s Hs)|].
      apply Qle_ceiling.
  - destruct (max_from_spec (seg_duration s0) (seg_duration <$> rest))
      as (_ & _ & Hin). fold m in Hin.
    change (seg_duration s0 :: (seg_duration <$> rest))
      with (seg_duration <$> (s0 :: rest)) in Hin.
    apply list_elem_of_fmap in Hin as (s & Hm & Hs).
    exists s. split; [done|]. rewrite <- Hm.
    pose proof (Qceiling_lt m) as Hc. unfold ceil.
    unfold Z.sub in Hc. rewrite inject_Z_plus, inject_Z_opp in Hc.
    exact Hc.
Qed.

Lemma hls_variant_playlist_layout_witness :
  ∃ target_duration : Z,
    generate_hls_variant_playlist three_segments =
      Ok ("#EXTM3U" +:+ newline
          +:+ "#EXT-X-VERSION:3" +:+ newline
          +:+ "#EXT-X-TARGETDURATION:" +:+ str_int target_duration
          +:+ newline
          +:+ "#EXT-X-MEDIA-SEQUENCE:0" +:+ newline
          +:+ String.concat ""
                ((λ segment,
                    "#EXTINF:" +:+ format_fixed 6 (seg_duration segment)
                    +:+ "," +:+ newline
                    +:+ seg_filename segment +:+ newline) <$> three_segments)
          +:+ "#EXT-X-ENDLIST")
    ∧ (∀ segment, segment ∈ three_segments →
         (seg_duration segment <= inject_Z target_duration)%Q)
    ∧ (∃ segment, segment ∈ three_segments
         ∧ (inject_Z target_duration - 1 < seg_duration segment)%Q).
Proof.
  apply (proj1 hls_variant_playlist_layout three_segments).
  - discriminate.
  - repeat constructor.
Defined.

(** C10.  Both HLS playlist generators take the maximum of the segment
    durations first: on the empty list this raises a [ValueError] and no
    playlist is returned; on every non-empty list a playlist is
    returned. *)
Theorem hls_playlists_need_a_segment :
  generate_hls_variant_playlist []
    = Raise (ValueError "max() arg is an empty sequence")
  ∧ (∀ sequence_no,
       generate_hls_live_playlist [] sequence_no
       = Raise (ValueError "max() arg is an empty sequence"))
  ∧ (∀ segments,
       (∃ playlist, generate_hls_variant_playlist segments = Ok playlist)
       ↔ segments ≠ [])
  ∧ (∀ segments sequence_no,
       (∃ playlist,
          generate_hls_live_playlist segments sequence_no = Ok playlist)
       ↔ segments ≠ []).
Proof.
  split; [done|]. split; [done|]. split.
  - intros [|s rest]; split; try done.
    + by intros [? ?].
    + intros _. unfold generate_hls_variant_playlist. simpl. eauto.
  - intros [|s rest] n; split; try done.
    + by intros [? ?].
    + intros _. unfold generate_hls_live_playlist. simpl. eauto.
Qed.

End VariantPlaylist.

(** ** C8: the DASH segment timeline *)

Section DashTimeline.

Import ManifestGenerator Transcoder TranscoderScenario.

Lemma scan_segments_grows fuel run segment_duration i t acc segments :
  scan_segments fuel run segment_duration i t acc = Some segments →
  ∃ new, segments = acc ++ new ∧ contiguous_from i t new.
Proof.
  revert i t acc. induction fuel as [|fuel IH]; intros i t acc; simpl; [done|].
  case_bool_decide.
  - intros (new & -> & Hnew)%IH.
    eexists (_ :: new). rewrite <- app_assoc. split; [reflexivity|].
    simpl. done.
  - intros [= <-]. exists []. by rewrite app_nil_r.
Qed.

(** The scan ends: it can pass only through numbers of files that exist,
    and there are finitely many. *)
Lemma scan_segments_total fuel run segment_duration i t acc (files : gset Z) :
  (∀ j, i ≤ j → j ∈ run_segment_files run → j ∈ files) →
  (size files < fuel)%nat →
  is_Some (scan_segments fuel run segment_duration i t acc).
Proof.
  revert i t acc files.
  induction fuel as [|fuel IH]; intros i t acc files Hsub Hsize; [lia|].
  simpl. case_bool_decide as Hi; [|eauto].
  apply (IH _ _ _ (files ∖ {[i]})).
  - intros j Hj Hin. apply elem_of_difference. split; [apply Hsub; [lia|done]|].
    rewrite elem_of_singleton. lia.
  - assert (i ∈ files) as Hif by (apply Hsub; [lia|done]).
    rewrite size_difference by (by apply singleton_subseteq_l).
    rewrite size_singleton.
    assert (size files ≠ 0)%nat; [|lia].
    intros Hz%size_empty_inv. set_solver.
Qed.

Lemma contiguous_index i t segments k s :
  contiguous_from i t segments → segments !! k = Some s →
  dseg_index s = i + Z.of_nat k.
Proof.
  revert i t k. induction segments as [|s0 rest IH]; intros i t k; [done|].
  intros (Hi & Ht & Hrest). destruct k as [|k]; simpl.
  - intros [= <-]. lia.
  - intros Hk. rewrite (IH _ _ _ Hrest Hk). lia.
Qed.

Lemma contiguous_adjacent i t segments k a b :
  contiguous_from i t segments →
  segments !! k = Some a → segments !! S k = Some b →
  dseg_start b = dseg_start a + dseg_duration a.
Proof.
  revert i t k. induction segments as [|s0 rest IH]; intros i t k; [done|].
  intros (Hi & Ht & Hrest). destruct k as [|k]; simpl.
  - intros [= <-] Hb. destruct rest as [|s1 rest]; [done|].
    simpl in Hb. injection Hb as <-. destruct Hrest as (_ & -> & _). lia.
  - intros Ha Hb. by eapply IH.
Qed.

Lemma contiguous_sorted i t segments :
  contiguous_from i t segments →
  Forall (λ s, 0 < dseg_duration s) segments →
  Sorted Z.lt (dseg_start <$> segments).
Proof.
  revert i t. induction segments as [|s0 rest IH]; intros i t; [constructor|].
  intros (Hi & Ht & Hrest) Hpos. inversion Hpos as [|? ? Hd Hpos']; subst.
  rewrite fmap_cons. constructor; [by eapply IH|].
  destruct rest as [|s1 rest]; [constructor|].
  rewrite fmap_cons. constructor. destruct Hrest as (_ & -> & _). lia.
Qed.

Lemma adaptation_timeline_generated adaptation timeline :
  ad_segment_timeline adaptation = Some timeline →
  adaptation_timeline (adaptation_set adaptation)
  = (λ s, (Some (str_int (dseg_start s)), Some (str_int (dseg_duration s))))
    <$> timeline.
Proof.
  intros Htl. unfold adaptation_timeline, adaptation_set, elem_findall_path.
  rewrite Htl. simpl. rewrite !app_nil_r.
  unfold elem_findall. simpl. clear Htl.
  induction timeline as [|s rest IH]; [done|].
  rewrite fmap_cons, filter_cons_True by done.
  rewrite fmap_cons, IH. done.
Qed.

(** C8, as the specification states it, fails in its last part: a first
    segment probed at less than a millisecond gets duration 0, the next
    segment starts at the same [t], and the MPD carries two [S] elements
    with [t="0"]. *)
Lemma empty_segment_repeats_start_time :
  _transcode_for_dash 3 empty_first_segment 4
    = Some (Ok [mkDashSegment 1 0 0; mkDashSegment 2 0 4000])
  ∧ ¬ Sorted Z.lt
        (dseg_start <$> [mkDashSegment 1 0 0; mkDashSegment 2 0 4000])
  ∧ adaptation_timeline
      (adaptation_set
         (mkAdaptation "video_240p" "video/mp4" "avc1.64001f" 426 240 300000
            (Some [mkDashSegment 1 0 0; mkDashSegment 2 0 4000]) None))
    = [(Some "0", Some "0"); (Some "0", Some "4000")].
Proof.
  split; [by vm_compute|]. split; [|by vm_compute].
  intros H. inversion H as [|? ? _ Hhd]; subst.
  inversion Hhd; subst. lia.
Qed.

(** C8 (amended).  The scan of the DASH output ends, and in the list it
    returns the segments are numbered 1, 2, ..., the first one starts at
    0 and every next one starts where the previous one ended
    (t_{i+1} = t_i + d_i, in milliseconds); the [S] elements of the MPD
    carry exactly these [t] and [d], in the same order.  The start times
    are strictly ascending when every duration is positive. *)
Theorem dash_timeline_is_contiguous run segment_duration fuel :
  (size (run_segment_files run) < fuel)%nat →
  ∃ outcome,
    _transcode_for_dash fuel run segment_duration = Some outcome
    ∧ ∀ segments,
        outcome = Ok segments →
        (∀ k s, segments !! k = Some s → dseg_index s = 1 + Z.of_nat k)
        ∧ (∀ s, head segments = Some s → dseg_start s = 0)
        ∧ (∀ k a b,
             segments !! k = Some a → segments !! S k = Some b →
             dseg_start b = dseg_start a + dseg_duration a)
        ∧ (Forall (λ s, 0 < dseg_duration s) segments →
           Sorted Z.lt (dseg_start <$> segments))
        ∧ (∀ adaptation,
             ad_segment_timeline adaptation = Some segments →
             adaptation_timeline (adaptation_set adaptation)
             = (λ s, (Some (str_int (dseg_start s)),
                      Some (str_int (dseg_duration s))))
               <$> segments).
Proof.
  intros Hfuel. unfold _transcode_for_dash.
  case_bool_decide; [|eexists; split; [reflexivity|done]].
  destruct (scan_segments_total fuel run segment_duration 1 0 []
              (run_segment_files run)) as [segments Hscan]; [done|done|].
  rewrite Hscan. eexists. split; [reflexivity|].
  intros ? [= <-].
  apply scan_segments_grows in Hscan as (new & -> & Hc). simpl.
  split; [|split; [|split; [|split]]].
  - intros k s Hk. by eapply contiguous_index.
  - intros s Hs. destruct new as [|s0 rest]; [done|].
    injection Hs as ->. by destruct Hc as (_ & ? & _).
  - intros k a b. by eapply contiguous_adjacent.
  - by eapply contiguous_sorted.
  - intros adaptation. apply adaptation_timeline_generated.
Qed.

Lemma dash_timeline_is_contiguous_witness :
  _transcode_for_dash 4 three_files 4
    = Some (Ok [mkDashSegment 1 0 4000; mkDashSegment 2 4000 4000;
                mkDashSegment 3 8000 2500])
  ∧ Sorted Z.lt [0; 4000; 8000].
Proof.
  destruct (dash_timeline_is_contiguous three_files 4 4)
    as (outcome & Hrun & Hprops).
  - vm_compute. lia.
  - split; [by vm_compute|].
    assert (outcome = Ok [mkDashSegment 1 0 4000; mkDashSegment 2 4000 4000;
                          mkDashSegment 3 8000 2500]) as Hout.
    { vm_compute in Hrun. by injection Hrun as <-. }
    destruct (Hprops _ Hout) as (_ & _ & _ & Hsorted & _).
    apply Hsorted. repeat constructor.
Defined.

End DashTimeline.

(** ** C9: the sweeps of the cleanup worker *)

Section Sweeps.

Import CleanupWorker.

Context {S : Type} (svc : Services S).

Lemma cleanup_failed_processing_ok now video_id s :
  ∃ s', cleanup_failed_processing svc now video_id s = (s', Ok tt).
Proof.
  unfold cleanup_failed_processing, try_except.
  match goal with |- context [match ?c with _ => _ end] => destruct c as [s' [[]|e]] end;
    eauto.
Qed.

(** A loop over [before ++ after] is the loop over [before] and, if that
    went through, the loop over [after] on what it left. *)
Lemma expired_loop_app expiration_str before after cleaned s :
  expired_loop svc expiration_str (before ++ after) cleaned s =
    match expired_loop svc expiration_str before cleaned s with
    | (s1, Ok cleaned1) => expired_loop svc expiration_str after cleaned1 s1
    | (s1, Raise e) => (s1, Raise e)
    end.
Proof.
  revert cleaned s. induction before as [|video rest IH]; intros cleaned s;
    simpl; [done|].
  destruct (String.ltb expiration_str (md_created_at video)); [apply IH|].
  destruct (negb (md_allow_cleanup video)); [apply IH|].
  unfold Py.bind. destruct (cleanup_video svc (md_id video) s) as [s1 [[]|e]];
    [apply IH|done].
Qed.

Lemma stalled_loop_app now stall_str stall_hours before after recovered s :
  stalled_loop svc now stall_str stall_hours (before ++ after) recovered s =
    match stalled_loop svc now stall_str stall_hours before recovered s with
    | (s1, Ok recovered1) =>
        stalled_loop svc now stall_str stall_hours after recovered1 s1
    | (s1, Raise e) => (s1, Raise e)
    end.
Proof.
  revert recovered s. induction before as [|video rest IH];
    intros recovered s; simpl; [done|].
  destruct (String.ltb stall_str (md_updated_at video)); [apply IH|].
  unfold Py.bind.
  destruct (svc_get_video_metadata svc (md_id video) s) as [s1 [metadata|e]];
    [|done].
  destruct (svc_save_metadata svc (md_id video) _ s1) as [s2 [[]|e]]; [|done].
  destruct (cleanup_failed_processing svc now (md_id video) s2)
    as [s3 [[]|e]]; [|done].
  destruct (svc_update_video_metadata svc (md_id video) _ s3) as [s4 b].
  apply IH.
Qed.

(** What one record costs the expired sweep: a record that is not
    expired, or not marked for cleanup, is passed over; an expired and
    marked one is handled by [cleanup_video], and the loop goes on when
    that went through. *)
Lemma expired_loop_step expiration_str video rest cleaned s :
  expired_loop svc expiration_str (video :: rest) cleaned s =
    if String.ltb expiration_str (md_created_at video)
       || negb (md_allow_cleanup video)
    then expired_loop svc expiration_str rest cleaned s
    else match cleanup_video svc (md_id video) s with
         | (s1, Ok _) =>
             expired_loop svc expiration_str rest (cleaned ++ [md_id video]) s1
         | (s1, Raise e) => (s1, Raise e)
         end.
Proof.
  simpl. destruct (String.ltb expiration_str (md_created_at video)); [done|].
  destruct (negb (md_allow_cleanup video)); [done|].
  unfold Py.bind. by destruct (cleanup_video svc (md_id video) s) as [s1 [[]|e]].
Qed.

(** [cleanup_video] fails when one of its two calls fails, with the
    state that call left. *)
Lemma cleanup_video_raises video_id s s1 e :
  svc_delete_directory svc ("videos/" +:+ video_id) s = (s1, Raise e)
  ∨ (∃ s0, svc_delete_directory svc ("videos/" +:+ video_id) s = (s0, Ok tt)
           ∧ svc_delete_metadata svc video_id s0 = (s1, Raise e)) →
  cleanup_video svc video_id s =
    (s1, Raise (StorageError "cleanup_video"
                  ("Failed to clean up video: " +:+ str e))).
Proof.
  unfold cleanup_video, try_except, Py.bind.
  intros [->|(s0 & -> & ->)]; done.
Qed.

(** C9 (amended).  In both sweeps the loop over the candidate records
    sits inside one [try] block, so the first record whose handling
    fails ends the sweep.  For the expired sweep: when the listing gave
    [before ++ video :: after], the records of [before] went through,
    [video] is expired and marked for cleanup, and removing its
    directory or its metadata document raises, then the sweep raises a
    [StorageError] on the state that call left, whatever [after] holds:
    those records are not handled.  For the stalled sweep the same holds
    when reading or writing the record of a stalled [video] raises.  A
    record is handled only after the one before it went through, and a
    sweep returns a list only when every record it handled went through;
    a listing that fails ends the sweep as well.  Only what fails inside
    [cleanup_failed_processing] is swallowed. *)
Theorem sweeps_stop_at_first_failure :
  (∀ now video_id s,
     ∃ s', cleanup_failed_processing svc now video_id s = (s', Ok tt))
  ∧ (∀ expiration_str s s0 before video after cleaned s1 s2 e,
       svc_list_videos svc [] 0 1000 s = (s0, Ok (before ++ video :: after)) →
       expired_loop svc expiration_str before [] s0 = (s1, Ok cleaned) →
       String.ltb expiration_str (md_created_at video) = false →
       md_allow_cleanup video = true →
       svc_delete_directory svc ("videos/" +:+ md_id video) s1 = (s2, Raise e)
       ∨ (∃ s', svc_delete_directory svc ("videos/" +:+ md_id video) s1
                = (s', Ok tt)
                ∧ svc_delete_metadata svc (md_id video) s' = (s2, Raise e)) →
       cleanup_expired_content svc expiration_str s =
         (s2, Raise (StorageError "cleanup_expired"
                       ("Failed to clean up expired content: "
                        +:+ str (StorageError "cleanup_video"
                                   ("Failed to clean up video: " +:+ str e))))))
  ∧ (∀ now stall_str stall_hours s s0 before video after recovered s1 s2 e,
       svc_list_videos svc [("status", "processing")] 0 100 s
         = (s0, Ok (before ++ video :: after)) →
       stalled_loop svc now stall_str stall_hours before [] s0
         = (s1, Ok recovered) →
       String.ltb stall_str (md_updated_at video) = false →
       svc_get_video_metadata svc (md_id video) s1 = (s2, Raise e)
       ∨ (∃ s' metadata,
            svc_get_video_metadata svc (md_id video) s1 = (s', Ok metadata)
            ∧ svc_save_metadata svc (md_id video)
                (with_stalled_at now
                   (with_error (stalled_message stall_hours)
                      (with_status "error" metadata))) s'
              = (s2, Raise e)) →
       recover_stalled_processing svc now stall_str stall_hours s =
         (s2, Raise (StorageError "recover_stalled"
                       ("Failed to recover stalled processing: " +:+ str e))))
  ∧ (∀ expiration_str video rest cleaned s,
       expired_loop svc expiration_str [] cleaned s = (s, Ok cleaned)
       ∧ expired_loop svc expiration_str (video :: rest) cleaned s =
           if String.ltb expiration_str (md_created_at video)
              || negb (md_allow_cleanup video)
           then expired_loop svc expiration_str rest cleaned s
           else match cleanup_video svc (md_id video) s with
                | (s1, Ok _) =>
                    expired_loop svc expiration_str rest
                      (cleaned ++ [md_id video]) s1
                | (s1, Raise e) => (s1, Raise e)
                end)
  ∧ (∀ expiration_str s s0 videos s1 cleaned,
       svc_list_videos svc [] 0 1000 s = (s0, Ok videos) →
       (expired_loop svc expiration_str videos [] s0 = (s1, Ok cleaned)
        ↔ cleanup_expired_content svc expiration_str s = (s1, Ok cleaned)))
  ∧ (∀ now stall_str stall_hours s s0 videos s1 recovered,
       svc_list_videos svc [("status", "processing")] 0 100 s
         = (s0, Ok videos) →
       (stalled_loop svc now stall_str stall_hours videos [] s0
          = (s1, Ok recovered)
        ↔ recover_stalled_processing svc now stall_str stall_hours s
          = (s1, Ok recovered)))
  ∧ (∀ now expiration_str stall_str stall_hours s s0 e,
       (svc_list_videos svc [] 0 1000 s = (s0, Raise e) →
        cleanup_expired_content svc expiration_str s =
          (s0, Raise (StorageError "cleanup_expired"
                        ("Failed to clean up expired content: " +:+ str e))))
       ∧ (svc_list_videos svc [("status", "processing")] 0 100 s
            = (s0, Raise e) →
          recover_stalled_processing svc now stall_str stall_hours s =
            (s0, Raise (StorageError "recover_stalled"
                          ("Failed to recover stalled processing: "
                           +:+ str e))))).
Proof.
  split; [apply cleanup_failed_processing_ok|].
  split; [|split; [|split; [|split; [|split]]]].
  - intros e_str s s0 before video after cleaned s1 s2 e
      Hlist Hbefore Hexpired Hallow Hfail.
    unfold cleanup_expired_content, try_except, Py.bind. rewrite Hlist.
    rewrite expired_loop_app, Hbefore, expired_loop_step.
    rewrite Hexpired, Hallow. simpl.
    by rewrite (cleanup_video_raises _ _ _ _ Hfail).
  - intros now st h s s0 before video after recovered s1 s2 e
      Hlist Hbefore Hstalled Hfail.
    unfold recover_stalled_processing, try_except, Py.bind. rewrite Hlist.
    rewrite stalled_loop_app, Hbefore. simpl. rewrite Hstalled.
    unfold Py.bind.
    destruct Hfail as [->|(s' & metadata & -> & ->)]; done.
  - intros e_str video rest cleaned s. split; [done|apply expired_loop_step].
  - intros e_str s s0 videos s1 cleaned Hlist.
    unfold cleanup_expired_content, try_except, Py.bind. rewrite Hlist.
    destruct (expired_loop svc e_str videos [] s0) as [s' [c|e]];
      split; intros H; by inversion H.
  - intros now st h s s0 videos s1 recovered Hlist.
    unfold recover_stalled_processing, try_except, Py.bind. rewrite Hlist.
    destruct (stalled_loop svc now st h videos [] s0) as [s' [c|e]];
      split; intros H; by inversion H.
  - intros now e_str st h s s0 e. split; intros Hlist.
    + unfold cleanup_expired_content, try_except, Py.bind. by rewrite Hlist.
    + unfold recover_stalled_processing, try_except, Py.bind. by rewrite Hlist.
Qed.

End Sweeps.

Section SweepExamples.

Import CleanupWorker SweepScenario.

(** C9, as the specification states it, fails on the worker as it is
    wired.  Of two expired records that may be cleaned up the sweep
    meets the newer one first; handling it fails, the sweep raises, and
    both records are still there: the second one was not handled.  Of
    two records stalled in processing the stalled sweep handles none: it
    returns the empty list and both are still in processing. *)
Lemma sweep_aborts_on_first_failing_record :
  let expired := cleanup_expired_content worker_services "2024-06-01T00:00:00"
                   expired_world in
  let stalled := recover_stalled_processing worker_services
                   "2024-05-01T08:00:00" "2024-05-01T04:00:00" 4
                   stalled_world in
  svc_list_videos worker_services [] 0 1000 expired_world
    = (expired_world,
       Ok [TestServices.doc "a" "ready" "2024-01-02T00:00:00"
             "2024-01-02T01:00:00" true;
           TestServices.doc "b" "ready" "2024-01-01T00:00:00"
             "2024-01-01T01:00:00" true])
  ∧ expired.2 = Raise (StorageError "cleanup_expired"
      "Failed to clean up expired content: Storage error during cleanup_video: Failed to clean up video: 'StorageService' object has no attribute 'delete_directory'")
  ∧ expired.1 = expired_world
  ∧ stalled.2 = Ok []
  ∧ stalled.1 = stalled_world
  ∧ md_status <$> metadata_docs stalled.1 !! "a" = Some "processing"
  ∧ md_status <$> metadata_docs stalled.1 !! "b" = Some "processing".
Proof. vm_compute. done. Qed.

Lemma sweeps_stop_at_first_failure_witness :
  cleanup_expired_content worker_services "2024-06-01T00:00:00" expired_world =
    (expired_world,
     Raise (StorageError "cleanup_expired"
              ("Failed to clean up expired content: "
               +:+ str (StorageError "cleanup_video"
                          ("Failed to clean up video: "
                           +:+ str (WorkerServices.no_attribute
                                      "delete_directory")))))).
Proof.
  refine (proj1 (proj2 (sweeps_stop_at_first_failure worker_services))
            "2024-06-01T00:00:00" expired_world expired_world []
            (TestServices.doc "a" "ready" "2024-01-02T00:00:00"
               "2024-01-02T01:00:00" true)
            [TestServices.doc "b" "ready" "2024-01-01T00:00:00"
               "2024-01-01T01:00:00" true]
            [] expired_world expired_world _ _ _ _ _ _).
  - vm_compute. reflexivity.
  - reflexivity.
  - reflexivity.
  - reflexivity.
  - left. reflexivity.
Defined.

(** The same on services that work, with a fault at one record: of two
    expired records the directory of the first cannot be removed; the
    sweep raises and the second record, which could have been removed,
    is still there.  Of two stalled records the document of the first
    cannot be written: the sweep raises and the second one is still in
    processing. *)
Example sweep_aborts_with_a_fault_at_one_record :
  let expired := cleanup_expired_content TestServices.services
                   "2024-06-01T00:00:00" TestServices.two_expired in
  let stalled := recover_stalled_processing TestServices.services
                   "2024-05-01T08:00:00" "2024-05-01T04:00:00" 4
                   TestServices.two_stalled in
  expired.2 = Raise (StorageError "cleanup_expired"
      "Failed to clean up expired content: Storage error during cleanup_video: Failed to clean up video: Storage error during delete_directory: Failed to delete directory: Permission denied")
  ∧ md_id <$> TestServices.st_docs expired.1 = ["a"; "b"]
  ∧ (cleanup_video TestServices.services "b" TestServices.two_expired).2 = Ok tt
  ∧ stalled.2 = Raise (StorageError "recover_stalled"
      "Failed to recover stalled processing: Storage error during save_metadata: Failed to save metadata: Permission denied")
  ∧ (λ m, (md_id m, md_status m)) <$> TestServices.st_docs stalled.1
    = [("a", "processing"); ("b", "processing")].
Proof. vm_compute. done. Qed.

End SweepExamples.

(* ================================================================== *)
(** * Further properties of the code around the claims *)
(* ================================================================== *)

(** ** Files of the backends *)

Section BackendFiles.

Implicit Types (w : World) (path dir q : string).

Lemma lookup_filter_keys {A} (pk : string → bool) (m : gmap string A) q :
  filter (λ kv, pk kv.1 = false) m !! q = if pk q then None else m !! q.
Proof.
  destruct (pk q) eqn:Hq.
  - apply map_lookup_filter_None. right. intros x _. simpl. congruence.
  - destruct (m !! q) as [x|] eqn:Hm.
    + by apply map_lookup_filter_Some.
    + apply map_lookup_filter_None. by left.
Qed.

Lemma tree_of_set_same path f w :
  tree_of path (set_tree_of path f w) = f (tree_of path w).
Proof. unfold tree_of, set_tree_of. by destruct (BackendCommon.routes_to_processed path). Qed.

Lemma tree_of_set path q f w :
  tree_of q (set_tree_of path f w)
  = if bool_decide (BackendCommon.routes_to_processed q
                    = BackendCommon.routes_to_processed path)
    then f (tree_of q w) else tree_of q w.
Proof.
  unfold tree_of, set_tree_of.
  destruct (BackendCommon.routes_to_processed q),
    (BackendCommon.routes_to_processed path); done.
Qed.

Lemma metadata_set_tree path f w :
  metadata_docs (set_tree_of path f w) = metadata_docs w.
Proof. unfold set_tree_of. by destruct (BackendCommon.routes_to_processed path). Qed.


Lemma stored_file_tree q w : stored_file q w = tree_of q w !! q.
Proof. unfold stored_file, tree_of. by destruct (BackendCommon.routes_to_processed q). Qed.

Lemma under_self dir : under dir dir = false.
Proof.
  unfold under. induction dir as [|c dir IH]; [done|].
  rewrite string_app_cons. simpl. by destruct (ascii_dec c c).
Qed.

Lemma tree_of_set_directories path f w :
  tree_of path (set_directories f w) = tree_of path w.
Proof. unfold tree_of. by destruct (BackendCommon.routes_to_processed path). Qed.

Lemma has_entries_None dir (files : gmap string (list byte)) q :
  has_entries dir files = false → under dir q = true → files !! q = None.
Proof.
  unfold has_entries. intros Hdir%bool_decide_eq_false Hq.
  destruct (files !! q) as [c|] eqn:Hc; [|done].
  exfalso. apply Hdir. intros Hempty.
  assert (filter (λ kv, under dir kv.1 = true) files !! q = Some c) as Hin
    by (by apply map_lookup_filter_Some).
  by rewrite Hempty, lookup_empty in Hin.
Qed.

Lemma has_entries_filter dir (files : gmap string (list byte)) :
  has_entries dir (filter (λ kv, under dir kv.1 = false) files) = false.
Proof.
  unfold has_entries. apply bool_decide_eq_false. intros Hne. apply Hne.
  apply map_eq. intros k. rewrite lookup_empty.
  match goal with |- ?m !! k = None => destruct (m !! k) eqn:Hk; [|done] end.
  apply map_lookup_filter_Some in Hk as [Hk Htrue].
  apply map_lookup_filter_Some in Hk as [_ Hfalse].
  simpl in *. congruence.
Qed.




(** X2.  The local [delete_file] on a stored file removes it and nothing
    else: afterwards [file_exists] answers no, [get_file] raises a
    [StorageError], every other path holds what it held, and a second
    [delete_file] succeeds without a change.  On a directory with content
    it raises a [StorageError] and deletes nothing. *)
Theorem local_delete_file_effect path w :
  (is_Some (tree_of path w !! path) →
   ∃ w1,
     LocalFiles.delete_file path w = (w1, Ok tt)
     ∧ LocalFiles.file_exists path w1 = (w1, Ok false)
     ∧ (∃ detail,
          LocalFiles.get_file path w1 = (w1, Raise (StorageError "get_file" detail)))
     ∧ (∀ q, q ≠ path → stored_file q w1 = stored_file q w)
     ∧ metadata_docs w1 = metadata_docs w
     ∧ (has_entries path (tree_of path w) = false →
        LocalFiles.delete_file path w1 = (w1, Ok tt)))
  ∧ (tree_of path w !! path = None →
     has_entries path (tree_of path w) = true →
     ∃ detail,
       LocalFiles.delete_file path w = (w, Raise (StorageError "delete_file" detail))).
Proof.
  split.
  - intros [c Hfile]. unfold LocalFiles.delete_file, try_except. rewrite Hfile.
    eexists. split; [reflexivity|].
    set (w1 := set_directories _ _).
    assert (tree_of path w1 = delete path (tree_of path w)) as Htree
      by (unfold w1; by rewrite tree_of_set_directories, tree_of_set_same).
    assert (tree_of path w1 !! path = None)
      as Hgone by (by rewrite Htree, lookup_delete_eq).
    unfold LocalFiles.file_exists, LocalFiles.get_file, try_except.
    rewrite Hgone. split.
    { rewrite bool_decide_eq_false_2; [done|]. by intros [? ?]. }
    split.
    { destruct (is_directory _ _ path _); unfold Py.raise; eauto. }
    split.
    { intros q Hq. rewrite !stored_file_tree. unfold w1.
      rewrite tree_of_set_directories, tree_of_set.
      case_bool_decide; [|done]. by rewrite lookup_delete_ne. }
    split; [unfold w1; simpl; apply metadata_set_tree|].
    intros Hdir.
    assert (has_entries path (tree_of path w1) = false) as ->; [|done].
    rewrite Htree. unfold has_entries in *.
    apply bool_decide_eq_false in Hdir. apply bool_decide_eq_false.
    intros Hne. apply Hdir. intros Hempty. apply Hne.
    apply map_eq. intros k. rewrite lookup_empty.
    apply map_lookup_filter_None.
    destruct (decide (k = path)) as [->|Hk]; [left; apply lookup_delete_eq|].
    rewrite lookup_delete_ne by done.
    assert (filter (λ kv, under path kv.1 = true) (tree_of path w) !! k = None)
      as Hk' by (by rewrite Hempty, lookup_empty).
    by apply map_lookup_filter_None in Hk'.
  - intros Hfile Hdir. unfold LocalFiles.delete_file, try_except.
    rewrite Hfile, Hdir. unfold Py.raise. eauto.
Qed.

Lemma local_delete_file_effect_witness :
  ∃ w1,
    LocalFiles.delete_file (chunk_path "v" 0) Scenario.one_of_two = (w1, Ok tt)
    ∧ LocalFiles.file_exists (chunk_path "v" 0) w1 = (w1, Ok false)
    ∧ (∃ detail,
         LocalFiles.get_file (chunk_path "v" 0) w1
         = (w1, Raise (StorageError "get_file" detail)))
    ∧ (∀ q, q ≠ chunk_path "v" 0 →
         stored_file q w1 = stored_file q Scenario.one_of_two)
    ∧ metadata_docs w1 = metadata_docs Scenario.one_of_two
    ∧ (has_entries (chunk_path "v" 0)
         (tree_of (chunk_path "v" 0) Scenario.one_of_two) = false →
       LocalFiles.delete_file (chunk_path "v" 0) w1 = (w1, Ok tt)).
Proof.
  apply (proj1 (local_delete_file_effect (chunk_path "v" 0) Scenario.one_of_two)).
  vm_compute. eauto.
Defined.

Lemma string_length_app (s t : string) :
  String.length (s +:+ t) = (String.length s + String.length t)%nat.
Proof. induction s as [|c s IH]; simpl; [done|]. by rewrite IH. Qed.

Lemma prefix_length (s t : string) :
  String.prefix s t = true → (String.length s ≤ String.length t)%nat.
Proof.
  revert t. induction s as [|c s IH]; intros [|d t]; simpl; try done; try lia.
  destruct (ascii_dec c d); [|done]. intros H%IH. lia.
Qed.

Lemma dirname_length (p : string) :
  p ≠ "" → (String.length (dirname p) < String.length p)%nat.
Proof.
  induction p as [|c r IH]; [done|]. intros _. simpl.
  destruct (has_slash r) eqn:Hr; simpl; [|lia].
  assert (r ≠ "") by (by destruct r). specialize (IH ltac:(done)). lia.
Qed.

(** The directory a path lies in is neither the path nor inside it. *)
Lemma parent_outside base dir p :
  parent dir = Some p →
  bool_decide (base +:+ "/" +:+ p = base +:+ "/" +:+ dir)
  || under (base +:+ "/" +:+ dir) (base +:+ "/" +:+ p) = false.
Proof.
  unfold parent. destruct (has_slash dir) eqn:Hs; [|done]. intros [= <-].
  assert (dir ≠ "") as Hne by (by destruct dir).
  pose proof (dirname_length dir Hne) as Hlen.
  apply orb_false_intro.
  - apply bool_decide_eq_false. intros Heq.
    apply (f_equal String.length) in Heq.
    rewrite !string_length_app in Heq. lia.
  - unfold under. destruct (String.prefix _ _) eqn:Hp; [|done].
    apply prefix_length in Hp. rewrite !string_length_app in Hp.
    simpl in Hp. lia.
Qed.

(** What the local [delete_directory] leaves on a path that is not a
    regular file: the files outside the directory, and no directory at
    the path. *)
Lemma local_delete_directory_Ok dir w :
  tree_of dir w !! dir = None →
  ∃ w1,
    LocalFiles.delete_directory dir w = (w1, Ok tt)
    ∧ (∀ q, tree_of q w1
            = tree_of q (set_tree_of dir
                           (filter (λ kv, under dir kv.1 = false)) w))
    ∧ metadata_docs w1 = metadata_docs w
    ∧ is_directory (base_of dir) (tree_of dir w1) dir w1 = false.
Proof.
  intros Hfile. unfold LocalFiles.delete_directory, try_except. rewrite Hfile.
  destruct (is_directory (base_of dir) (tree_of dir w) dir w) eqn:Hdir.
  - eexists. split; [reflexivity|].
    split; [intros q; apply tree_of_set_directories|].
    split; [apply metadata_set_tree|].
    unfold is_directory.
    rewrite tree_of_set_directories, tree_of_set_same, has_entries_filter.
    simpl. apply bool_decide_eq_false. intros Hne. apply Hne.
    apply leibniz_equiv, elem_of_equiv_empty. intros d.
    rewrite elem_of_filter. intros [Hd Hin].
    assert (directories
              (set_tree_of dir (filter (λ kv, under dir kv.1 = false)) w)
            = directories w) as Hsame
      by (unfold set_tree_of; by destruct (BackendCommon.routes_to_processed dir)).
    simpl in Hin. rewrite Hsame in Hin.
    unfold keep_parent in Hin.
    assert (d ∈ LocalFiles.directories_outside (base_of dir) dir (directories w)
            ∨ ∃ p, parent dir = Some p ∧ d = base_of dir +:+ "/" +:+ p)
      as [Hout|(p & Hp & ->)].
    { destruct (parent dir) as [p|]; [|by left].
      apply elem_of_union in Hin as [->%elem_of_singleton|]; eauto. }
    + unfold LocalFiles.directories_outside in Hout.
      apply elem_of_filter in Hout as [Hout _]. congruence.
    + rewrite (parent_outside _ _ _ Hp) in Hd. done.
  - eexists. split; [reflexivity|]. split; [|done].
    intros q. rewrite tree_of_set. case_bool_decide as Hq; [|done].
    symmetry. apply map_filter_id. intros k x Hk. simpl.
    destruct (under dir k) eqn:Hu; [|done].
    apply orb_false_elim in Hdir as [Hdir _].
    assert (tree_of q w = tree_of dir w) as Htree
      by (unfold tree_of; by rewrite Hq).
    rewrite Htree in Hk.
    by rewrite (has_entries_None _ _ _ Hdir Hu) in Hk.
Qed.

(** X3.  The paths are in their normal spelling.  The local
    [delete_directory] on a path that is not a regular file succeeds,
    and afterwards a path holds nothing if it lies inside the directory
    and is routed to the same tree as the directory, and holds what it
    held otherwise; in particular a file inside the directory that
    [save_file] routed to the other tree is still there.  No metadata
    document changes, the path is no directory any more, and a second
    call changes nothing.  On a regular file it raises a
    [StorageError]. *)
Theorem local_delete_directory_effect dir w :
  normal_world w →
  normal_path dir = true →
  (tree_of dir w !! dir = None →
   ∃ w1,
     LocalFiles.delete_directory dir w = (w1, Ok tt)
     ∧ (∀ q, normal_path q = true →
             stored_file q w1
             = if under dir q
                  && bool_decide (BackendCommon.routes_to_processed q
                                  = BackendCommon.routes_to_processed dir)
               then None else stored_file q w)
     ∧ metadata_docs w1 = metadata_docs w
     ∧ is_directory (base_of dir) (tree_of dir w1) dir w1 = false
     ∧ LocalFiles.delete_directory dir w1 = (w1, Ok tt))
  ∧ (is_Some (tree_of dir w !! dir) →
     ∃ detail,
       LocalFiles.delete_directory dir w
       = (w, Raise (StorageError "delete_directory" detail))).
Proof.
  intros _ _. split.
  - intros Hfile.
    destruct (local_delete_directory_Ok dir w Hfile)
      as (w1 & Hrun & Htree & Hdocs & Hgone).
    exists w1. split; [done|]. split; [|split; [done|split; [done|]]].
    + intros q _. rewrite !stored_file_tree, Htree, tree_of_set.
      case_bool_decide.
      * rewrite (lookup_filter_keys (under dir)). by rewrite andb_true_r.
      * by rewrite andb_false_r.
    + unfold LocalFiles.delete_directory, try_except.
      rewrite Hgone, Htree, tree_of_set_same.
      by rewrite (lookup_filter_keys (under dir)), under_self, Hfile.
  - intros [c Hc]. unfold LocalFiles.delete_directory, try_except. rewrite Hc.
    unfold Py.raise. eauto.
Qed.

Lemma local_delete_directory_effect_witness :
  ∃ w1,
    LocalFiles.delete_directory "videos/v" Scenario.two_of_two = (w1, Ok tt)
    ∧ (∀ q, normal_path q = true →
            stored_file q w1
            = if under "videos/v" q
                 && bool_decide (BackendCommon.routes_to_processed q
                                 = BackendCommon.routes_to_processed "videos/v")
              then None else stored_file q Scenario.two_of_two)
    ∧ metadata_docs w1 = metadata_docs Scenario.two_of_two
    ∧ is_directory (base_of "videos/v") (tree_of "videos/v" w1) "videos/v" w1
      = false
    ∧ LocalFiles.delete_directory "videos/v" w1 = (w1, Ok tt).
Proof.
  apply (proj1 (local_delete_directory_effect "videos/v" Scenario.two_of_two
                  ltac:(repeat split; apply (bool_decide_unpack _);
                        vm_compute; exact I)
                  eq_refl)).
  vm_compute. reflexivity.
Defined.

(** X4.  The cloud [delete_directory] removes by name prefix: afterwards a
    path holds nothing if its name starts with the given text and it is
    routed to the same bucket, so [videos/ab] also takes the objects of a
    video [abc]; in the raw bucket a metadata document goes as well when
    its object name [metadata/{id}.json] starts with the text.  Everything
    else holds what it held. *)
Theorem gcs_delete_directory_effect dir w :
  ∃ w1,
    GCSFiles.delete_directory dir w = (w1, Ok tt)
    ∧ (∀ q, stored_file q w1
            = if String.prefix dir q
                 && bool_decide (BackendCommon.routes_to_processed q
                                 = BackendCommon.routes_to_processed dir)
              then None else stored_file q w)
    ∧ (∀ video_id,
         metadata_docs w1 !! video_id
         = if negb (BackendCommon.routes_to_processed dir)
              && String.prefix dir (GCSFiles.metadata_blob video_id)
           then None else metadata_docs w !! video_id).
Proof.
  unfold GCSFiles.delete_directory.
  destruct (BackendCommon.routes_to_processed dir) eqn:Hdir;
    (eexists; split; [reflexivity|]); split.
  - intros q. rewrite !stored_file_tree. unfold tree_of. simpl.
    destruct (BackendCommon.routes_to_processed q); simpl.
    + rewrite (lookup_filter_keys (String.prefix dir)). by rewrite andb_true_r.
    + by rewrite andb_false_r.
  - done.
  - intros q. rewrite !stored_file_tree. unfold tree_of. simpl.
    destruct (BackendCommon.routes_to_processed q); simpl.
    + by rewrite andb_false_r.
    + rewrite (lookup_filter_keys (String.prefix dir)). by rewrite andb_true_r.
  - intros video_id. simpl.
    apply (lookup_filter_keys (λ k, String.prefix dir (GCSFiles.metadata_blob k))).
Qed.

Lemma prefix_app_true (s t : string) : String.prefix s (s +:+ t) = true.
Proof.
  induction s as [|c s IH]; [by destruct t|].
  rewrite string_app_cons. simpl. by destruct (ascii_dec c c).
Qed.

Lemma prefix_app_weaken (s t k : string) :
  String.prefix (s +:+ t) k = true → String.prefix s k = true.
Proof.
  revert k. induction s as [|c s IH]; intros k; [by destruct k|].
  rewrite string_app_cons. destruct k as [|d k]; [done|]. simpl.
  destruct (ascii_dec c d); [apply IH|done].
Qed.

(** X5.  The paths are in their normal spelling.  On a path that is
    not a regular file the two backends' [delete_directory] give the same
    answer and leave the same files and metadata documents whenever the
    cloud one finds nothing more than the directory's content: no stored
    object of the path's bucket has a name that starts with the text
    without lying inside the directory, and, in the raw bucket, no
    metadata object name starts with it. *)
Theorem delete_directory_backends_agree dir w :
  normal_world w →
  normal_path dir = true →
  tree_of dir w !! dir = None →
  (∀ q, is_Some (tree_of dir w !! q) →
        String.prefix dir q = true → under dir q = true) →
  (BackendCommon.routes_to_processed dir = false →
   ∀ video_id, is_Some (metadata_docs w !! video_id) →
               String.prefix dir (GCSFiles.metadata_blob video_id) = false) →
  let local := LocalFiles.delete_directory dir w in
  let cloud := GCSFiles.delete_directory dir w in
  local.2 = Ok tt ∧ cloud.2 = Ok tt
  ∧ raw_files local.1 = raw_files cloud.1
  ∧ processed_files local.1 = processed_files cloud.1
  ∧ metadata_docs local.1 = metadata_docs cloud.1.
Proof.
  intros _ _ Hfile Hfiles Hdocs. simpl.
  destruct (local_delete_directory_Ok dir w Hfile)
    as (w1 & -> & Htree & Hmd & _). simpl.
  assert (filter (λ kv, under dir kv.1 = false) (tree_of dir w)
          = filter (λ kv, String.prefix dir kv.1 = false) (tree_of dir w)) as Hsame.
  { apply map_eq. intros q.
    rewrite (lookup_filter_keys (under dir)),
      (lookup_filter_keys (String.prefix dir)).
    destruct (under dir q) eqn:Hu.
    - unfold under in Hu. by rewrite (prefix_app_weaken _ _ _ Hu).
    - destruct (String.prefix dir q) eqn:Hp; [|done].
      destruct (tree_of dir w !! q) as [c|] eqn:Hq; [|done].
      rewrite Hfiles in Hu; [done|eauto|done]. }
  pose proof (Htree "") as Hraw.
  pose proof (Htree "videos//processed/") as Hprocessed.
  unfold GCSFiles.delete_directory.
  unfold set_tree_of, tree_of in *.
  change (BackendCommon.routes_to_processed "") with false in Hraw.
  change (BackendCommon.routes_to_processed "videos//processed/")
    with true in Hprocessed.
  simpl in Hraw, Hprocessed. rewrite Hmd.
  destruct (BackendCommon.routes_to_processed dir) eqn:Hdir; simpl in *.
  - rewrite Hraw, Hprocessed, Hsame. done.
  - rewrite Hraw, Hprocessed, Hsame. repeat split.
    symmetry. apply map_filter_id. intros video_id md Hdoc. simpl.
    apply Hdocs; eauto.
Qed.

Lemma delete_directory_backends_agree_witness :
  let local := LocalFiles.delete_directory "videos/v" Scenario.two_of_two in
  let cloud := GCSFiles.delete_directory "videos/v" Scenario.two_of_two in
  local.2 = Ok tt ∧ cloud.2 = Ok tt
  ∧ raw_files local.1 = raw_files cloud.1
  ∧ processed_files local.1 = processed_files cloud.1
  ∧ metadata_docs local.1 = metadata_docs cloud.1.
Proof.
  apply delete_directory_backends_agree.
  - repeat split; apply (bool_decide_unpack _); vm_compute; exact I.
  - reflexivity.
  - reflexivity.
  - intros q [c Hc].
    assert (map_Forall
              (λ q _, String.prefix "videos/v" q = true → under "videos/v" q = true)
              (tree_of "videos/v" Scenario.two_of_two)) as Hall
      by (apply (bool_decide_unpack _); vm_compute; exact I).
    exact (map_Forall_lookup_1 _ _ _ _ Hall Hc).
  - intros _ video_id [c Hc].
    assert (map_Forall
              (λ k _, String.prefix "videos/v" (GCSFiles.metadata_blob k) = false)
              (metadata_docs Scenario.two_of_two)) as Hall
      by (apply (bool_decide_unpack _); vm_compute; exact I).
    exact (map_Forall_lookup_1 _ _ _ _ Hall Hc).
Defined.

End BackendFiles.

(** ** Float arithmetic: what rounding keeps *)

Section Floats.

Implicit Types (q : Q) (k n m : Z).




















End Floats.

(** ** Chunk upload: acceptance, progress, failure *)

Section UploadMore.

Implicit Types (w : World) (video_id now : string) (user_id : option string).




(** X8.  A rejected [upload_chunk] never changes a metadata record, and it
    leaves the files as they were except in one case: with
    [total_chunks = 0] and a negative index on a record whose total is
    still zero, the chunk is stored before the division by zero makes the
    call fail. *)
Theorem upload_chunk_rejected_effect now video_id i n data user_id w :
  (∀ w' e,
     StorageService.upload_chunk now video_id i n data user_id w
       = (w', Raise e) →
     metadata_docs w' = metadata_docs w
     ∧ (w' = w
        ∨ n = 0 ∧ i < 0 ∧ stored_total_chunks video_id w = 0
          ∧ w' = (BackendCommon.save_file (chunk_path video_id i) data w).1))
  ∧ (∀ metadata,
       metadata_docs w !! video_id = Some metadata →
       truthy user_id = false ∨ md_owner_id metadata = user_id →
       md_total_chunks metadata = 0 → n = 0 → i < 0 →
       StorageService.upload_chunk now video_id i n data user_id w
       = ((BackendCommon.save_file (chunk_path video_id i) data w).1,
          Raise (UploadError "Failed to upload chunk: division by zero"))).
Proof.
  split.
  - intros w' e Hrun. split; [by eapply upload_chunk_raise_metadata|].
    destruct (metadata_docs w !! video_id) as [metadata|] eqn:Hdoc.
    + rewrite (upload_chunk_cases _ _ _ _ _ _ _ _ Hdoc) in Hrun.
      destruct (truthy user_id
                && negb (bool_decide (md_owner_id metadata = user_id)));
        [left; congruence|].
      cbv zeta in Hrun.
      destruct (bool_decide_reflect (n ≤ i)) as [|Hi]; [left; congruence|].
      destruct (bool_decide_reflect
                  (md_total_chunks
                     (if bool_decide (md_total_chunks metadata = 0)
                      then with_total_chunks n metadata else metadata) = n))
        as [Hsame|]; simpl in Hrun; [|left; congruence].
      destruct (bool_decide_reflect (n = 0)) as [->|]; [|congruence].
      right. injection Hrun as <- _.
      unfold stored_total_chunks. rewrite Hdoc.
      destruct (bool_decide_reflect (md_total_chunks metadata = 0));
        [|done].
      repeat split; [lia|done].
    + rewrite upload_chunk_no_record in Hrun by done. left. congruence.
  - intros metadata Hdoc Howner Hzero -> Hi.
    rewrite (upload_chunk_cases _ _ _ _ _ _ _ _ Hdoc).
    assert (truthy user_id
            && negb (bool_decide (md_owner_id metadata = user_id)) = false) as ->.
    { destruct Howner as [->| ->]; [done|].
      rewrite bool_decide_eq_true_2 by done. apply andb_false_r. }
    cbv zeta.
    rewrite (bool_decide_eq_false_2 (0 ≤ i)) by lia.
    rewrite (bool_decide_eq_true_2 (md_total_chunks metadata = 0)) by done.
    simpl. done.
Qed.

Lemma upload_chunk_rejected_effect_witness :
  StorageService.upload_chunk "2024-05-01T10:00:05" "v" (-1) 0 [x01]
    Scenario.alice Scenario.alice_video
  = ((BackendCommon.save_file (chunk_path "v" (-1)) [x01]
        Scenario.alice_video).1,
     Raise (UploadError "Failed to upload chunk: division by zero")).
Proof.
  apply (proj2 (upload_chunk_rejected_effect "2024-05-01T10:00:05" "v" (-1) 0
                  [x01] Scenario.alice Scenario.alice_video)
           (mkMetadata "v" "foo.mp4" (Some "alice") (Some "acme") "pending"
              "2024-05-01T10:00:00" "2024-05-01T10:00:00" 0%Q 0 0 None None
              None false false None)).
  - reflexivity.
  - right. reflexivity.
  - reflexivity.
  - reflexivity.
  - lia.
Defined.


End UploadMore.

(** ** Status, cancellation and deletion *)

Section StatusAndCancel.

Implicit Types (w : World) (video_id : string) (user_id : option string).

Lemma get_upload_status_eq video_id user_id w :
  StorageFacade.get_upload_status video_id user_id w =
    match metadata_docs w !! video_id with
    | Some metadata =>
        if StorageFacade.other_user user_id metadata
        then (w, Raise (VideoNotFoundError video_id))
        else (w, Ok (mkUploadStatus video_id (md_status metadata)
                       (md_upload_progress metadata)
                       (md_chunks_received metadata)
                       (md_total_chunks metadata)))
    | None => (w, Raise (VideoNotFoundError video_id))
    end.
Proof.
  unfold StorageFacade.get_upload_status, try_except, Py.bind.
  rewrite get_video_metadata_eq.
  destruct (metadata_docs w !! video_id) as [metadata|]; [|done].
  by destruct (StorageFacade.other_user user_id metadata).
Qed.

(** X10.  [get_upload_status] never changes the state, and it answers a
    caller who is not the owner exactly as it answers for a video that
    does not exist: two states that differ only in that one holds
    another owner's record under the id give the same answer,
    [VideoNotFoundError]. *)
Theorem get_upload_status_hides_other_owners video_id user_id w1 w2 metadata :
  metadata_docs w1 !! video_id = Some metadata →
  StorageFacade.other_user user_id metadata = true →
  metadata_docs w2 !! video_id = None →
  (StorageFacade.get_upload_status video_id user_id w1).1 = w1
  ∧ (StorageFacade.get_upload_status video_id user_id w2).1 = w2
  ∧ (StorageFacade.get_upload_status video_id user_id w1).2
    = Raise (VideoNotFoundError video_id)
  ∧ (StorageFacade.get_upload_status video_id user_id w2).2
    = Raise (VideoNotFoundError video_id).
Proof.
  intros Hdoc Hother Hnone. rewrite !get_upload_status_eq, Hdoc, Hother, Hnone.
  done.
Qed.

Lemma get_upload_status_hides_other_owners_witness :
  (StorageFacade.get_upload_status "v" (Some "bob") Scenario.one_of_two).1
  = Scenario.one_of_two
  ∧ (StorageFacade.get_upload_status "v" (Some "bob") Scenario.empty_world).1
    = Scenario.empty_world
  ∧ (StorageFacade.get_upload_status "v" (Some "bob") Scenario.one_of_two).2
    = Raise (VideoNotFoundError "v")
  ∧ (StorageFacade.get_upload_status "v" (Some "bob") Scenario.empty_world).2
    = Raise (VideoNotFoundError "v").
Proof.
  apply (get_upload_status_hides_other_owners "v" (Some "bob")
           Scenario.one_of_two Scenario.empty_world
           (mkMetadata "v" "foo.mp4" (Some "alice") (Some "acme") "pending"
              "2024-05-01T10:00:00" "2024-05-01T10:00:05"
              (Float64.mul (Float64.div 1 2) 100) 1 2 None None None false false
              None)).
  - vm_compute. reflexivity.
  - reflexivity.
  - reflexivity.
Defined.

(** X11.  After an accepted [upload_chunk], [get_upload_status] for the
    same caller reports the progress the upload returned, the count of
    chunks raised by one, the total of the call, and the status the record
    had before the upload. *)
Theorem status_after_upload_chunk now video_id i n data user_id w w' r metadata :
  metadata_docs w !! video_id = Some metadata →
  StorageService.upload_chunk now video_id i n data user_id w = (w', Ok r) →
  StorageFacade.get_upload_status video_id user_id w'
  = (w', Ok (mkUploadStatus video_id (md_status metadata) (res_progress r)
               (md_chunks_received metadata + 1) n)).
Proof.
  intros Hdoc Hrun.
  destruct (upload_chunk_ok_inv _ _ _ _ _ _ _ _ _ Hrun)
    as (metadata0 & Hdoc0 & Howner & Hi & Hn & Htotal & Hw').
  assert (metadata0 = metadata) as -> by congruence.
  rewrite get_upload_status_eq, Hw'. simpl. rewrite lookup_insert_eq.
  unfold StorageFacade.other_user. simpl.
  assert (truthy user_id
          && negb (bool_decide (md_owner_id metadata = user_id)) = false) as ->.
  { destruct Howner as [->| ->]; [done|].
    rewrite bool_decide_eq_true_2 by done. apply andb_false_r. }
  done.
Qed.

Lemma status_after_upload_chunk_witness :
  StorageFacade.get_upload_status "v" Scenario.alice Scenario.one_of_two
  = (Scenario.one_of_two,
     Ok (mkUploadStatus "v" "pending" (Float64.mul (Float64.div 1 2) 100)
           (0 + 1) 2)).
Proof.
  apply (status_after_upload_chunk "2024-05-01T10:00:05" "v" 0 2 [x01]
           Scenario.alice Scenario.alice_video Scenario.one_of_two
           (mkChunkResult "v" 0 2 (Float64.mul (Float64.div 1 2) 100) None)
           (mkMetadata "v" "foo.mp4" (Some "alice") (Some "acme") "pending"
              "2024-05-01T10:00:00" "2024-05-01T10:00:00" 0%Q 0 0 None None
              None false false None)).
  - reflexivity.
  - vm_compute. reflexivity.
Defined.


Lemma backend_delete_metadata_eq storage video_id w :
  backend_delete_metadata storage video_id w
  = (set_metadata (delete video_id) w, Ok tt).
Proof. by destruct storage. Qed.




(** X13.  [delete_video] leaves exactly the state [cancel_upload] leaves,
    on either backend, and the two succeed on the same inputs; when they
    fail with [VideoNotFoundError] it is the same error, otherwise each
    raises a [StorageError] under its own name. *)
Theorem delete_video_as_cancel_upload storage video_id user_id w :
  let deleted := StorageFacadeDelete.delete_video storage video_id user_id w in
  let cancelled := StorageFacade.cancel_upload storage video_id user_id w in
  deleted.1 = cancelled.1
  ∧ match deleted.2, cancelled.2 with
    | Ok _, Ok answer => answer = (video_id, "deleted")
    | Raise (VideoNotFoundError a), Raise (VideoNotFoundError b) => a = b
    | Raise (StorageError op1 _), Raise (StorageError op2 _) =>
        op1 = "delete_video" ∧ op2 = "cancel_upload"
    | _, _ => False
    end.
Proof.
  simpl.
  unfold StorageFacadeDelete.delete_video, StorageFacade.cancel_upload,
    try_except, Py.bind.
  rewrite get_video_metadata_eq.
  destruct (metadata_docs w !! video_id) as [metadata|]; [|done].
  destruct (StorageFacade.other_user user_id metadata); simpl; [done|].
  destruct (backend_delete_directory storage ("videos/" +:+ video_id) w)
    as [w1 [[]|e]] eqn:Hdel; simpl.
  - by rewrite backend_delete_metadata_eq.
  - assert (∃ op detail, e = StorageError op detail) as (op & detail & ->);
      [|done].
    destruct storage; simpl in Hdel.
    + unfold LocalFiles.delete_directory, try_except in Hdel.
      destruct (tree_of _ w !! _); [|destruct (is_directory _ _ _ _)];
        inversion Hdel; eauto.
    + unfold GCSFiles.delete_directory in Hdel.
      destruct (BackendCommon.routes_to_processed _); inversion Hdel.
Qed.

End StatusAndCancel.

(** ** The status and cancel routes, and the playlist URL *)

Section Routes.

Implicit Types (w : World) (video_id : string) (company_user : CompanyUser).

(** X14.  The status route answers with the facade's status for the
    owner's video and leaves the state alone; whenever the facade call
    fails (unknown video, another owner's video) the route does not raise
    the [HTTPException] 500 its handler is written to raise: the handler
    fails on the local name [status], which was never assigned. *)
Theorem status_route_failure video_id company_user w :
  let route := UploadRoutes.get_upload_status video_id company_user w in
  route.1 = w
  ∧ match metadata_docs w !! video_id with
    | Some metadata =>
        if StorageFacade.other_user (cu_user_id company_user) metadata
        then route.2 = RaisedUnboundLocalError "status"
        else route.2 = Returned (mkUploadStatus video_id (md_status metadata)
                                   (md_upload_progress metadata)
                                   (md_chunks_received metadata)
                                   (md_total_chunks metadata))
    | None => route.2 = RaisedUnboundLocalError "status"
    end
  ∧ (∀ e, route.2 ≠ Raised e).
Proof.
  simpl. unfold UploadRoutes.get_upload_status.
  rewrite get_upload_status_eq.
  destruct (metadata_docs w !! video_id) as [metadata|]; [|done].
  by destruct (StorageFacade.other_user (cu_user_id company_user) metadata).
Qed.

(** X15.  The cancel route changes the state exactly as the facade's
    [cancel_upload]; it answers [deleted] with the id when that succeeds,
    and turns every failure of it, an unknown video included, into the
    [HTTPException] 500 [Error canceling upload]. *)
Theorem cancel_route_failure storage video_id company_user w :
  let facade :=
    StorageFacade.cancel_upload storage video_id (cu_user_id company_user) w in
  let route := UploadRoutes.cancel_upload storage video_id company_user w in
  route.1 = facade.1
  ∧ route.2 = match facade.2 with
              | Ok _ => Ok ("deleted", video_id)
              | Raise _ => Raise (HTTPException 500 "Error canceling upload")
              end.
Proof.
  simpl. unfold UploadRoutes.cancel_upload, try_except, Py.bind.
  destruct (StorageFacade.cancel_upload storage video_id
              (cu_user_id company_user) w) as [w' [answer|e]] eqn:Hrun;
    simpl; [done|].
  assert (e = VideoNotFoundError video_id ∨ ∃ op detail, e = StorageError op detail)
    as [->|(op & detail & ->)]; [|done..].
  unfold StorageFacade.cancel_upload, try_except, Py.bind in Hrun.
  rewrite get_video_metadata_eq in Hrun.
  destruct (metadata_docs w !! video_id) as [metadata|];
    [|left; by inversion Hrun].
  destruct (StorageFacade.other_user (cu_user_id company_user) metadata);
    simpl in Hrun; [left; by inversion Hrun|].
  destruct (backend_delete_directory storage _ w) as [w1 [[]|e1]] eqn:Hdel;
    simpl in Hrun.
  - rewrite backend_delete_metadata_eq in Hrun. by inversion Hrun.
  - destruct e1; inversion Hrun; eauto.
    destruct storage; simpl in Hdel.
    + unfold LocalFiles.delete_directory, try_except in Hdel.
      destruct (tree_of _ w !! _); [|destruct (is_directory _ _ _ _)];
        inversion Hdel.
    + unfold GCSFiles.delete_directory in Hdel.
      destruct (BackendCommon.routes_to_processed _); inversion Hdel.
Qed.



End Routes.

(** ** Listing videos *)

Section Listing.

Implicit Types (w : World) (videos page : list Metadata) (filters : Filters).

Lemma ltb_asym (s t : string) : String.ltb s t = true → String.ltb t s = false.
Proof.
  unfold String.ltb. rewrite (String.compare_antisym t s).
  by destruct (String.compare s t).
Qed.

Lemma insert_newest_first_perm video videos :
  insert_newest_first video videos ≡ₚ video :: videos.
Proof.
  induction videos as [|other rest IH]; simpl; [done|].
  destruct (String.ltb _ _); [|done].
  rewrite IH. apply Permutation_swap.
Qed.

Lemma sort_newest_first_perm videos : sort_newest_first videos ≡ₚ videos.
Proof.
  induction videos as [|video rest IH]; simpl; [done|].
  by rewrite insert_newest_first_perm, IH.
Qed.

Lemma insert_newest_first_sorted video videos :
  Sorted not_older videos → Sorted not_older (insert_newest_first video videos).
Proof.
  induction 1 as [|other rest Hrest IH Hhd]; simpl.
  - by repeat constructor.
  - destruct (String.ltb (md_created_at video) (md_created_at other)) eqn:Hlt.
    + constructor; [done|].
      destruct Hhd as [|next rest' Hnext]; simpl.
      * constructor. by apply ltb_asym.
      * destruct (String.ltb (md_created_at video) (md_created_at next));
          constructor; [done|by apply ltb_asym].
    + constructor; [by constructor|]. by constructor.
Qed.

Lemma sort_newest_first_sorted videos :
  Sorted not_older (sort_newest_first videos).
Proof.
  induction videos as [|video rest IH]; simpl; [constructor|].
  by apply insert_newest_first_sorted.
Qed.

Lemma Sorted_drop {A} (R : A → A → Prop) n (l : list A) :
  Sorted R l → Sorted R (drop n l).
Proof.
  revert l. induction n as [|n IH]; intros l Hl; [by rewrite drop_0|].
  destruct l as [|x l]; [done|]. simpl. apply IH. by inversion Hl.
Qed.

Lemma Sorted_take {A} (R : A → A → Prop) n (l : list A) :
  Sorted R l → Sorted R (take n l).
Proof.
  revert l. induction n as [|n IH]; intros l Hl; [constructor|].
  destruct l as [|x l]; [done|]. simpl. inversion Hl as [|? ? Hl' Hhd]; subst.
  constructor; [by apply IH|].
  destruct Hhd; destruct n; simpl; by constructor.
Qed.

Lemma py_slice_sublist {A} lo hi (l : list A) : py_slice lo hi l `sublist_of` l.
Proof.
  unfold py_slice. etrans; [apply sublist_take|apply sublist_drop].
Qed.

Lemma py_slice_plain {A} lo hi (l : list A) :
  0 ≤ lo → 0 ≤ hi →
  py_slice lo hi l = take (Z.to_nat hi - Z.to_nat lo) (drop (Z.to_nat lo) l).
Proof.
  intros Hlo Hhi. unfold py_slice, slice_index.
  rewrite !bool_decide_eq_false_2 by lia.
  destruct (Z_le_gt_dec lo (Z.of_nat (length l))) as [Hin|Hout].
  - rewrite (Z.min_l lo) by done.
    destruct (Z_le_gt_dec hi (Z.of_nat (length l))).
    + rewrite (Z.min_l hi) by done. f_equal. lia.
    + rewrite (Z.min_r hi) by lia.
      rewrite !take_ge; [done|rewrite length_drop; lia..].
  - rewrite (Z.min_r lo) by lia.
    rewrite !drop_ge by lia. by rewrite !take_nil.
Qed.

Lemma length_omap_le {A B} (f : A → option B) (l : list A) :
  (length (omap f l) ≤ length l)%nat.
Proof.
  induction l as [|x l IH]; csimpl; [done|]. destruct (f x); csimpl; lia.
Qed.

Lemma list_videos_eq listing filters skip limit w :
  BackendListing.list_videos listing filters skip limit w
  = (w, Ok (py_slice skip (skip + limit)
              (sort_newest_first (matching listing filters w)))).
Proof. reflexivity. Qed.

Lemma elem_of_matching listing filters w metadata :
  metadata ∈ matching listing filters w
  ↔ ∃ video_id,
      video_id ∈ listing
      ∧ metadata_docs w !! video_id = Some metadata
      ∧ BackendListing._matches_filters metadata filters = true.
Proof.
  unfold matching. rewrite list_elem_of_omap. split.
  - intros (video_id & Hin & Hsome). exists video_id. split; [done|].
    destruct (metadata_docs w !! video_id) as [md|]; [|done].
    destruct (BackendListing._matches_filters md filters) eqn:Hm; [|done].
    by injection Hsome as ->.
  - intros (video_id & Hin & Hdoc & Hm). exists video_id. split; [done|].
    by rewrite Hdoc, Hm.
Qed.

Lemma matches_filters_spec metadata filters :
  BackendListing._matches_filters metadata filters = true
  ↔ ∀ k v, (k, v) ∈ filters → md_get k metadata = v.
Proof.
  unfold BackendListing._matches_filters. rewrite forallb_forall. split.
  - intros Hall k v Hin. apply list_elem_of_In in Hin.
    specialize (Hall _ Hin). simpl in Hall. by apply bool_decide_eq_true in Hall.
  - intros Hall [k v] Hin. apply list_elem_of_In in Hin. simpl.
    apply bool_decide_eq_true. by apply Hall.
Qed.

(** X17.  [list_videos] of a backend never fails and never changes the
    state.  Every record it returns is a stored record of a listed file
    and has, under every key of the filter dictionary, exactly the
    filter's value; and with [skip = 0] and a [limit] that is not below
    the number of listed files it returns every such record. *)
Theorem list_videos_returns_the_matching_records listing filters skip limit w :
  ∃ page,
    BackendListing.list_videos listing filters skip limit w = (w, Ok page)
    ∧ (∀ metadata,
         metadata ∈ page →
         (∃ video_id,
            video_id ∈ listing ∧ metadata_docs w !! video_id = Some metadata)
         ∧ ∀ k v, (k, v) ∈ filters → md_get k metadata = v)
    ∧ (skip = 0 → Z.of_nat (length listing) ≤ limit →
       ∀ video_id metadata,
         video_id ∈ listing →
         metadata_docs w !! video_id = Some metadata →
         (∀ k v, (k, v) ∈ filters → md_get k metadata = v) →
         metadata ∈ page).
Proof.
  eexists. split; [apply list_videos_eq|]. split.
  - intros metadata Hin.
    apply (λ H, elem_of_sublist _ _ _ H (py_slice_sublist _ _ _)) in Hin.
    rewrite sort_newest_first_perm in Hin.
    apply elem_of_matching in Hin as (video_id & Hl & Hdoc & Hm).
    split; [eauto|]. by apply matches_filters_spec.
  - intros -> Hlimit video_id metadata Hl Hdoc Hm.
    assert (length (sort_newest_first (matching listing filters w))
            ≤ length listing)%nat as Hlen.
    { rewrite sort_newest_first_perm. apply length_omap_le. }
    rewrite py_slice_plain by lia. rewrite drop_0, take_ge by lia.
    rewrite sort_newest_first_perm. apply elem_of_matching.
    exists video_id. by rewrite matches_filters_spec.
Qed.

(** X18.  The page [list_videos] returns is ordered newest first: going
    down the page, [created_at] never gets newer from one record to the
    next; and for a [skip] and a [limit] that are not negative the page
    has at most [limit] records. *)
Theorem list_videos_newest_first listing filters skip limit w :
  ∃ page,
    BackendListing.list_videos listing filters skip limit w = (w, Ok page)
    ∧ Sorted not_older page
    ∧ (0 ≤ skip → 0 ≤ limit → Z.of_nat (length page) ≤ limit).
Proof.
  eexists. split; [apply list_videos_eq|]. split.
  - unfold py_slice. apply Sorted_take, Sorted_drop, sort_newest_first_sorted.
  - intros Hskip Hlimit. rewrite py_slice_plain by lia.
    rewrite length_take. lia.
Qed.

(** X19.  Pages fit together: for a [skip] and limits that are not
    negative, the page of [a] records after [skip] followed by the page
    of [b] records after [skip + a] is the page of [a + b] records after
    [skip]. *)
Theorem list_videos_pages_concatenate listing filters skip a b w :
  0 ≤ skip → 0 ≤ a → 0 ≤ b →
  ∃ first second both,
    BackendListing.list_videos listing filters skip a w = (w, Ok first)
    ∧ BackendListing.list_videos listing filters (skip + a) b w = (w, Ok second)
    ∧ BackendListing.list_videos listing filters skip (a + b) w = (w, Ok both)
    ∧ first ++ second = both.
Proof.
  intros Hskip Ha Hb. do 3 eexists.
  split; [apply list_videos_eq|]. split; [apply list_videos_eq|].
  split; [apply list_videos_eq|].
  rewrite !py_slice_plain by lia.
  set (l := sort_newest_first (matching listing filters w)).
  replace (Z.to_nat (skip + a) - Z.to_nat skip)%nat with (Z.to_nat a) by lia.
  replace (Z.to_nat (skip + a + b) - Z.to_nat (skip + a))%nat
    with (Z.to_nat b) by lia.
  replace (Z.to_nat (skip + (a + b)) - Z.to_nat skip)%nat
    with (Z.to_nat a + Z.to_nat b)%nat by lia.
  replace (Z.to_nat (skip + a)) with (Z.to_nat skip + Z.to_nat a)%nat by lia.
  rewrite <- drop_drop. apply take_take_drop.
Qed.

Lemma list_videos_pages_concatenate_witness :
  ∃ first second both,
    BackendListing.list_videos ["v"] [] 0 1 Scenario.one_of_two
      = (Scenario.one_of_two, Ok first)
    ∧ BackendListing.list_videos ["v"] [] (0 + 1) 1 Scenario.one_of_two
      = (Scenario.one_of_two, Ok second)
    ∧ BackendListing.list_videos ["v"] [] 0 (1 + 1) Scenario.one_of_two
      = (Scenario.one_of_two, Ok both)
    ∧ first ++ second = both.
Proof.
  apply (list_videos_pages_concatenate ["v"] [] 0 1 1 Scenario.one_of_two); lia.
Defined.

End Listing.

(** ** The facade's listing and the cleanup worker's use of it *)

Section FacadeListingProps.

Implicit Types (w : World) (filters : Filters).

Lemma dict_set_here k v filters : (k, v) ∈ dict_set k v filters.
Proof.
  induction filters as [|[k' v'] rest IH]; simpl; [apply list_elem_of_here|].
  case_bool_decide; [apply list_elem_of_here|by apply list_elem_of_further].
Qed.

Lemma dict_set_other k v k' v' filters :
  k' ≠ k → (k', v') ∈ filters → (k', v') ∈ dict_set k v filters.
Proof.
  intros Hk. induction filters as [|[k0 v0] rest IH]; simpl;
    [by intros ?%elem_of_nil|].
  intros Hin. apply elem_of_cons in Hin as [Heq|Hin].
  - injection Heq as <- <-. rewrite bool_decide_eq_false_2 by done.
    apply list_elem_of_here.
  - case_bool_decide; apply list_elem_of_further; [done|by apply IH].
Qed.

Lemma facade_list_videos_eq listing user_id skip limit given w :
  FacadeListing.list_videos listing user_id skip limit given w
  = BackendListing.list_videos listing
      (if value_truthy user_id
       then dict_set KOwnerId user_id (FacadeListing.or_empty given)
       else FacadeListing.or_empty given) skip limit w.
Proof. reflexivity. Qed.

(** X20.  When the facade's [list_videos] is given a caller id, every
    record it returns belongs to that caller, whatever the caller's own
    filter dictionary says under [owner_id]: the id replaces that entry.
    The other entries of the dictionary still hold for every returned
    record. *)
Theorem facade_list_videos_owner_only listing u skip limit given w :
  u ≠ "" →
  ∃ page,
    FacadeListing.list_videos listing (VStr u) skip limit given w
      = (w, Ok page)
    ∧ ∀ metadata,
        metadata ∈ page →
        md_owner_id metadata = Some u
        ∧ ∀ d k v, given = Some d → (k, v) ∈ d → k ≠ KOwnerId →
                   md_get k metadata = v.
Proof.
  intros Hu. rewrite facade_list_videos_eq.
  assert (value_truthy (VStr u) = true) as -> by (by destruct u).
  rewrite list_videos_eq. eexists. split; [reflexivity|].
  intros metadata Hin.
  apply (λ H, elem_of_sublist _ _ _ H (py_slice_sublist _ _ _)) in Hin.
  rewrite sort_newest_first_perm in Hin.
  apply elem_of_matching in Hin as (video_id & _ & _ & Hm).
  rewrite matches_filters_spec in Hm. split.
  - specialize (Hm KOwnerId (VStr u) (dict_set_here _ _ _)). simpl in Hm.
    destruct (md_owner_id metadata); simpl in Hm; congruence.
  - intros d k v -> Hin Hk. apply Hm. apply dict_set_other; [done|].
    by destruct d.
Qed.

Lemma facade_list_videos_owner_only_witness :
  ∃ page,
    FacadeListing.list_videos ["v"] (VStr "bob") 0 20
      (Some [(KOwnerId, VStr "alice")]) Scenario.one_of_two
      = (Scenario.one_of_two, Ok page)
    ∧ ∀ metadata,
        metadata ∈ page →
        md_owner_id metadata = Some "bob"
        ∧ ∀ d k v, Some [(KOwnerId, VStr "alice")] = Some d → (k, v) ∈ d →
                   k ≠ KOwnerId → md_get k metadata = v.
Proof.
  apply (facade_list_videos_owner_only ["v"] "bob" 0 20
           (Some [(KOwnerId, VStr "alice")]) Scenario.one_of_two).
  discriminate.
Defined.

Lemma matching_dict_owner listing d rest w :
  matching listing ((KOwnerId, VDict d) :: rest) w = [].
Proof.
  unfold matching. induction listing as [|video_id listing IH]; [done|].
  rewrite omap_cons_None; [done|].
  destruct (metadata_docs w !! video_id) as [metadata|]; [|done].
  unfold BackendListing._matches_filters. simpl.
  rewrite bool_decide_eq_false_2; [done|].
  by destruct (md_owner_id metadata).
Qed.

Section WithEnvironment.

Variable listing : list string.
Variable update_video_metadata :
  string → list (string * string) → World → World * bool.

Lemma worker_list_videos d skip limit w :
  svc_list_videos (WorkerServices.services listing update_video_metadata)
    d skip limit w
  = (w, Ok (py_slice skip (skip + limit)
              (sort_newest_first
                 (matching listing
                    (if value_truthy (VDict d)
                     then [(KOwnerId, VDict d)] else []) w)))).
Proof. by destruct d. Qed.

Lemma worker_cleanup_video video_id w :
  ∃ detail,
    CleanupWorker.cleanup_video
      (WorkerServices.services listing update_video_metadata) video_id w
    = (w, Raise (StorageError "cleanup_video" detail)).
Proof. eexists. reflexivity. Qed.

Lemma worker_expired_loop expiration_str videos cleaned w :
  CleanupWorker.expired_loop
    (WorkerServices.services listing update_video_metadata)
    expiration_str videos cleaned w = (w, Ok cleaned)
  ∨ ∃ detail,
      CleanupWorker.expired_loop
        (WorkerServices.services listing update_video_metadata)
        expiration_str videos cleaned w
      = (w, Raise (StorageError "cleanup_video" detail)).
Proof.
  induction videos as [|video rest IH]; simpl; [by left|].
  destruct (String.ltb expiration_str (md_created_at video)); [done|].
  destruct (md_allow_cleanup video); simpl; [|done].
  right. eexists. reflexivity.
Qed.

(** X21.  The cleanup worker works on the facade [StorageService].  Its
    listing call for stalled videos hands [{"status": "processing"}] over
    in the place of the caller id, so the facade looks for records whose
    owner is that dictionary and finds none: on every state
    [recover_stalled_processing] returns the empty list.  And since the
    facade has no [delete_directory], [delete_metadata] or
    [save_metadata], [cleanup_video] always raises,
    [cleanup_failed_processing] always gives up silently, and
    [cleanup_expired_content] either returns the empty list or raises.
    None of the four changes the state. *)
Theorem worker_on_the_facade_changes_nothing now stall_str stall_hours
    expiration_str video_id w :
  CleanupWorker.recover_stalled_processing
    (WorkerServices.services listing update_video_metadata)
    now stall_str stall_hours w
  = (w, Ok [])
  ∧ (∃ detail,
       CleanupWorker.cleanup_video
         (WorkerServices.services listing update_video_metadata) video_id w
       = (w, Raise (StorageError "cleanup_video" detail)))
  ∧ CleanupWorker.cleanup_failed_processing
      (WorkerServices.services listing update_video_metadata) now video_id w
    = (w, Ok tt)
  ∧ (CleanupWorker.cleanup_expired_content
       (WorkerServices.services listing update_video_metadata)
       expiration_str w
     = (w, Ok [])
     ∨ ∃ detail,
         CleanupWorker.cleanup_expired_content
           (WorkerServices.services listing update_video_metadata)
           expiration_str w
         = (w, Raise (StorageError "cleanup_expired" detail))).
Proof.
  split; [|split; [|split]].
  - unfold CleanupWorker.recover_stalled_processing, try_except, Py.bind.
    rewrite worker_list_videos. simpl. by rewrite matching_dict_owner.
  - apply worker_cleanup_video.
  - unfold CleanupWorker.cleanup_failed_processing, try_except, Py.bind.
    simpl. rewrite get_video_metadata_eq.
    destruct (metadata_docs w !! video_id) as [metadata|]; [|done].
    by destruct (String.eqb (md_status metadata) "error").
  - unfold CleanupWorker.cleanup_expired_content, try_except, Py.bind.
    rewrite worker_list_videos.
    match goal with
    | |- context [CleanupWorker.expired_loop _ _ ?videos _ _] =>
        destruct (worker_expired_loop expiration_str videos [] w)
          as [->|[detail ->]]
    end; [by left|].
    right. eexists. reflexivity.
Qed.

End WithEnvironment.

End FacadeListingProps.

(** ** The segment scans of the transcoder *)

Section Scans.

Import Transcoder.

Lemma numbers_from_S first count :
  numbers_from first (S count) = first :: numbers_from (first + 1) count.
Proof.
  unfold numbers_from. simpl. rewrite Z.add_0_r. f_equal.
  rewrite <- fmap_S_seq, <- list_fmap_compose. apply list_fmap_ext.
  intros _ k _. simpl. lia.
Qed.

Lemma dash_scan_leading_run count :
  ∀ fuel run segment_duration first start_time acc,
    (∀ i, i ∈ numbers_from first count → i ∈ run_segment_files run) →
    first + Z.of_nat count ∉ run_segment_files run →
    (count < fuel)%nat →
    ∃ new,
      scan_segments fuel run segment_duration first start_time acc
        = Some (acc ++ new)
      ∧ dseg_index <$> new = numbers_from first count
      ∧ Forall (λ s, dseg_duration s
                     = probed_duration run segment_duration (dseg_index s)) new.
Proof.
  induction count as [|count IH];
    intros fuel run segment_duration first start_time acc Hin Hout Hfuel.
  - destruct fuel as [|fuel]; [lia|]. simpl.
    rewrite Z.add_0_r in Hout. rewrite bool_decide_eq_false_2 by done.
    exists []. by rewrite app_nil_r.
  - destruct fuel as [|fuel]; [lia|]. simpl.
    rewrite numbers_from_S in Hin.
    rewrite bool_decide_eq_true_2 by (apply Hin, list_elem_of_here).
    destruct (IH fuel run segment_duration (first + 1)
                (start_time + probed_duration run segment_duration first)
                (acc ++ [mkDashSegment first start_time
                           (probed_duration run segment_duration first)]))
      as (new & -> & Hidx & Hdur).
    + intros i Hi. by apply Hin, list_elem_of_further.
    + by replace (first + 1 + Z.of_nat count)
        with (first + Z.of_nat (S count)) by lia.
    + lia.
    + eexists (_ :: new). rewrite <- app_assoc. split; [done|].
      rewrite numbers_from_S, fmap_cons, Hidx. split; [done|].
      by constructor.
Qed.

(** X22.  The DASH scan reports the leading run of segment files and
    nothing else: when [segment-1.m4s] to [segment-n.m4s] exist and
    [segment-(n+1).m4s] does not, it returns exactly [n] descriptors,
    numbered 1 to [n], whatever files with higher numbers exist; each
    duration is the target duration when the probe failed, and otherwise
    the probed one in whole milliseconds: the float product of the
    seconds and 1000 cut off toward zero, so that a probe that prints
    4.004 gives 4003 and one that prints 2.5 gives 2500.  The probes
    print numbers within the range of the floats. *)
Theorem dash_scan_reports_leading_run fuel run segment_duration count :
  run_returncode run = 0 →
  (∀ i, i ∈ numbers_from 1 count → i ∈ run_segment_files run) →
  1 + Z.of_nat count ∉ run_segment_files run →
  (∀ i seconds, run_probe run i = ProbeSeconds seconds →
                (Qabs seconds <= 2 ^ 1000)%Q) →
  (count < fuel)%nat →
  (∃ segments,
     _transcode_for_dash fuel run segment_duration = Some (Ok segments)
     ∧ dseg_index <$> segments = numbers_from 1 count
     ∧ Forall (λ s, dseg_duration s
                    = probed_duration run segment_duration (dseg_index s))
         segments)
  ∧ probed_duration (mkDashRun 0 "" ∅ (λ _, ProbeSeconds (4004 # 1000))) 4 1
    = 4003
  ∧ probed_duration (mkDashRun 0 "" ∅ (λ _, ProbeSeconds (25 # 10))) 4 1
    = 2500
  ∧ probed_duration (mkDashRun 0 "" ∅ (λ _, ProbeFailed)) 4 1 = 4000.
Proof.
  intros Hcode Hin Hout _ Hfuel. split; [|by vm_compute].
  unfold _transcode_for_dash.
  rewrite bool_decide_eq_true_2 by done.
  destruct (dash_scan_leading_run count fuel run segment_duration 1 0 []
              Hin Hout Hfuel) as (new & -> & Hidx & Hdur).
  exists new. done.
Qed.

Lemma dash_scan_reports_leading_run_witness :
  ∃ segments,
    _transcode_for_dash 10
      (mkDashRun 0 "" {[1; 2; 4]} (λ _, ProbeSeconds (4004 # 1000))) 4
      = Some (Ok segments)
    ∧ dseg_index <$> segments = numbers_from 1 2
    ∧ Forall (λ s, dseg_duration s = 4003) segments.
Proof.
  destruct (dash_scan_reports_leading_run 10
              (mkDashRun 0 "" {[1; 2; 4]} (λ _, ProbeSeconds (4004 # 1000))) 4 2)
    as [(segments & Hrun & Hindex & Hduration) _].
  - reflexivity.
  - intros i Hi. simpl.
    apply elem_of_cons in Hi as [->|Hi];
      [apply (bool_decide_unpack _); vm_compute; exact I|].
    apply elem_of_cons in Hi as [->|Hi];
      [apply (bool_decide_unpack _); vm_compute; exact I|].
    by apply elem_of_nil in Hi.
  - apply (bool_decide_unpack _). vm_compute. exact I.
  - intros i seconds [= <-]. by vm_compute.
  - lia.
  - exists segments. split; [exact Hrun|]. split; [exact Hindex|].
    eapply Forall_impl; [exact Hduration|]. intros s ->. by vm_compute.
Defined.

Lemma hls_scan_leading_run count :
  ∀ fuel run segment_duration first acc,
    (∀ i, i ∈ numbers_from first count →
          TranscoderHls.segment_name i ∈ hrun_files run) →
    TranscoderHls.segment_name (first + Z.of_nat count) ∉ hrun_files run →
    (count < fuel)%nat →
    TranscoderHls.scan_segments fuel run segment_duration first acc
    = Some (acc
            ++ ((λ i, mkHlsSegment (TranscoderHls.segment_name i)
                        (TranscoderHls.probed_seconds run segment_duration
                           (TranscoderHls.segment_name i)) i)
                <$> numbers_from first count)).
Proof.
  induction count as [|count IH];
    intros fuel run segment_duration first acc Hin Hout Hfuel.
  - destruct fuel as [|fuel]; [lia|]. simpl.
    rewrite Z.add_0_r in Hout. rewrite bool_decide_eq_false_2 by done.
    by rewrite app_nil_r.
  - destruct fuel as [|fuel]; [lia|].
    rewrite numbers_from_S in Hin |- *. cbn [TranscoderHls.scan_segments].
    rewrite bool_decide_eq_true_2 by (apply Hin, list_elem_of_here).
    rewrite IH.
    + by rewrite fmap_cons, <- app_assoc.
    + intros i Hi. by apply Hin, list_elem_of_further.
    + by replace (first + 1 + Z.of_nat count)
        with (first + Z.of_nat (S count)) by lia.
    + lia.
Qed.

(** X23.  The HLS scan reports the leading run of segment files: when
    [segment_000.ts] up to number [n - 1] exist and number [n] does not,
    it returns [n] descriptors, numbered from 0, each with the name of its
    file and with the probed duration, or the target duration when the
    probe failed.  Files after the gap and other files of the directory
    are not reported.  When the [ffmpeg] run failed it raises a
    [VideoProcessingError] without looking at the directory. *)
Theorem hls_scan_reports_leading_run fuel run segment_duration count :
  (hrun_returncode run = 0 →
   (∀ i, i ∈ numbers_from 0 count →
         TranscoderHls.segment_name i ∈ hrun_files run) →
   TranscoderHls.segment_name (Z.of_nat count) ∉ hrun_files run →
   (count < fuel)%nat →
   TranscoderHls._transcode_for_hls fuel run segment_duration
   = Some (Ok ((λ i, mkHlsSegment (TranscoderHls.segment_name i)
                       (TranscoderHls.probed_seconds run segment_duration
                          (TranscoderHls.segment_name i)) i)
               <$> numbers_from 0 count)))
  ∧ (hrun_returncode run ≠ 0 →
     ∃ detail,
       TranscoderHls._transcode_for_hls fuel run segment_duration
       = Some (Raise (VideoProcessingError "transcode_hls" detail))).
Proof.
  split.
  - intros Hcode Hin Hout Hfuel. unfold TranscoderHls._transcode_for_hls.
    rewrite bool_decide_eq_true_2 by done.
    by rewrite (hls_scan_leading_run count fuel run segment_duration 0 []).
  - intros Hcode. unfold TranscoderHls._transcode_for_hls.
    rewrite bool_decide_eq_false_2 by done. eauto.
Qed.

Lemma hls_scan_reports_leading_run_witness :
  TranscoderHls._transcode_for_hls 10 HlsScenario.two_and_a_stray 6
  = Some (Ok ((λ i, mkHlsSegment (TranscoderHls.segment_name i)
                      (TranscoderHls.probed_seconds HlsScenario.two_and_a_stray
                         6 (TranscoderHls.segment_name i)) i)
              <$> numbers_from 0 2)).
Proof.
  apply (proj1 (hls_scan_reports_leading_run 10 HlsScenario.two_and_a_stray
                  6 2)).
  - reflexivity.
  - intros i Hi.
    apply elem_of_cons in Hi as [->|Hi];
      [apply (bool_decide_unpack _); vm_compute; exact I|].
    apply elem_of_cons in Hi as [->|Hi];
      [apply (bool_decide_unpack _); vm_compute; exact I|].
    by apply elem_of_nil in Hi.
  - apply (bool_decide_unpack _). vm_compute. exact I.
  - lia.
Defined.

End Scans.

(** ** Playlists as a player reads them *)

Section PlaylistReading.

Import ManifestGenerator.

Lemma has_newline_zeros k :
  has_newline (String.concat "" (replicate k "0")) = false.
Proof.
  induction k as [|k IH]; [done|]. simpl.
  destruct (replicate k "0") eqn:Hk; [done|].
  change (has_newline ("0" +:+ "" +:+ String.concat "" (s :: l)) = false).
  by rewrite !has_newline_app, IH.
Qed.

Lemma has_newline_zero_pad width s :
  has_newline s = false → has_newline (zero_pad width s) = false.
Proof.
  intros Hs. unfold zero_pad. by rewrite has_newline_app, has_newline_zeros, Hs.
Qed.

Lemma has_newline_format_fixed digits q :
  has_newline (format_fixed digits q) = false.
Proof.
  unfold format_fixed. rewrite !has_newline_app.
  rewrite has_newline_zero_pad, !has_newline_str_int by apply has_newline_str_int.
  by destruct (Qlt_le_dec q 0).
Qed.

Lemma has_newline_extinf segment : has_newline (extinf segment) = false.
Proof.
  unfold extinf. by rewrite !has_newline_app, has_newline_format_fixed.
Qed.

Lemma uri_lines_of_lines lines :
  lines ≠ [] → Forall (λ l, has_newline l = false) lines →
  uri_lines (join newline lines)
  = filter (λ line, line ≠ "" ∧ is_tag line = false) lines.
Proof. intros Hne Hplain. unfold uri_lines. by rewrite split_lines_join. Qed.

Lemma uri_lines_entries segments :
  Forall plain_segment segments →
  filter (λ line, line ≠ "" ∧ is_tag line = false)
    (flat_map segment_entry segments)
  = seg_filename <$> segments.
Proof.
  induction 1 as [|segment rest (Hnl & Hne & Htag) _ IH]; [done|].
  simpl. rewrite filter_cons_False by (by intros [_ ?]).
  rewrite filter_cons_True by done. by rewrite IH.
Qed.

Lemma entries_plain segments :
  Forall plain_segment segments →
  Forall (λ l, has_newline l = false) (flat_map segment_entry segments).
Proof.
  induction 1 as [|segment rest (Hnl & _) _ IH]; simpl; [done|].
  constructor; [apply has_newline_extinf|]. by constructor.
Qed.

Lemma uri_lines_variant_playlist segments :
  segments ≠ [] →
  Forall plain_segment segments →
  ∃ text,
    generate_hls_variant_playlist segments = Ok text
    ∧ uri_lines text = seg_filename <$> segments.
Proof.
  intros Hne Hplain. unfold generate_hls_variant_playlist.
  destruct segments as [|segment rest]; [done|].
  cbn [py_max fmap list_fmap]. eexists. split; [reflexivity|].
  rewrite add_segments_lines.
  rewrite uri_lines_of_lines.
  - rewrite <- !app_assoc, !filter_app, uri_lines_entries by done.
    rewrite filter_cons_False by (by intros [_ ?]).
    rewrite filter_cons_False by (by intros [_ ?]).
    rewrite filter_cons_False by (by intros [_ ?]).
    rewrite filter_cons_False by (by intros [_ ?]).
    rewrite filter_nil.
    rewrite filter_cons_False by (by intros [_ ?]).
    by rewrite filter_nil, app_nil_r.
  - done.
  - rewrite !Forall_app. split; [split|].
    + repeat constructor. by rewrite has_newline_app, has_newline_str_int.
    + by apply entries_plain.
    + by repeat constructor.
Qed.

(** X24.  A player that reads a generated variant playlist gets the
    segment files back: the lines that are neither empty nor tags are the
    segments' file names, one per segment and in the order of the segment
    list, provided each name is a non-empty line of its own that does not
    begin with [#]. *)
Theorem variant_playlist_lists_the_segment_files segments :
  segments ≠ [] →
  Forall plain_segment segments →
  ∃ text,
    generate_hls_variant_playlist segments = Ok text
    ∧ uri_lines text = seg_filename <$> segments.
Proof. apply uri_lines_variant_playlist. Qed.

Lemma variant_playlist_lists_the_segment_files_witness :
  ∃ text,
    generate_hls_variant_playlist ManifestScenario.three_segments = Ok text
    ∧ uri_lines text = seg_filename <$> ManifestScenario.three_segments.
Proof.
  apply variant_playlist_lists_the_segment_files.
  - discriminate.
  - repeat constructor; discriminate.
Defined.

Lemma join_snoc (sep : string) (lines : list string) (last : string) :
  lines ≠ [] → join sep (lines ++ [last]) = join sep lines +:+ sep +:+ last.
Proof.
  induction lines as [|l lines IH]; [done|]. intros _.
  destruct lines as [|l' lines]; [done|].
  rewrite <- app_comm_cons, join_cons by done.
  rewrite IH by done. rewrite (join_cons sep l) by done.
  by rewrite !string_app_assoc.
Qed.

(** A first line and the lines of the segments, joined: each segment adds
    a line break, its [#EXTINF] line, a line break and its file name. *)
Lemma join_after_line (line : string) segments :
  join newline (line :: flat_map segment_entry segments)
  = line
    +:+ String.concat ""
          ((λ segment,
              newline +:+ "#EXTINF:"
              +:+ format_fixed 6 (seg_duration segment) +:+ ","
              +:+ newline +:+ seg_filename segment) <$> segments).
Proof.
  revert line. induction segments as [|segment segments IH]; intros line.
  - simpl. by rewrite string_app_empty_r.
  - rewrite fmap_cons, concat_cons. cbn [flat_map segment_entry app].
    rewrite join_cons by done. rewrite join_cons by done.
    rewrite IH. unfold extinf. by rewrite !string_app_assoc.
Qed.

(** The ceiling of the largest duration: no duration exceeds it and some
    duration exceeds it less one. *)
Lemma ceil_max_from (first : HlsSegment) (rest : list HlsSegment) :
  let target_duration :=
    ceil (max_from (seg_duration first) (seg_duration <$> rest)) in
  (∀ segment, segment ∈ first :: rest →
     (seg_duration segment <= inject_Z target_duration)%Q)
  ∧ (∃ segment, segment ∈ first :: rest
       ∧ (inject_Z target_duration - 1 < seg_duration segment)%Q).
Proof.
  simpl. set (m := max_from (seg_duration first) (seg_duration <$> rest)).
  destruct (max_from_spec (seg_duration first) (seg_duration <$> rest))
    as (H0 & Hrest & Hin). fold m in H0, Hrest, Hin.
  split.
  - intros s [->|Hs]%elem_of_cons.
    + eapply Qle_trans; [exact H0|apply Qle_ceiling].
    + rewrite Forall_fmap in Hrest. rewrite Forall_forall in Hrest.
      eapply Qle_trans; [exact (Hrest s Hs)|]. apply Qle_ceiling.
  - change (seg_duration first :: (seg_duration <$> rest))
      with (seg_duration <$> (first :: rest)) in Hin.
    apply list_elem_of_fmap in Hin as (s & Hm & Hs).
    exists s. split; [done|]. rewrite <- Hm.
    pose proof (Qceiling_lt m) as Hc. unfold ceil.
    unfold Z.sub in Hc. rewrite inject_Z_plus, inject_Z_opp in Hc.
    exact Hc.
Qed.

(** X25.  For a non-empty list of segments whose durations are floats
    the live playlist is the text that begins with the lines [#EXTM3U],
    [#EXT-X-VERSION:3], [#EXT-X-TARGETDURATION:n] and
    [#EXT-X-MEDIA-SEQUENCE:] with the given sequence number, and goes on,
    for each segment in input order, with the [#EXTINF] line (the
    duration to six decimals and a comma) and the line with the file
    name; it ends with the last file name, without [#EXT-X-ENDLIST] and
    without a line break.  [n] is the ceiling of the largest segment
    duration.  The variant playlist of the same segments is the live
    playlist with sequence number 0, a line break and
    [#EXT-X-ENDLIST]. *)
Theorem live_playlist_layout segments sequence_no :
  segments ≠ [] →
  Forall (λ segment, Float64.is_float (seg_duration segment) = true)
    segments →
  (∃ target_duration : Z,
     generate_hls_live_playlist segments sequence_no =
       Ok ("#EXTM3U" +:+ newline
           +:+ "#EXT-X-VERSION:3" +:+ newline
           +:+ "#EXT-X-TARGETDURATION:" +:+ str_int target_duration
           +:+ newline
           +:+ "#EXT-X-MEDIA-SEQUENCE:" +:+ str_int sequence_no
           +:+ String.concat ""
                 ((λ segment,
                     newline +:+ "#EXTINF:"
                     +:+ format_fixed 6 (seg_duration segment) +:+ ","
                     +:+ newline +:+ seg_filename segment) <$> segments))
     ∧ (∀ segment, segment ∈ segments →
          (seg_duration segment <= inject_Z target_duration)%Q)
     ∧ (∃ segment, segment ∈ segments
          ∧ (inject_Z target_duration - 1 < seg_duration segment)%Q))
  ∧ (∃ live,
       generate_hls_live_playlist segments 0 = Ok live
       ∧ generate_hls_variant_playlist segments
         = Ok (live +:+ newline +:+ "#EXT-X-ENDLIST"))
  ∧ generate_hls_live_playlist
      [mkHlsSegment "a.ts" (Float64.of_decimal (78125 # 10000000)) 0;
       mkHlsSegment "b.ts" (Float64.of_decimal (234375 # 10000000)) 1;
       mkHlsSegment "c.ts" (Float64.of_decimal (65 # 10)) 2] 7 =
      Ok "#EXTM3U
#EXT-X-VERSION:3
#EXT-X-TARGETDURATION:7
#EXT-X-MEDIA-SEQUENCE:7
#EXTINF:0.007812,
a.ts
#EXTINF:0.023438,
b.ts
#EXTINF:6.500000,
c.ts".
Proof.
  intros Hne _. destruct segments as [|segment rest]; [done|].
  split; [|split; [|by vm_compute]].
  - unfold generate_hls_live_playlist.
    cbn [py_max fmap list_fmap]. cbv zeta.
    eexists. split; [|apply ceil_max_from].
    rewrite add_segments_lines. f_equal.
    rewrite <- !app_comm_cons, app_nil_l.
    do 3 rewrite join_cons by done.
    rewrite join_after_line. by rewrite !string_app_assoc.
  - unfold generate_hls_live_playlist, generate_hls_variant_playlist.
    cbn [py_max fmap list_fmap]. cbv zeta.
    eexists. split; [reflexivity|]. f_equal.
    rewrite !add_segments_lines. rewrite join_snoc by done.
    done.
Qed.

Lemma live_playlist_layout_witness :
  ∃ live,
    generate_hls_live_playlist ManifestScenario.three_segments 0 = Ok live
    ∧ generate_hls_variant_playlist ManifestScenario.three_segments
      = Ok (live +:+ newline +:+ "#EXT-X-ENDLIST").
Proof.
  apply (live_playlist_layout ManifestScenario.three_segments 7).
  - discriminate.
  - repeat constructor.
Defined.

Lemma segment_name_plain i :
  plain_segment (mkHlsSegment (TranscoderHls.segment_name i)
                   (inject_Z 0) i).
Proof.
  unfold plain_segment, TranscoderHls.segment_name. simpl.
  split; [|done].
  rewrite !has_newline_app. rewrite has_newline_zero_pad
    by apply has_newline_str_int. done.
Qed.

(** X26.  From the scan to the playlist: when the HLS transcode found at
    least one segment file, the variant playlist generated from its result
    lists, as its non-tag lines, exactly the names of the files the scan
    found, in order, and every one of them is a file of the output
    directory. *)
Theorem hls_playlist_names_the_scanned_files fuel run segment_duration count :
  hrun_returncode run = 0 →
  (∀ i, i ∈ numbers_from 0 (S count) →
        TranscoderHls.segment_name i ∈ hrun_files run) →
  TranscoderHls.segment_name (Z.of_nat (S count)) ∉ hrun_files run →
  (S count < fuel)%nat →
  ∃ segments text,
    TranscoderHls._transcode_for_hls fuel run segment_duration
      = Some (Ok segments)
    ∧ generate_hls_variant_playlist segments = Ok text
    ∧ uri_lines text = TranscoderHls.segment_name <$> numbers_from 0 (S count)
    ∧ Forall (λ name, name ∈ hrun_files run) (uri_lines text).
Proof.
  intros Hcode Hin Hout Hfuel.
  unfold TranscoderHls._transcode_for_hls.
  rewrite bool_decide_eq_true_2 by done.
  rewrite (hls_scan_leading_run (S count) fuel run segment_duration 0 [])
    by done.
  rewrite app_nil_l.
  set (segments := _ <$> numbers_from 0 (S count)).
  assert (seg_filename <$> segments
          = TranscoderHls.segment_name <$> numbers_from 0 (S count)) as Hnames.
  { unfold segments. rewrite <- list_fmap_compose. by apply list_fmap_ext. }
  destruct (uri_lines_variant_playlist segments)
    as (text & Htext & Huris).
  - unfold segments. by rewrite numbers_from_S.
  - unfold segments. apply Forall_fmap, Forall_forall. intros i _.
    destruct (segment_name_plain i) as (? & ? & ?). by repeat split.
  - exists segments, text. split; [done|]. split; [done|].
    rewrite Huris, Hnames. split; [done|].
    apply Forall_fmap, Forall_forall. intros i Hi. by apply Hin.
Qed.

Lemma hls_playlist_names_the_scanned_files_witness :
  ∃ segments text,
    TranscoderHls._transcode_for_hls 10 HlsScenario.two_and_a_stray 6
      = Some (Ok segments)
    ∧ generate_hls_variant_playlist segments = Ok text
    ∧ uri_lines text = TranscoderHls.segment_name <$> numbers_from 0 2
    ∧ Forall (λ name, name ∈ hrun_files HlsScenario.two_and_a_stray)
        (uri_lines text).
Proof.
  apply (hls_playlist_names_the_scanned_files 10 HlsScenario.two_and_a_stray
           6 1).
  - reflexivity.
  - intros i Hi.
    apply elem_of_cons in Hi as [->|Hi];
      [apply (bool_decide_unpack _); vm_compute; exact I|].
    apply elem_of_cons in Hi as [->|Hi];
      [apply (bool_decide_unpack _); vm_compute; exact I|].
    by apply elem_of_nil in Hi.
  - apply (bool_decide_unpack _). vm_compute. exact I.
  - lia.
Defined.

End PlaylistReading.

(** ** Bitrates of the quality ladder *)

Section Bitrates.

Import AdaptiveStreamingService.

Lemma all_digits_app (s t : string) :
  all_digits (s +:+ t) = all_digits s && all_digits t.
Proof.
  induction s as [|c s IH]; [done|].
  rewrite string_app_cons. simpl. by rewrite IH, andb_assoc.
Qed.

Lemma all_digits_pretty_go (x : N) (s : string) :
  all_digits s = true → all_digits (pretty_N_go x s) = true.
Proof.
  revert s. induction (N.lt_wf_0 x) as [x _ IH]; intros s Hs.
  destruct (decide (x = 0)%N) as [->|Hx]; [by rewrite pretty_N_go_0|].
  rewrite pretty_N_go_step by lia. apply IH; [apply N.div_lt; lia|].
  simpl. rewrite digit_value_pretty by (apply N.mod_lt; lia).
  by rewrite Hs.
Qed.

Lemma all_digits_pretty (n : N) : all_digits (pretty n) = true.
Proof.
  unfold pretty, pretty_N. case_decide; [done|].
  by apply all_digits_pretty_go.
Qed.

Lemma pretty_N_go_nonempty (x : N) (s : string) :
  s ≠ "" → pretty_N_go x s ≠ "".
Proof.
  revert s. induction (N.lt_wf_0 x) as [x _ IH]; intros s Hs.
  destruct (decide (x = 0)%N) as [->|Hx]; [by rewrite pretty_N_go_0|].
  rewrite pretty_N_go_step by lia. apply IH; [apply N.div_lt; lia|done].
Qed.

Lemma pretty_N_nonempty (n : N) : pretty n ≠ "".
Proof.
  unfold pretty, pretty_N. case_decide; [done|].
  rewrite pretty_N_go_step by lia. by apply pretty_N_go_nonempty.
Qed.

Lemma replace_k_digits (s t : string) :
  all_digits s = true → replace_k (s +:+ t) = s +:+ replace_k t.
Proof.
  induction s as [|c s IH]; [done|].
  rewrite string_app_cons. simpl. intros [Hc Hs]%andb_prop.
  destruct (Ascii.eqb_spec c "k") as [->|_]; [done|].
  by rewrite string_app_cons, IH.
Qed.

Lemma py_int_digits (s : string) :
  s ≠ "" → all_digits s = true → py_int s = Ok (Z.of_N (read_digits 0 s)).
Proof.
  intros Hne Hs. destruct s as [|c r]; [done|].
  simpl in Hs. apply andb_prop in Hs as [Hc Hr].
  unfold py_int.
  destruct c as [[] [] [] [] [] [] [] []]; try done;
    simpl; rewrite Hr; done.
Qed.

Lemma ascii_letter_not_digit (c : ascii) :
  is_ascii_letter c = true → digit_value c = None.
Proof. by destruct c as [[] [] [] [] [] [] [] []]. Qed.

(** X27.  A ladder bitrate written as a whole number followed by [k]
    becomes that number times 1000: this is what
    [int(bitrate.replace("k", "000"))] gives.  When the digits are
    followed by another letter, as in [5M], or by a decimal point, as in
    [2.5k], the conversion raises [ValueError]. *)
Theorem bitrate_in_k_is_thousands (n : N) :
  py_int (replace_k (pretty n +:+ "k")) = Ok (Z.of_N n * 1000)
  ∧ ∀ c rest,
      is_ascii_letter c = true ∧ c ≠ "k"%char ∨ c = "."%char →
      ∃ message,
        py_int (replace_k (pretty n +:+ String c rest))
        = Raise (ValueError message).
Proof.
  split.
  - rewrite replace_k_digits by apply all_digits_pretty.
    change (replace_k "k") with "000".
    rewrite py_int_digits.
    + f_equal. unfold pretty, pretty_N. case_decide as Hn; [by subst|].
      rewrite pretty_N_go_app, string_app_nil.
      destruct (read_digits_pretty_go n 0 "000") as [k ->]. simpl. lia.
    + intros Heq. destruct (pretty n) eqn:Hp; [|discriminate].
      by apply (pretty_N_nonempty n).
    + by rewrite all_digits_app, all_digits_pretty.
  - intros c rest Hletter.
    assert (digit_value c = None ∧ c ≠ "k"%char) as [Hc Hk].
    { destruct Hletter as [[Hl Hk]| ->]; [|done].
      split; [by apply ascii_letter_not_digit|done]. }
    rewrite replace_k_digits by apply all_digits_pretty.
    simpl. destruct (Ascii.eqb_spec c "k") as [|_]; [done|].
    set (tail := String c (replace_k rest)).
    assert (all_digits (pretty n +:+ tail) = false) as Hbad.
    { rewrite all_digits_app, all_digits_pretty. simpl. by rewrite Hc. }
    destruct (pretty n) as [|d r] eqn:Hp; [by destruct (pretty_N_nonempty n)|].
    assert (all_digits (String d r) = true) as Hd
      by (rewrite <- Hp; apply all_digits_pretty).
    simpl in Hd. apply andb_prop in Hd as [Hd _].
    rewrite string_app_cons in *. unfold py_int.
    destruct d as [[] [] [] [] [] [] [] []]; try done;
      rewrite Hbad; eauto.
Qed.

End Bitrates.

(** ** What a completed sweep returns *)

Section SweepResults.

Import CleanupWorker.

Context {S : Type} (svc : Services S).

Lemma expired_loop_result expiration_str videos :
  ∀ cleaned s s' ids,
    expired_loop svc expiration_str videos cleaned s = (s', Ok ids) →
    ids = cleaned
          ++ (md_id <$> filter (λ v, String.ltb expiration_str (md_created_at v)
                                     = false
                                     ∧ md_allow_cleanup v = true) videos).
Proof.
  induction videos as [|video rest IH]; intros cleaned s s' ids; simpl.
  - intros [= _ <-]. by rewrite app_nil_r.
  - destruct (String.ltb expiration_str (md_created_at video)) eqn:Hnew.
    { rewrite filter_cons_False by (intros [? _]; congruence). apply IH. }
    destruct (md_allow_cleanup video) eqn:Hallow; simpl.
    + rewrite filter_cons_True by done. unfold Py.bind at 1.
      destruct (cleanup_video svc (md_id video) s) as [s1 [[]|e]]; [|done].
      intros Hrun%IH. by rewrite Hrun, fmap_cons, <- app_assoc.
    + rewrite filter_cons_False by (intros [_ ?]; congruence). apply IH.
Qed.

Lemma stalled_loop_result now stall_str stall_hours videos :
  ∀ recovered s s' ids,
    stalled_loop svc now stall_str stall_hours videos recovered s
      = (s', Ok ids) →
    ids = recovered
          ++ (md_id <$> filter (λ v, String.ltb stall_str (md_updated_at v)
                                     = false) videos).
Proof.
  induction videos as [|video rest IH]; intros recovered s s' ids; simpl.
  - intros [= _ <-]. by rewrite app_nil_r.
  - destruct (String.ltb stall_str (md_updated_at video)) eqn:Hnew.
    { rewrite filter_cons_False by congruence. apply IH. }
    rewrite filter_cons_True by done. unfold Py.bind.
    destruct (svc_get_video_metadata svc (md_id video) s)
      as [s1 [metadata|e]]; [|done].
    destruct (svc_save_metadata svc (md_id video) _ s1) as [s2 [[]|e]]; [|done].
    destruct (cleanup_failed_processing svc now (md_id video) s2)
      as [s3 [[]|e]]; [|done].
    destruct (svc_update_video_metadata svc (md_id video) _ s3) as [s4 b].
    intros Hrun%IH. by rewrite Hrun, fmap_cons, <- app_assoc.
Qed.

(** X28.  When a sweep of the cleanup worker completes, the list it
    returns is read off the listing alone.  [cleanup_expired_content]
    returns the ids of the listed records whose [created_at] is not after
    the expiration instant and that allow cleanup;
    [recover_stalled_processing] returns the ids of the listed records
    whose [updated_at] is not after the stall instant.  Both keep the
    order of the listing, and a record dated exactly at the instant is
    included. *)
Theorem completed_sweep_returns_the_eligible_ids s s0 videos :
  (∀ expiration_str s' ids,
     svc_list_videos svc [] 0 1000 s = (s0, Ok videos) →
     cleanup_expired_content svc expiration_str s = (s', Ok ids) →
     ids = md_id <$> filter (λ v, String.ltb expiration_str (md_created_at v)
                                  = false
                                  ∧ md_allow_cleanup v = true) videos)
  ∧ (∀ now stall_str stall_hours s' ids,
       svc_list_videos svc [("status", "processing")] 0 100 s = (s0, Ok videos) →
       recover_stalled_processing svc now stall_str stall_hours s = (s', Ok ids) →
       ids = md_id <$> filter (λ v, String.ltb stall_str (md_updated_at v)
                                    = false) videos).
Proof.
  split.
  - intros expiration_str s' ids Hlist.
    unfold cleanup_expired_content, try_except, Py.bind. rewrite Hlist.
    destruct (expired_loop svc expiration_str videos [] s0)
      as [s1 [ids1|e]] eqn:Hloop; [|done].
    intros [= _ <-]. by apply expired_loop_result in Hloop.
  - intros now stall_str stall_hours s' ids Hlist.
    unfold recover_stalled_processing, try_except, Py.bind. rewrite Hlist.
    destruct (stalled_loop svc now stall_str stall_hours videos [] s0)
      as [s1 [ids1|e]] eqn:Hloop; [|done].
    intros [= _ <-]. by apply stalled_loop_result in Hloop.
Qed.

End SweepResults.

Lemma completed_sweep_returns_the_eligible_ids_witness :
  ["b"]
  = md_id
    <$> filter (λ v, String.ltb "2024-02-01T00:00:00" (md_created_at v) = false
                     ∧ md_allow_cleanup v = true)
          [TestServices.doc "a" "ready" "2024-03-01T00:00:00"
             "2024-03-01T01:00:00" true;
           TestServices.doc "b" "ready" "2024-01-01T00:00:00"
             "2024-01-01T01:00:00" true].
Proof.
  apply (proj1 (completed_sweep_returns_the_eligible_ids TestServices.services
                  (TestServices.mkState
                     [TestServices.doc "a" "ready" "2024-03-01T00:00:00"
                        "2024-03-01T01:00:00" true;
                      TestServices.doc "b" "ready" "2024-01-01T00:00:00"
                        "2024-01-01T01:00:00" true] [] [])
                  (TestServices.mkState
                     [TestServices.doc "a" "ready" "2024-03-01T00:00:00"
                        "2024-03-01T01:00:00" true;
                      TestServices.doc "b" "ready" "2024-01-01T00:00:00"
                        "2024-01-01T01:00:00" true] [] [])
                  [TestServices.doc "a" "ready" "2024-03-01T00:00:00"
                     "2024-03-01T01:00:00" true;
                   TestServices.doc "b" "ready" "2024-01-01T00:00:00"
                     "2024-01-01T01:00:00" true])
           "2024-02-01T00:00:00"
           (TestServices.mkState
              [TestServices.doc "a" "ready" "2024-03-01T00:00:00"
                 "2024-03-01T01:00:00" true] [] [])
           ["b"]).
  - reflexivity.
  - vm_compute. reflexivity.
Defined.


(** ** Finalizing with a chunk missing *)

Section FinalizeMissing.

Lemma local_combine_loop_metadata video_id output_path indices w :
  metadata_docs (LocalService.combine_loop video_id output_path indices w).1
  = metadata_docs w.
Proof.
  revert w. induction indices as [|i rest IH]; intros w; simpl; [done|].
  destruct (raw_files w !! chunk_path video_id i) as [data|];
    [|by destruct (is_directory _ _ _ _)].
  unfold Py.bind, LocalService.write. by rewrite IH.
Qed.

Lemma local_combine_chunks_metadata video_id total_chunks output_path w :
  metadata_docs (LocalService.combine_chunks video_id total_chunks
                   output_path w).1
  = metadata_docs w.
Proof.
  unfold LocalService.combine_chunks, try_except, Py.bind,
    LocalService.makedirs_above, LocalService.open_wb.
  destruct (file_above _ _); [done|].
  destruct (is_directory _ _ _ _); [done|].
  pose proof (local_combine_loop_metadata video_id output_path
                (range total_chunks) (set_raw (insert output_path []) w)) as H.
  destruct (LocalService.combine_loop _ _ _ _) as [w1 [[]|e]]; exact H.
Qed.

(** X29.  Equal counters are not enough to finalize.  When the record
    says that all chunks have arrived but the file of some chunk below
    the total is not there, as after one chunk was sent twice,
    [finalize_upload] fails with an [UploadError] and leaves every
    metadata record as it was: the status does not become [uploaded] and
    no output path is recorded.  With the cloud backend the files are
    untouched as well. *)
Theorem finalize_upload_with_a_chunk_missing storage now video_id user_id w
    metadata i :
  metadata_docs w !! video_id = Some metadata →
  truthy user_id = false ∨ md_owner_id metadata = user_id →
  md_chunks_received metadata = md_total_chunks metadata →
  0 ≤ i < md_total_chunks metadata →
  raw_files w !! chunk_path video_id i = None →
  ∃ w' detail,
    StorageService.finalize_upload storage now video_id user_id w
      = (w', Raise (UploadError detail))
    ∧ metadata_docs w' = metadata_docs w
    ∧ (storage = GCSBackend → w' = w).
Proof.
  intros Hdoc Howner Hcount Hi Hnone.
  unfold StorageService.finalize_upload, try_except. unfold Py.bind at 1.
  rewrite get_video_metadata_eq, Hdoc.
  assert (truthy user_id
          && negb (bool_decide (md_owner_id metadata = user_id)) = false) as ->.
  { destruct Howner as [->| ->]; [done|].
    rewrite bool_decide_eq_true_2 by done. apply andb_false_r. }
  unfold Py.bind at 1. simpl.
  rewrite (bool_decide_eq_true_2 _ Hcount). unfold Py.bind at 1. simpl.
  unfold Py.bind at 1.
  destruct storage; simpl.
  - pose proof (local_combine_chunks_metadata video_id
                  (md_total_chunks metadata)
                  ("videos/" +:+ video_id +:+ "/"
                   +:+ basename (md_filename metadata)) w) as Hmd.
    destruct (local_combine_chunks_missing video_id (md_total_chunks metadata)
                ("videos/" +:+ video_id +:+ "/"
                 +:+ basename (md_filename metadata)) w i Hi Hnone
                (output_path_not_chunk _ _ _)) as (w' & detail & Hrun).
    rewrite Hrun in Hmd |- *. simpl in *. unfold Py.raise.
    eexists _, _. split; [reflexivity|]. split; [done|]. discriminate.
  - unfold Py.raise. eexists _, _. split; [reflexivity|]. done.
Qed.

Lemma finalize_upload_with_a_chunk_missing_witness :
  ∃ w' detail,
    StorageService.finalize_upload LocalBackend "2024-05-01T10:01:00" "v"
      Scenario.alice
      (run_uploads "v" [Scenario.chunk_call 0 2 x01 Scenario.alice;
                        Scenario.chunk_call 0 2 x01 Scenario.alice]
         Scenario.alice_video)
      = (w', Raise (UploadError detail))
    ∧ metadata_docs w'
      = metadata_docs
          (run_uploads "v" [Scenario.chunk_call 0 2 x01 Scenario.alice;
                            Scenario.chunk_call 0 2 x01 Scenario.alice]
             Scenario.alice_video)
    ∧ (LocalBackend = GCSBackend →
       w' = run_uploads "v" [Scenario.chunk_call 0 2 x01 Scenario.alice;
                             Scenario.chunk_call 0 2 x01 Scenario.alice]
              Scenario.alice_video).
Proof.
  apply (finalize_upload_with_a_chunk_missing LocalBackend
           "2024-05-01T10:01:00" "v" Scenario.alice
           (run_uploads "v" [Scenario.chunk_call 0 2 x01 Scenario.alice;
                             Scenario.chunk_call 0 2 x01 Scenario.alice]
              Scenario.alice_video)
           (mkMetadata "v" "foo.mp4" (Some "alice") (Some "acme") "pending"
              "2024-05-01T10:00:00" "2024-05-01T10:00:05"
              (Float64.mul (Float64.div 2 2) 100) 2 2 None None None false false
              None) 1).
  - vm_compute. reflexivity.
  - right. reflexivity.
  - reflexivity.
  - simpl. lia.
  - vm_compute. reflexivity.
Defined.

End FinalizeMissing.

(** ** The total of an upload *)

Section UploadTotal.

(** X30.  The total of an upload is fixed by the first accepted chunk:
    once the record's [total_chunks] is not zero, no sequence of
    [upload_chunk] calls changes it, and a call that is accepted after
    such a sequence carries that same total and an index below it. *)
Theorem total_chunks_is_write_once video_id calls w :
  stored_total_chunks video_id w ≠ 0 →
  stored_total_chunks video_id (run_uploads video_id calls w)
    = stored_total_chunks video_id w
  ∧ ∀ c w' r,
      run_call video_id c (run_uploads video_id calls w) = (w', Ok r) →
      call_total_chunks c = stored_total_chunks video_id w
      ∧ call_chunk_index c < stored_total_chunks video_id w
      ∧ stored_total_chunks video_id w' = stored_total_chunks video_id w.
Proof.
  intros Hset.
  destruct (run_uploads_total video_id calls w) as (Hkeep & _ & _).
  specialize (Hkeep Hset). split; [done|].
  intros c w' r Hrun. unfold run_call in Hrun.
  apply upload_chunk_ok_effect in Hrun as (_ & _ & Hi & _ & Hnew & Hold).
  rewrite Hkeep in Hold. specialize (Hold Hset).
  rewrite Hnew. repeat split; [done|lia|done].
Qed.

Lemma total_chunks_is_write_once_witness :
  stored_total_chunks "v"
    (run_uploads "v" [Scenario.chunk_call 5 9 x02 Scenario.alice;
                      Scenario.chunk_call 1 2 x02 Scenario.alice]
       Scenario.one_of_two)
    = stored_total_chunks "v" Scenario.one_of_two
  ∧ ∀ c w' r,
      run_call "v" c
        (run_uploads "v" [Scenario.chunk_call 5 9 x02 Scenario.alice;
                          Scenario.chunk_call 1 2 x02 Scenario.alice]
           Scenario.one_of_two) = (w', Ok r) →
      call_total_chunks c = stored_total_chunks "v" Scenario.one_of_two
      ∧ call_chunk_index c < stored_total_chunks "v" Scenario.one_of_two
      ∧ stored_total_chunks "v" w' = stored_total_chunks "v" Scenario.one_of_two.
Proof.
  apply (total_chunks_is_write_once "v"
           [Scenario.chunk_call 5 9 x02 Scenario.alice;
            Scenario.chunk_call 1 2 x02 Scenario.alice] Scenario.one_of_two).
  vm_compute. discriminate.
Defined.

End UploadTotal.
